(** * Guide ingestion and retrieval: a shallow embedding

    The Python sources [data_loader.py], [vector_db.py] and [main.py] are
    embedded as Rocq functions.  Decoded JSON documents are values of
    [json]; Python exceptions are results in the error monad [res]; the
    vector index is a finite map threaded through the ingestion code; the
    external collaborators (content source, sentence splitter, embedding
    provider, workflow host) are interfaces given as type classes.

    Modelling conventions:
    - Python [str] is [string]; texts are taken to consist of the code
      points below 256, one character each, so [len] is [String.length].
    - JSON numbers are integers ([Z]); floating point payload values are
      not represented.
    - A JSON object is an association list read by its first binding. *)

From Stdlib Require Import ZArith Ascii String List Bool Lia QArith Sorted.
From stdpp Require Import base tactics option list gmap strings pretty.

Set Default Proof Using "Type".
Set Warnings "-register-all,-clear-no-such-hyp".
Local Open Scope string_scope.
Local Open Scope Z_scope.
Local Open Scope list_scope.

(** ** Python values and exceptions *)

Module Py.

Inductive exn : Type :=
| AttributeError
| TypeError
| IndexError
| ZeroDivisionError
| Exception (msg : string).

Inductive res (A : Type) : Type :=
| Ok (a : A)
| Raise (e : exn).

Arguments Ok {A} a.
Arguments Raise {A} e.

#[global] Instance res_ret : MRet res := fun A a => Ok a.

#[global] Instance res_bind : MBind res := fun A B f m =>
  match m with
  | Ok a => f a
  | Raise e => Raise e
  end.

(** [str(e)].  The messages of [AttributeError] and [TypeError], which name
    the offending object, are abbreviated to the name of the exception. *)
Definition str_exn (e : exn) : string :=
  match e with
  | AttributeError => "AttributeError"
  | TypeError => "TypeError"
  | IndexError => "list index out of range"
  | ZeroDivisionError => "division by zero"
  | Exception msg => msg
  end.

Inductive json : Type :=
| JNull
| JBool (b : bool)
| JNum (n : Z)
| JStr (s : string)
| JList (l : list json)
| JDict (kv : list (string * json)).

Abbreviation pydict := (list (string * json)).

Definition nl : string := String (ascii_of_nat 10) EmptyString.

(** Truth value of an object, as tested by [if x:] and [x or y]. *)
Definition truthy (v : json) : bool :=
  match v with
  | JNull => false
  | JBool b => b
  | JNum n => negb (n =? 0)
  | JStr s => negb (String.eqb s "")
  | JList l => match l with [] => false | _ => true end
  | JDict kv => match kv with [] => false | _ => true end
  end.

Definition py_or (x y : json) : json := if truthy x then x else y.

Fixpoint assoc (k : string) (kv : pydict) : option json :=
  match kv with
  | [] => None
  | (k', v) :: rest => if String.eqb k k' then Some v else assoc k rest
  end.

(** [d.get(k, default)] on a dict. *)
Definition dict_get (d : pydict) (k : string) (default : json) : json :=
  match assoc k d with Some v => v | None => default end.

(** [v.get(k, default)]: only dicts have the method. *)
Definition py_get (v : json) (k : string) (default : json) : res json :=
  match v with
  | JDict d => Ok (dict_get d k default)
  | _ => Raise AttributeError
  end.

Definition chars (s : string) : list json :=
  map (fun c => JStr (String c EmptyString)) (list_ascii_of_string s).

(** The items a [for] loop visits. *)
Definition py_iter (v : json) : res (list json) :=
  match v with
  | JList l => Ok l
  | JStr s => Ok (chars s)
  | JDict kv => Ok (map (fun p => JStr (fst p)) kv)
  | JNull | JBool _ | JNum _ => Raise TypeError
  end.

Definition isinstance_dict (v : json) : bool :=
  match v with JDict _ => true | _ => false end.

(** [v == "..."] against a string literal. *)
Definition eq_str (v : json) (lit : string) : bool :=
  match v with JStr s => String.eqb s lit | _ => false end.

(** [str.isspace] on the code points below 256: the controls U+0009 to
    U+000D and U+001C to U+001F, the space, the next-line control U+0085
    and the no-break space U+00A0. *)
Definition isspace (c : ascii) : bool :=
  let n := nat_of_ascii c in
  ((9 <=? n)%nat && (n <=? 13)%nat) || ((28 <=? n)%nat && (n <=? 32)%nat)
  || (n =? 133)%nat || (n =? 160)%nat.

Fixpoint lstrip_chars (l : list ascii) : list ascii :=
  match l with
  | [] => []
  | c :: rest => if isspace c then lstrip_chars rest else l
  end.

Definition strip (s : string) : string :=
  string_of_list_ascii
    (rev (lstrip_chars (rev (lstrip_chars (list_ascii_of_string s))))).

(** [v.strip()]: only strings have the method. *)
Definition py_strip (v : json) : res string :=
  match v with
  | JStr s => Ok (strip s)
  | _ => Raise AttributeError
  end.

(** The interpreter's [repr] of lists and dicts is left abstract. *)
Class Runtime := {
  repr_container : json -> string;
  (** [str(uuid.uuid5(uuid.NAMESPACE_URL, name))] *)
  uuid5_url : string -> string
}.

(** [str(v)], as used by f-string interpolation. *)
Definition py_str `{Runtime} (v : json) : string :=
  match v with
  | JNull => "None"
  | JBool true => "True"
  | JBool false => "False"
  | JNum n => pretty n
  | JStr s => s
  | JList _ | JDict _ => repr_container v
  end.

End Py.

Import Py.

(** ** data_loader.py *)

Module DataLoader.

(** [splitter = SentenceSplitter(chunk_size=1000, chunk_overlap=200)];
    only its [split_text] method is used. *)
Class Splitter := {
  split_text : string -> list string
}.

(** The Dozuki HTTP API, reached through [fetch_guide] and
    [fetch_guide_list]. *)
Class ContentSource := {
  fetch_guide : json -> string -> res json;
  fetch_guide_list : string -> Z -> Z -> res (list json)
}.

(** Embedding vectors; the components are irrelevant to the model. *)
Definition vector : Type := list Q.

(** One call of [bedrock_runtime.invoke_model] followed by reading
    [response_body['embedding']]. *)
Class Embedder := {
  invoke_model : string -> res vector
}.

Section Extraction.
Context `{Runtime}.

(** The inner loop [for line in step_lines]. *)
Fixpoint step_lines_loop (step_lines : list json) (step_text : string)
  : res string :=
  match step_lines with
  | [] => Ok step_text
  | line :: rest =>
      line_text ← py_get line "text_rendered" (JStr "");
      step_lines_loop rest
        (if truthy line_text
         then step_text +:+ "- " +:+ py_str line_text +:+ nl
         else step_text)
  end.

(** The loop [for step in steps] of [extract_guide_text]. *)
Fixpoint steps_text_loop (steps : list json) (text_chunks : list string)
  : res (list string) :=
  match steps with
  | [] => Ok text_chunks
  | step :: rest =>
      step_title ← py_get step "title" (JStr "");
      step_lines ← py_get step "lines" (JList []);
      orderby ← py_get step "orderby" (JStr "");
      let step_text :=
        "Step " +:+ py_str orderby +:+ ": " +:+ py_str step_title +:+ nl in
      lines ← py_iter step_lines;
      step_text ← step_lines_loop lines step_text;
      steps_text_loop rest
        (if truthy (JStr (strip step_text))
         then text_chunks ++ [step_text]
         else text_chunks)
  end.

(** The loops [for part in parts] and [for tool in tools]. *)
Fixpoint bullet_loop (items : list json) (text : string) : res string :=
  match items with
  | [] => Ok text
  | item :: rest =>
      t ← py_get item "text" (JStr "");
      bullet_loop rest (text +:+ "- " +:+ py_str t +:+ nl)
  end.

Definition bullet_section (title : string) (items : json)
    (text_chunks : list string) : res (list string) :=
  if truthy items then
    l ← py_iter items;
    text ← bullet_loop l (title +:+ nl);
    Ok (text_chunks ++ [text])
  else Ok text_chunks.

Definition header_text (title summary difficulty category : json) : string :=
  "Guide: " +:+ py_str title +:+ nl +:+
  "Category: " +:+ py_str category +:+ nl +:+
  "Difficulty: " +:+ py_str difficulty +:+ nl +:+
  "Summary: " +:+ py_str summary.

Definition extract_guide_text (guide_data : json) : res (list string) :=
  let text_chunks := [] in
  title ← py_get guide_data "title" (JStr "");
  summary ← py_get guide_data "summary" (JStr "");
  difficulty ← py_get guide_data "difficulty" (JStr "");
  category ← py_get guide_data "category" (JStr "");
  let text_chunks :=
    text_chunks ++ [header_text title summary difficulty category] in
  intro_v ← py_get guide_data "introduction_rendered" (JStr "");
  intro ← py_strip intro_v;
  let text_chunks :=
    if truthy (JStr intro)
    then text_chunks ++ ["Introduction:" +:+ nl +:+ intro]
    else text_chunks in
  steps_v ← py_get guide_data "steps" (JList []);
  steps ← py_iter steps_v;
  text_chunks ← steps_text_loop steps text_chunks;
  conclusion_v ← py_get guide_data "conclusion_rendered" (JStr "");
  conclusion ← py_strip conclusion_v;
  let text_chunks :=
    if truthy (JStr conclusion)
    then text_chunks ++ ["Conclusion:" +:+ nl +:+ conclusion]
    else text_chunks in
  parts ← py_get guide_data "parts" (JList []);
  text_chunks ← bullet_section "Required Parts:" parts text_chunks;
  tools ← py_get guide_data "tools" (JList []);
  bullet_section "Required Tools:" tools text_chunks.

End Extraction.

(** The loop [for item in (media.get("data") or [])]. *)
Fixpoint media_items_loop (items : list json) (step_images : list json)
  : list json :=
  match items with
  | [] => step_images
  | item :: rest =>
      media_items_loop rest
        (match item with
         | JDict d =>
             let url := dict_get d "original" JNull in
             if truthy url then step_images ++ [url] else step_images
         | _ => step_images
         end)
  end.

(** The loop [for step in steps] of [extract_guide_images]. *)
Fixpoint steps_images_loop (steps : list json)
    (sections_images : list (list json)) : res (list (list json)) :=
  match steps with
  | [] => Ok sections_images
  | step :: rest =>
      let step_images := [] in
      media_v ← py_get step "media" JNull;
      let media := py_or media_v (JDict []) in
      step_images ←
        match media with
        | JDict m =>
            if eq_str (dict_get m "type" JNull) "image" then
              items ← py_iter (py_or (dict_get m "data" JNull) (JList []));
              Ok (media_items_loop items step_images)
            else Ok step_images
        | _ => Ok step_images
        end;
      steps_images_loop rest (sections_images ++ [step_images])
  end.

Definition extract_guide_images (guide_data : json)
  : res (list (list json)) :=
  let sections_images := [] in
  let sections_images := sections_images ++ [[]] in
  intro_v ← py_get guide_data "introduction_rendered" (JStr "");
  intro ← py_strip intro_v;
  let sections_images :=
    if truthy (JStr intro) then sections_images ++ [[]]
    else sections_images in
  steps_v ← py_get guide_data "steps" (JList []);
  steps ← py_iter steps_v;
  sections_images ← steps_images_loop steps sections_images;
  conclusion_v ← py_get guide_data "conclusion_rendered" (JStr "");
  conclusion ← py_strip conclusion_v;
  let sections_images :=
    if truthy (JStr conclusion) then sections_images ++ [[]]
    else sections_images in
  parts ← py_get guide_data "parts" (JList []);
  let sections_images :=
    if truthy parts then sections_images ++ [[]] else sections_images in
  tools ← py_get guide_data "tools" (JList []);
  let sections_images :=
    if truthy tools then sections_images ++ [[]] else sections_images in
  Ok sections_images.

(** [len(section) > 1000] *)
Definition exceeds_chunk_size (section : string) : bool :=
  (1000 <? String.length section)%nat.

Section Chunking.
Context `{Runtime} `{Splitter} `{ContentSource}.

(** The loop [for section in text_sections] of [load_and_chunk_guide]. *)
Fixpoint chunk_loop (text_sections : list string) (chunks : list string)
  : list string :=
  match text_sections with
  | [] => chunks
  | section :: rest =>
      chunk_loop rest
        (if exceeds_chunk_size section
         then chunks ++ split_text section
         else chunks ++ [section])
  end.

Definition load_and_chunk_guide (guide_id : json) (token : string)
  : res (list string) :=
  guide_data ← fetch_guide guide_id token;
  text_sections ← extract_guide_text guide_data;
  Ok (chunk_loop text_sections []).

Record GuideMeta := {
  guide_title : option string;
  guide_url : option string
}.

(** [list(images) if images else []] *)
Definition copy_images (images : list json) : list json :=
  match images with [] => [] | _ => images end.

(** The loop [for part in parts] over the pieces of one split section. *)
Fixpoint parts_loop (parts : list string) (images : list json)
    (acc : list string * list (list json))
  : list string * list (list json) :=
  match parts with
  | [] => acc
  | part :: rest =>
      parts_loop rest images
        (fst acc ++ [part], snd acc ++ [copy_images images])
  end.

(** The loop [for idx, section in enumerate(text_sections)]; [idx] is the
    index of the head of [text_sections]. *)
Fixpoint media_chunk_loop (idx : nat) (text_sections : list string)
    (image_sections : list (list json))
    (acc : list string * list (list json))
  : list string * list (list json) :=
  match text_sections with
  | [] => acc
  | section :: rest =>
      let images :=
        if (idx <? length image_sections)%nat
        then nth idx image_sections []
        else [] in
      media_chunk_loop (S idx) rest image_sections
        (if exceeds_chunk_size section
         then parts_loop (split_text section) images acc
         else (fst acc ++ [section], snd acc ++ [copy_images images]))
  end.

Definition meta_field (guide_data : json) (key : string) : option string :=
  match guide_data with
  | JDict d =>
      let v := dict_get d key JNull in
      if truthy v then Some (py_str v) else None
  | _ => None
  end.

Definition load_and_chunk_guide_with_media (guide_id : json) (token : string)
  : res (list string * list (list json) * GuideMeta) :=
  guide_data ← fetch_guide guide_id token;
  text_sections ← extract_guide_text guide_data;
  image_sections ← extract_guide_images guide_data;
  let meta :=
    {| guide_title := meta_field guide_data "title";
       guide_url := meta_field guide_data "url" |} in
  let max_len := Nat.min (length text_sections) (length image_sections) in
  let text_sections := take max_len text_sections in
  let image_sections := take max_len image_sections in
  let '(chunks, chunk_images) :=
    media_chunk_loop 0 text_sections image_sections ([], []) in
  Ok (chunks, chunk_images, meta).

End Chunking.

(** The loop of [embed_texts]: one provider call per text. *)
Fixpoint embed_loop `{Embedder} (texts : list string)
    (embeddings : list vector) : res (list vector) :=
  match texts with
  | [] => Ok embeddings
  | text :: rest =>
      e ← invoke_model text;
      embed_loop rest (embeddings ++ [e])
  end.

Definition embed_texts `{Embedder} (texts : list string)
  : res (list vector) :=
  embed_loop texts [].

End DataLoader.

Import DataLoader.

(** ** vector_db.py *)

Module VectorDb.

Record PointStruct := {
  point_id : string;
  point_vector : vector;
  point_payload : pydict
}.

(** The collection held by the Qdrant server: points by id. *)
Abbreviation index := (gmap string (vector * pydict)).

Record ScoredPoint := {
  sp_id : string;
  sp_payload : option pydict
}.

(** [client.search]: the server's nearest-neighbour query. *)
Class SearchClient := {
  client_search : index -> vector -> Z -> option json -> list ScoredPoint
}.

(** [l[i]] for a non-negative index. *)
Definition index_list {A} (l : list A) (i : nat) : res A :=
  match l !! i with
  | Some x => Ok x
  | None => Raise IndexError
  end.

(** A list comprehension [[f(i) for i in indices]] whose body may raise. *)
Fixpoint list_comp {A} (f : nat -> res A) (indices : list nat)
  : res (list A) :=
  match indices with
  | [] => Ok []
  | i :: rest =>
      x ← f i;
      xs ← list_comp f rest;
      Ok (x :: xs)
  end.

(** [range(n)] *)
Definition range (n : nat) : list nat := seq 0 n.

(** [client.upsert]: every point is written under its id, in order.  The
    index is the outcome of a call the service accepts; its own checks of a
    point (the id is a UUID or an unsigned integer, the vector has the
    dimension of the collection) are not part of this file. *)
Definition client_upsert (idx : index) (points : list PointStruct) : index :=
  foldl (fun m p => <[point_id p := (point_vector p, point_payload p)]> m)
    idx points.

(** [QdrantStorage.upsert] *)
Definition upsert (ids : list string) (vectors : list vector)
    (payloads : list pydict) (idx : index) : res index :=
  points ← list_comp (fun i =>
      id ← index_list ids i;
      v ← index_list vectors i;
      p ← index_list payloads i;
      Ok {| point_id := id; point_vector := v; point_payload := p |})
    (range (length ids));
  Ok (client_upsert idx points).

(** Keys under which Python hashes and compares the JSON scalars:
    [True == 1] and [False == 0]; lists and dicts are unhashable. *)
Inductive hkey : Type :=
| HNone
| HNum (n : Z)
| HStr (s : string).

#[global] Instance hkey_eq_dec : EqDecision hkey.
Proof. solve_decision. Defined.

Definition hkey_to_sum (k : hkey) : unit + (Z + string) :=
  match k with
  | HNone => inl tt
  | HNum n => inr (inl n)
  | HStr s => inr (inr s)
  end.

Definition hkey_of_sum (x : unit + (Z + string)) : hkey :=
  match x with
  | inl _ => HNone
  | inr (inl n) => HNum n
  | inr (inr s) => HStr s
  end.

#[global] Instance hkey_countable : Countable hkey.
Proof.
  apply (inj_countable' hkey_to_sum hkey_of_sum).
  intros []; reflexivity.
Defined.

Definition py_hash_key (v : json) : option hkey :=
  match v with
  | JNull => Some HNone
  | JBool b => Some (HNum (if b then 1 else 0))
  | JNum n => Some (HNum n)
  | JStr s => Some (HStr s)
  | JList _ | JDict _ => None
  end.

(** A Python [set] of JSON scalars: each key with the element first
    inserted under it. *)
Abbreviation pyset := (gmap hkey json).

(** [s.add(x)] *)
Definition set_add (x : json) (s : pyset) : res pyset :=
  match py_hash_key x with
  | None => Raise TypeError
  | Some k =>
      match s !! k with
      | Some _ => Ok s
      | None => Ok (<[k := x]> s)
      end
  end.

(** [list(s)], in the order the map enumerates it. *)
Definition set_to_list (s : pyset) : list json :=
  (map_to_list s).*2.

Record GuideInfo := {
  gi_guide_id : json;
  gi_title : json;
  gi_url : json;
  gi_source : json
}.

Record SearchResult := {
  contexts : list json;
  sources : list json;
  guide_ids : list json;
  images_per_context : list (list string);
  guide_info : list GuideInfo
}.

(** The five accumulators of [search]. *)
Record SearchAcc := {
  acc_contexts : list json;
  acc_sources : pyset;
  acc_guide_ids : pyset;
  acc_images_per_context : list (list string);
  acc_guide_info : list GuideInfo
}.

Section Search.
Context `{Runtime}.

(** The body of [for r in results]. *)
Definition search_step (r : ScoredPoint) (a : SearchAcc) : res SearchAcc :=
  let payload := match sp_payload r with Some d => d | None => [] end in
  let text := dict_get payload "text" (JStr "") in
  let source := dict_get payload "source" (JStr "") in
  let guide_id := dict_get payload "guide_id" JNull in
  let images := py_or (dict_get payload "images" JNull) (JList []) in
  if truthy text then
    let contexts := acc_contexts a ++ [text] in
    sources ← set_add source (acc_sources a);
    guide_ids ←
      (if truthy guide_id then set_add guide_id (acc_guide_ids a)
       else Ok (acc_guide_ids a));
    let guide_info := acc_guide_info a ++
      [{| gi_guide_id := guide_id;
          gi_title := dict_get payload "guide_title" JNull;
          gi_url := dict_get payload "guide_url" JNull;
          gi_source := source |}] in
    let images_per_context := acc_images_per_context a ++
      [match images with
       | JList us => map py_str (filter (fun u => truthy u = true) us)
       | _ => []
       end] in
    Ok {| acc_contexts := contexts;
          acc_sources := sources;
          acc_guide_ids := guide_ids;
          acc_images_per_context := images_per_context;
          acc_guide_info := guide_info |}
  else Ok a.

Fixpoint search_loop (results : list ScoredPoint) (a : SearchAcc)
  : res SearchAcc :=
  match results with
  | [] => Ok a
  | r :: rest =>
      a' ← search_step r a;
      search_loop rest a'
  end.

(** Lines 53-89 of [QdrantStorage.search]: the aggregation of the points
    returned by the client. *)
Definition search_aggregate (results : list ScoredPoint) : res SearchResult :=
  a ← search_loop results
      {| acc_contexts := []; acc_sources := ∅; acc_guide_ids := ∅;
         acc_images_per_context := []; acc_guide_info := [] |};
  Ok {| contexts := acc_contexts a;
        sources := set_to_list (acc_sources a);
        guide_ids := set_to_list (acc_guide_ids a);
        images_per_context := acc_images_per_context a;
        guide_info := acc_guide_info a |}.

(** [QdrantStorage.search] *)
Definition search `{SearchClient} (idx : index) (query_vector : vector)
    (top_k : Z) (guide_id : option json) : res SearchResult :=
  search_aggregate (client_search idx query_vector top_k guide_id).

End Search.


(** A stored point as [client.scroll] returns it. *)
Record PointRecord := {
  rec_id : string;
  rec_payload : option pydict
}.

(** [client.scroll] with [limit=256]: a page of points and the offset of
    the next page, if there is one. *)
Class ScrollClient := {
  client_scroll : index -> option string -> list PointRecord * option string
}.

(** A value of the dict [guides] of [list_guides]. *)
Record GuideEntry := {
  ge_guide_id : json;
  ge_source : json
}.

(** The dict [guides], in insertion order, under the keys Python hashes
    the guide ids to. *)
Abbreviation guide_dict := (list (hkey * GuideEntry)).

(** [guide_id in guides] *)
Definition has_key (k : hkey) (guides : guide_dict) : bool :=
  existsb (fun kv => bool_decide (fst kv = k)) guides.

(** The body of [for point in points]. *)
Definition list_guides_step (point : PointRecord) (guides : guide_dict)
  : res guide_dict :=
  let payload := match rec_payload point with Some d => d | None => [] end in
  let guide_id := dict_get payload "guide_id" JNull in
  match guide_id with
  | JNull => Ok guides
  | _ =>
      match py_hash_key guide_id with
      | None => Raise TypeError
      | Some k =>
          if has_key k guides then Ok guides
          else Ok (guides ++
                   [(k, {| ge_guide_id := guide_id;
                           ge_source := dict_get payload "source" JNull |})])
      end
  end.

Fixpoint list_guides_points (points : list PointRecord) (guides : guide_dict)
  : res guide_dict :=
  match points with
  | [] => Ok guides
  | point :: rest =>
      guides' ← list_guides_step point guides;
      list_guides_points rest guides'
  end.

(** The loop [while True] of [list_guides]; it ends with the page that has
    no next offset. *)
Fixpoint scroll_loop `{ScrollClient} (fuel : nat) (idx : index)
    (offset : option string) (guides : guide_dict)
  : option (res guide_dict) :=
  match fuel with
  | O => None
  | S fuel' =>
      let '(points, offset') := client_scroll idx offset in
      match list_guides_points points guides with
      | Raise e => Some (Raise e)
      | Ok guides' =>
          match offset' with
          | None => Some (Ok guides')
          | Some _ => scroll_loop fuel' idx offset' guides'
          end
      end
  end.

(** The integer a number or a bool compares as. *)
Definition num_of (v : json) : option Z :=
  match v with
  | JNum n => Some n
  | JBool b => Some (if b then 1 else 0)
  | _ => None
  end.

(** [a < b] on hashable JSON values: numbers with numbers, strings with
    strings; any other pair raises [TypeError]. *)
Definition py_lt (a b : json) : res bool :=
  match num_of a, num_of b with
  | Some x, Some y => Ok (x <? y)
  | _, _ =>
      match a, b with
      | JStr s, JStr t => Ok (String.ltb s t)
      | _, _ => Raise TypeError
      end
  end.

(** One insertion of a stable insertion sort on the key
    [item["guide_id"]]. *)
Fixpoint insert_by_guide_id (x : GuideEntry) (sorted : list GuideEntry)
  : res (list GuideEntry) :=
  match sorted with
  | [] => Ok [x]
  | y :: rest =>
      less ← py_lt (ge_guide_id x) (ge_guide_id y);
      if (less : bool) then Ok (x :: y :: rest)
      else (r ← insert_by_guide_id x rest; Ok (y :: r))
  end.

(** [sorted(items, key=lambda item: item["guide_id"])].  Python's sort is
    stable and compares keys with [<] only; a stable insertion sort returns
    the same list, and raises [TypeError] for the same inputs, namely when
    two keys of different kinds meet. *)
Fixpoint sorted_by_guide_id (items : list GuideEntry)
    (sorted : list GuideEntry) : res (list GuideEntry) :=
  match items with
  | [] => Ok sorted
  | x :: rest =>
      sorted' ← insert_by_guide_id x sorted;
      sorted_by_guide_id rest sorted'
  end.

(** [QdrantStorage.list_guides]; [None] when [fuel] pages did not reach the
    last page. *)
Definition list_guides `{ScrollClient} (fuel : nat) (idx : index)
  : option (res (list GuideEntry)) :=
  match scroll_loop fuel idx None [] with
  | None => None
  | Some (Raise e) => Some (Raise e)
  | Some (Ok guides) => Some (sorted_by_guide_id (map snd guides) [])
  end.

End VectorDb.

Import VectorDb.

(** ** main.py *)

Module Main.

(** The durable-execution host.  [wait_for_pause i] tells whether the step
    ["pause-check-{i}"], a one second [wait_for_event] on
    ["rag/pause_site_ingestion"], received the event. *)
Class Host := {
  wait_for_pause : Z -> bool
}.

(** The name hashed into the id of chunk [i]: [f"{source_id}:{i}"]. *)
Definition point_name (source_id : string) (i : nat) : string :=
  source_id +:+ ":" +:+ pretty i.

Section Ingestion.
Context `{Runtime} `{Splitter} `{ContentSource} `{Embedder}.

(** [[str(uuid.uuid5(uuid.NAMESPACE_URL, f"{source_id}:{i}"))
      for i in range(len(chunks))]] *)
Definition point_ids (source_id : string) (chunks : list string)
  : list string :=
  map (fun i => uuid5_url (point_name source_id i)) (range (length chunks)).

(** [[{"source": source_id, "text": chunks[i], "guide_id": guide_id}
      for i in range(len(chunks))]] *)
Definition point_payloads (source_id : string) (guide_id : json)
    (chunks : list string) : list pydict :=
  map (fun i => [("source", JStr source_id);
                 ("text", JStr (nth i chunks ""));
                 ("guide_id", guide_id)])
    (range (length chunks)).

(** [rag_ingest_guide._load] *)
Definition rag_ingest_guide_load (guide_id : json) (token : string)
    (source_id : option string) : res (list string * string) :=
  let source_id :=
    match source_id with
    | Some s => s
    | None => "guide_" +:+ py_str guide_id
    end in
  chunks ← load_and_chunk_guide guide_id token;
  Ok (chunks, source_id).

(** [rag_ingest_guide._upsert]; the result is the [ingested] count. *)
Definition rag_ingest_guide_upsert (chunks_and_src : list string * string)
    (guide_id : json) (idx : index) : res (Z * index) :=
  let chunks := fst chunks_and_src in
  let source_id := snd chunks_and_src in
  vecs ← embed_texts chunks;
  let ids := point_ids source_id chunks in
  let payloads := point_payloads source_id guide_id chunks in
  idx' ← upsert ids vecs payloads idx;
  Ok (Z.of_nat (length chunks), idx').

(** The [try] block of [process_single_guide]; the result is the value
    under ["chunks"]. *)
Definition process_single_guide_body (guide_id : json)
    (token site_id : string) (idx : index) : res (Z * index) :=
  chunks ← load_and_chunk_guide guide_id token;
  match chunks with
  | [] => Ok (0, idx)
  | _ =>
      vecs ← embed_texts chunks;
      let source_id := site_id +:+ "_guide_" +:+ py_str guide_id in
      let ids := point_ids source_id chunks in
      let payloads := point_payloads source_id guide_id chunks in
      idx' ← upsert ids vecs payloads idx;
      Ok (Z.of_nat (length chunks), idx')
  end.

(** [process_single_guide]: any exception is re-raised with a prefix. *)
Definition process_single_guide (guide_id : json) (token site_id : string)
    (idx : index) : res (Z * index) :=
  match process_single_guide_body guide_id token site_id idx with
  | Ok r => Ok r
  | Raise e =>
      Raise (Exception ("Failed to process guide " +:+ py_str guide_id
                        +:+ ": " +:+ str_exn e))
  end.

End Ingestion.

(** [range(start, stop)] over the integers. *)
Definition py_range (start stop : Z) : list Z :=
  seqZ start (stop - start).

(** [l[i]] with Python's negative indices. *)
Definition py_index {A} (l : list A) (i : Z) : res A :=
  let n := Z.of_nat (length l) in
  if (0 <=? i) && (i <? n) then index_list l (Z.to_nat i)
  else if (i <? 0) && (0 <=? n + i) then index_list l (Z.to_nat (n + i))
  else Raise IndexError.

(** The integer nearest to [n / d], ties to even, for [0 < d]. *)
Definition half_even (n d : Z) : Z :=
  let q := n / d in
  let r := n mod d in
  if 2 * r <? d then q
  else if d <? 2 * r then q + 1
  else if Z.even q then q else q + 1.

(** The double nearest to [n / d], ties to even, as a fraction: the
    quotient is scaled by a power of two into [2^52, 2^53) and rounded to
    an integer there.  Quotients are taken to lie in the range of the
    normal doubles. *)
Definition to_double (n d : Z) : Z * Z :=
  if (n =? 0) || (d =? 0) then (0, 1)
  else
    let sign := Z.sgn n * Z.sgn d in
    let n := Z.abs n in
    let d := Z.abs d in
    let k := Z.log2 n - Z.log2 d in
    let above := if 0 <=? k then d * 2 ^ k <=? n else d <=? n * 2 ^ (- k) in
    let e := (if above then k else k - 1) - 52 in
    let m := if 0 <=? e then half_even n (d * 2 ^ e)
             else half_even (n * 2 ^ (- e)) d in
    if 0 <=? e then (sign * m * 2 ^ e, 1) else (sign * m, 2 ^ (- e)).

(** [round(x, 1)] of the double [x = (p / t) * 100], in tenths: the
    division and the multiplication each round to the nearest double, and
    [round] takes the decimal with one digit nearest to the exact value of
    [x], ties to even. *)
Definition round_tenths (p t : Z) : Z :=
  let '(n1, d1) := to_double p t in
  let '(n2, d2) := to_double (n1 * 100) d1 in
  half_even (n2 * 10) d2.

(** [round((processed / total_guides) * 100, 1)] *)
Definition percentage (processed total_guides : Z) : res Q :=
  if total_guides =? 0 then Raise ZeroDivisionError
  else Ok (Qmake (round_tenths processed total_guides) 10).

(** An entry of the saga's [errors] list. *)
Record ErrorRec := {
  err_guide_id : json;
  err_title : json;
  err_error : string
}.

(** What a run leaves with the host: the steps it ran and the
    ["rag/site_progress"] events it sent, oldest first. *)
Inductive event : Type :=
| SentFetching (total_guides : Z)
| StepProcessGuide (i : Z) (guide_id : json)
| StepPauseCheck (i : Z)
| SentProgress (i : Z) (processed total_chunks : Z) (pct : Q)
| SentError (i : Z) (guide_id : json) (error : string)
    (processed failed : Z)
| SentPaused (resume_offset processed total_guides : Z)
| SentCompleted (processed failed total_chunks : Z).

Inductive SagaResult : Type :=
| Completed (processed failed total_chunks : Z) (errors : list ErrorRec)
| Paused (processed resume_offset total_guides : Z)
| Uncaught (e : exn).

(** The variables the guide loop of [rag_ingest_site] updates, with the
    index and the host's log. *)
Record LoopState := {
  processed : Z;
  total_chunks : Z;
  errors : list ErrorRec;
  store : index;
  log : list event
}.

Definition add_log (ev : event) (st : LoopState) : LoopState :=
  {| processed := processed st; total_chunks := total_chunks st;
     errors := errors st; store := store st; log := log st ++ [ev] |}.

Section Saga.
Context `{Runtime} `{Splitter} `{ContentSource} `{Embedder} `{Host}.

(** The [except Exception as e] handler. *)
Definition handle_failure (i : Z) (guide_id : json) (guide_summary : pydict)
    (e : exn) (st : LoopState) : LoopState :=
  let title :=
    dict_get guide_summary "title" (JStr ("Guide " +:+ py_str guide_id)) in
  let errors' := errors st ++
    [{| err_guide_id := guide_id; err_title := title;
        err_error := str_exn e |}] in
  add_log
    (SentError i guide_id
       ("Failed to process guide " +:+ py_str guide_id +:+ ": " +:+ str_exn e)
       (processed st) (Z.of_nat (length errors')))
    {| processed := processed st; total_chunks := total_chunks st;
       errors := errors'; store := store st; log := log st |}.

(** The [try] statement of the guide loop. *)
Definition try_guide (token site_id : string) (total_guides : Z) (i : Z)
    (guide_id : json) (guide_summary : pydict) (st : LoopState)
  : LoopState :=
  let st := add_log (StepProcessGuide i guide_id) st in
  match process_single_guide guide_id token site_id (store st) with
  | Ok (n, store') =>
      let st :=
        {| processed := processed st + 1;
           total_chunks := total_chunks st + n;
           errors := errors st; store := store'; log := log st |} in
      match percentage (processed st) total_guides with
      | Ok pct =>
          add_log (SentProgress i (processed st) (total_chunks st) pct) st
      | Raise e => handle_failure i guide_id guide_summary e st
      end
  | Raise e => handle_failure i guide_id guide_summary e st
  end.

(** The loop [for i in range(resume_offset, len(all_guides))], run over
    the indices still to visit.  [None] means the loop ran to its end;
    otherwise the value is what the saga returns or raises from inside. *)
Fixpoint guides_loop (token site_id : string) (all_guides : list json)
    (indices : list Z) (st : LoopState) : option SagaResult * LoopState :=
  match indices with
  | [] => (None, st)
  | i :: rest =>
      let total_guides := Z.of_nat (length all_guides) in
      match py_index all_guides i with
      | Raise e => (Some (Uncaught e), st)
      | Ok guide_summary =>
          match guide_summary with
          | JDict summary =>
              let guide_id := dict_get summary "guideid" JNull in
              if negb (truthy guide_id) then
                guides_loop token site_id all_guides rest st
              else if (0 <? i) && (i mod 5 =? 0) then
                let st := add_log (StepPauseCheck i) st in
                if wait_for_pause i then
                  (Some (Paused (processed st) i total_guides),
                   add_log (SentPaused i (processed st) total_guides) st)
                else
                  guides_loop token site_id all_guides rest
                    (try_guide token site_id total_guides i guide_id
                       summary st)
              else
                guides_loop token site_id all_guides rest
                  (try_guide token site_id total_guides i guide_id
                     summary st)
          | _ => (Some (Uncaught AttributeError), st)
          end
      end
  end.

(** The paging loop [while True] over [fetch_guide_list]; it ends when the
    content source returns an empty or a short page. *)
Fixpoint fetch_all_guides (fuel : nat) (token : string) (offset : Z)
    (all_guides : list json) : option (res (list json)) :=
  match fuel with
  | O => None
  | S fuel' =>
      match fetch_guide_list token offset 200 with
      | Raise e => Some (Raise e)
      | Ok batch =>
          match batch with
          | [] => Some (Ok all_guides)
          | _ =>
              let all_guides := all_guides ++ batch in
              if (length batch <? 200)%nat then Some (Ok all_guides)
              else fetch_all_guides fuel' token (offset + 200) all_guides
          end
      end
  end.

(** The part of [rag_ingest_site] after the catalog is fetched. *)
Definition ingest_catalog (token site_id : string) (resume_offset : Z)
    (all_guides : list json) (idx : index) : SagaResult * LoopState :=
  let total_guides := Z.of_nat (length all_guides) in
  let st :=
    {| processed := 0; total_chunks := 0; errors := [];
       store := idx; log := [SentFetching total_guides] |} in
  match guides_loop token site_id all_guides
          (py_range resume_offset total_guides) st with
  | (Some r, st) => (r, st)
  | (None, st) =>
      let failed := Z.of_nat (length (errors st)) in
      (Completed (processed st) failed (total_chunks st) (errors st),
       add_log (SentCompleted (processed st) failed (total_chunks st)) st)
  end.

(** [rag_ingest_site], for the event data [token], [site_id] and
    [resume_offset]; [None] when [fuel] pages did not exhaust the
    catalog. *)
Definition rag_ingest_site (fuel : nat) (token : string)
    (site_id : option string) (resume_offset : option Z) (idx : index)
  : option (SagaResult * LoopState) :=
  let site_id := default "hansaw" site_id in
  match fetch_all_guides fuel token 0 [] with
  | None => None
  | Some (Raise e) =>
      Some (Uncaught e,
            {| processed := 0; total_chunks := 0; errors := [];
               store := idx; log := [] |})
  | Some (Ok all_guides) =>
      Some (ingest_catalog token site_id (default 0 resume_offset)
              all_guides idx)
  end.

End Saga.

(** *** Single-guide ingestion through the event ["rag/ingest_guide"] *)

(** [rag_ingest_guide]: the steps ["load-and-chunk"] and
    ["embed-and-upsert"]; the result is the [ingested] count. *)
Definition rag_ingest_guide `{Runtime} `{Splitter} `{ContentSource}
    `{Embedder} (guide_id : json) (token : string)
    (source_id : option string) (idx : index) : res (Z * index) :=
  chunks_and_src ← rag_ingest_guide_load guide_id token source_id;
  rag_ingest_guide_upsert chunks_and_src guide_id idx.

(** *** Answering questions *)

(** The answer-generation provider: one call of
    [bedrock_runtime.invoke_model] with the fixed system prompt and the
    given user content, followed by reading
    [response_body["content"][0]["text"]]. *)
Class AnswerModel := {
  invoke_claude : string -> res string
}.

(** [RAGSearchResult], as validated by pydantic. *)
Record RAGSearchResult := {
  rs_contexts : list string;
  rs_sources : list string;
  rs_guide_ids : list json
}.

(** The validation pydantic runs when [RAGSearchResult(contexts=...,
    sources=..., guide_ids=...)] is built. *)
Class Schema := {
  validate_search_result :
    list json -> list json -> list json -> res RAGSearchResult
}.

(** An entry of [source_guides]. *)
Record SourceGuide := {
  sg_guide_id : json;
  sg_title : json;
  sg_url : json
}.

(** [RAQQueryResult]; [images] keeps its default. *)
Record RAQQueryResult := {
  answer : string;
  result_sources : list string;
  num_contexts : Z;
  source_guides : list SourceGuide
}.

(** [sep.join(parts)] *)
Fixpoint join (sep : string) (parts : list string) : string :=
  match parts with
  | [] => ""
  | [part] => part
  | part :: rest => part +:+ sep +:+ join sep rest
  end.

(** The [user_content] that [_invoke_claude_with_context] sends. *)
Definition user_content (question : string) (contexts : list string)
    (conversation_history : option (list string)) : string :=
  let context_block := join (nl +:+ nl) (map (fun c => "- " +:+ c) contexts) in
  let prompt_sections := [] in
  let prompt_sections :=
    match conversation_history with
    | Some (h :: hs) =>
        prompt_sections ++
        ["Conversation so far:" +:+ nl +:+ join nl (h :: hs)]
    | _ => prompt_sections
    end in
  let prompt_sections :=
    if truthy (JStr context_block)
    then prompt_sections ++
         ["Relevant information from documentation:" +:+ nl +:+ context_block]
    else prompt_sections in
  let prompt_sections := prompt_sections ++ ["User question: " +:+ question] in
  join (nl +:+ nl) prompt_sections.

Section Query.
Context `{Runtime} `{ContentSource} `{Embedder} `{SearchClient}
        `{AnswerModel} `{Schema}.

Definition _invoke_claude_with_context (question : string)
    (contexts : list string) (conversation_history : option (list string))
  : res string :=
  text ← invoke_claude (user_content question contexts conversation_history);
  Ok (strip text).

Definition _retrieve_context (question : string) (top_k : Z) (idx : index)
  : res RAGSearchResult :=
  vecs ← embed_texts [question];
  query_vec ← index_list vecs 0;
  found ← search idx query_vec top_k None;
  validate_search_result (contexts found) (sources found) (guide_ids found).

(** The body of the [try] statement of [_collect_source_guides]. *)
Definition source_guide_entry (gid : json) (token : string)
  : res SourceGuide :=
  guide_data ← fetch_guide gid token;
  title ← py_get guide_data "title" (JStr ("Guide " +:+ py_str gid));
  url ← py_get guide_data "url" (JStr "");
  Ok {| sg_guide_id := gid; sg_title := title; sg_url := url |}.

(** The loop [for gid in guide_ids]: an exception is logged and the guide
    left out. *)
Fixpoint collect_loop (guide_ids : list json) (token : string)
    (acc : list SourceGuide) : list SourceGuide :=
  match guide_ids with
  | [] => acc
  | gid :: rest =>
      collect_loop rest token
        (match source_guide_entry gid token with
         | Ok entry => acc ++ [entry]
         | Raise _ => acc
         end)
  end.

Definition _collect_source_guides (guide_ids : list json)
    (token : option string) : list SourceGuide :=
  match guide_ids, token with
  | [], _ => []
  | _, None => []
  | _, Some t => if truthy (JStr t) then collect_loop guide_ids t [] else []
  end.

(** [rag_query_guide_ai], for the event data [question], [top_k] and
    [token]. *)
Definition rag_query_guide_ai (question : string) (top_k : Z)
    (token : option string) (idx : index) : res RAQQueryResult :=
  found ← _retrieve_context question top_k idx;
  let guides :=
    match rs_guide_ids found, token with
    | _ :: _, Some t =>
        if truthy (JStr t) then _collect_source_guides (rs_guide_ids found) token
        else []
    | _, _ => []
    end in
  text ← _invoke_claude_with_context question (rs_contexts found) None;
  Ok {| answer := text;
        result_sources := rs_sources found;
        num_contexts := Z.of_nat (length (rs_contexts found));
        source_guides := guides |}.

End Query.

(** *** The chat endpoint *)

Inductive Role : Type := User | Assistant | System.

Record ChatMessage := {
  msg_role : Role;
  msg_content : string
}.

(** A validated [ChatRequest]: [messages] has at least one element and
    [1 <= top_k <= 20]. *)
Record ChatRequest := {
  req_messages : list ChatMessage;
  req_top_k : Z;
  req_token : option string
}.

(** What the endpoint answers: the result, or the [HTTPException] it
    raises. *)
Inductive Response : Type :=
| Answered (r : RAQQueryResult)
| HTTPException (status_code : Z) (detail : string).

Definition is_user (msg : ChatMessage) : bool :=
  match msg_role msg with User => true | _ => false end.

(** [msg.role.capitalize()] *)
Definition capitalize_role (r : Role) : string :=
  match r with
  | User => "User"
  | Assistant => "Assistant"
  | System => "System"
  end.

(** The comprehension that builds [conversation_history]. *)
Definition conversation_history (messages : list ChatMessage)
  : list string :=
  map (fun msg => capitalize_role (msg_role msg) +:+ ": "
                  +:+ strip (msg_content msg))
    (List.filter
       (fun msg =>
          match msg_role msg with
          | User | Assistant => truthy (JStr (strip (msg_content msg)))
          | System => false
          end)
       (removelast messages)).

Definition chat_endpoint `{Runtime} `{ContentSource} `{Embedder}
    `{SearchClient} `{AnswerModel} `{Schema} (request : ChatRequest)
    (idx : index) : Response :=
  match List.find is_user (rev (req_messages request)) with
  | None => HTTPException 400 "At least one user message is required."
  | Some latest_user_message =>
      let question := strip (msg_content latest_user_message) in
      if negb (truthy (JStr question)) then
        HTTPException 400 "User message content cannot be empty."
      else
        let history := conversation_history (req_messages request) in
        match _retrieve_context question (req_top_k request) idx with
        | Raise _ => HTTPException 500 "Failed to search knowledge base."
        | Ok search_result =>
            match _invoke_claude_with_context question
                    (rs_contexts search_result)
                    (match history with [] => None | _ => Some history end)
            with
            | Raise _ => HTTPException 502 "Failed to generate an answer."
            | Ok text =>
                Answered
                  {| answer := text;
                     result_sources := rs_sources search_result;
                     num_contexts :=
                       Z.of_nat (length (rs_contexts search_result));
                     source_guides :=
                       _collect_source_guides (rs_guide_ids search_result)
                         (req_token request) |}
            end
        end
  end.

(** *** The allowed origins *)

(** [s.split(",")] on the characters of [s]. *)
Fixpoint split_comma (l : list ascii) : list (list ascii) :=
  match l with
  | [] => [[]]
  | c :: rest =>
      if Ascii.eqb c ","%char then [] :: split_comma rest
      else
        match split_comma rest with
        | [] => [[c]]
        | piece :: pieces => (c :: piece) :: pieces
        end
  end.

Definition split (s : string) : list string :=
  map string_of_list_ascii (split_comma (list_ascii_of_string s)).

(** [cors_origins], computed when the module is loaded from the value of
    the environment variable [CHAT_ALLOWED_ORIGINS], if it is set. *)
Definition cors_origins (env : option string) : list string :=
  let allowed_origins := default "*" env in
  if String.eqb (strip allowed_origins) "*"
     || negb (truthy (JStr (strip allowed_origins)))
  then ["*"]
  else
    map strip
      (List.filter (fun origin => truthy (JStr (strip origin)))
         (split allowed_origins)).

End Main.

Import Main.

(** ** The documents of the content source

    A guide document as the data model describes it: an object whose
    optional members, when present, have their declared JSON types.  Every
    member may be missing, and every list may be empty. *)

Module GuideDocument.

Definition opt_field (d : pydict) (k : string) (ok : json -> bool) : bool :=
  match assoc k d with
  | None => true
  | Some v => ok v
  end.

Definition is_str (v : json) : bool :=
  match v with JStr _ => true | _ => false end.

Definition list_of (ok : json -> bool) (v : json) : bool :=
  match v with JList l => forallb ok l | _ => false end.

Definition null_or_list (v : json) : bool :=
  match v with JNull | JList _ => true | _ => false end.

Definition wf_media (v : json) : bool :=
  match v with
  | JNull => true
  | JDict m => opt_field m "data" null_or_list
  | _ => false
  end.

Definition wf_step (v : json) : bool :=
  match v with
  | JDict s =>
      opt_field s "lines" (list_of isinstance_dict) &&
      opt_field s "media" wf_media
  | _ => false
  end.

Definition wf_guide (v : json) : bool :=
  match v with
  | JDict d =>
      opt_field d "introduction_rendered" is_str &&
      opt_field d "conclusion_rendered" is_str &&
      opt_field d "steps" (list_of wf_step) &&
      opt_field d "parts" (list_of isinstance_dict) &&
      opt_field d "tools" (list_of isinstance_dict)
  | _ => false
  end.

End GuideDocument.

Import GuideDocument.

(** ** The chunking rule in the words of the design

    What one section contributes: the pieces of its text, each with the
    section's image list, when the text is longer than 1000 characters; the
    section itself otherwise. *)

Module ChunkRule.

Definition section_chunks `{Splitter} (section : string) (images : list json)
  : list (string * list json) :=
  if exceeds_chunk_size section
  then map (fun part => (part, images)) (split_text section)
  else [(section, images)].

End ChunkRule.

Import ChunkRule.

(** ** Observations

    Notions used to state the properties: what the extraction takes from a
    media entry, the invariant of the retrieval loop, and what a run of the
    saga did, read off the host's log. *)

Module Observations.

(** The URL [extract_guide_images] takes from one entry of a media block. *)
Definition original_url (item : json) : option json :=
  match item with
  | JDict d =>
      let url := dict_get d "original" JNull in
      if truthy url then Some url else None
  | _ => None
  end.

(** The [source] and [guide_id] of the point are JSON scalars, the only
    values a Python set accepts. *)
Definition scalar_keys (r : ScoredPoint) : bool :=
  let payload := match sp_payload r with Some d => d | None => [] end in
  bool_decide (is_Some (py_hash_key (dict_get payload "source" (JStr "")))) &&
  bool_decide (is_Some (py_hash_key (dict_get payload "guide_id" JNull))).

(** Every element of the set is stored under its own key. *)
Definition set_ok (s : pyset) : Prop :=
  forall k v, s !! k = Some v -> py_hash_key v = Some k.

(** What every iteration of the loop in [search] maintains. *)
Definition acc_ok (a : SearchAcc) : Prop :=
  length (acc_contexts a) = length (acc_images_per_context a) /\
  length (acc_images_per_context a) = length (acc_guide_info a) /\
  set_ok (acc_sources a) /\ set_ok (acc_guide_ids a).

(** The indices for which the ingestion step was run, in order. *)
Fixpoint attempts (l : list event) : list Z :=
  match l with
  | [] => []
  | StepProcessGuide i _ :: rest => i :: attempts rest
  | _ :: rest => attempts rest
  end.

(** The indices at which the pause signal was polled, in order. *)
Fixpoint polls (l : list event) : list Z :=
  match l with
  | [] => []
  | StepPauseCheck i :: rest => i :: polls rest
  | _ :: rest => polls rest
  end.

(** The number of progress events carrying a percentage. *)
Fixpoint progress_events (l : list event) : Z :=
  match l with
  | [] => 0
  | SentProgress _ _ _ _ :: rest => 1 + progress_events rest
  | _ :: rest => progress_events rest
  end.

(** The summary at catalog index [i], when it is an object. *)
Definition summary_at (all_guides : list json) (i : Z) : option pydict :=
  match py_index all_guides i with
  | Ok (JDict summary) => Some summary
  | _ => None
  end.

(** The guide at index [i] has an id, so the loop does not skip it. *)
Definition has_id (all_guides : list json) (i : Z) : bool :=
  match summary_at all_guides i with
  | Some summary => truthy (dict_get summary "guideid" JNull)
  | None => false
  end.

(** The loop polls the pause signal at index [i]. *)
Definition polled (all_guides : list json) (i : Z) : bool :=
  has_id all_guides i && (0 <? i) && (i mod 5 =? 0).

(** The content source lists [catalog] under [token]: every page request
    is answered with the corresponding slice. *)
Definition serves_catalog `{ContentSource} (token : string)
    (catalog : list json) : Prop :=
  forall offset limit : nat,
    fetch_guide_list token (Z.of_nat offset) (Z.of_nat limit)
    = Ok (take limit (drop offset catalog)).

(** Every summary of the catalog is an object. *)
Definition summaries (catalog : list json) : Prop :=
  Forall (fun g => isinstance_dict g = true) catalog.

(** No pause signal is seen at the polls among [indices]. *)
Definition no_pause_seen `{Host} (all_guides : list json) (indices : list Z)
  : Prop :=
  Forall (fun j => polled all_guides j = true -> wait_for_pause j = false)
    indices.

(** An entry of [errors] written for a failed ingestion step. *)
Definition is_step_failure (rec : ErrorRec) : Prop :=
  exists msg, err_error rec = "Failed to process guide " +:+ msg.

(** The image URLs of one step: the ["original"] URLs of its media block
    when that block has type ["image"] and lists its entries. *)
Definition step_urls (step : json) : list json :=
  match step with
  | JDict s =>
      match dict_get s "media" JNull with
      | JDict m =>
          if eq_str (dict_get m "type" JNull) "image" then
            match dict_get m "data" JNull with
            | JList items => omap original_url items
            | _ => []
            end
          else []
      | _ => []
      end
  | _ => []
  end.

(** One section when the test holds, none otherwise. *)
Definition optional_section {A} (present : bool) (x : A) : list A :=
  if present then [x] else [].

(** The payload of a scored point, the empty dict if it has none. *)
Definition payload_of (r : ScoredPoint) : pydict :=
  match sp_payload r with Some d => d | None => [] end.

(** The point has a text, so the aggregation keeps it. *)
Definition has_text (r : ScoredPoint) : bool :=
  truthy (dict_get (payload_of r) "text" (JStr "")).

Definition point_text (r : ScoredPoint) : json :=
  dict_get (payload_of r) "text" (JStr "").

Definition point_source (r : ScoredPoint) : json :=
  dict_get (payload_of r) "source" (JStr "").

Definition point_guide_id (r : ScoredPoint) : json :=
  dict_get (payload_of r) "guide_id" JNull.

(** The set holds exactly the values of [xs], one for each key. *)
Definition set_holds (s : pyset) (xs : list json) : Prop :=
  (forall k v, s !! k = Some v -> v ∈ xs /\ py_hash_key v = Some k) /\
  (forall x, x ∈ xs -> exists k, py_hash_key x = Some k /\ is_Some (s !! k)).

(** The guide id and the source of a stored point. *)
Definition rec_guide_id (p : PointRecord) : json :=
  dict_get (match rec_payload p with Some d => d | None => [] end)
    "guide_id" JNull.

Definition rec_source (p : PointRecord) : json :=
  dict_get (match rec_payload p with Some d => d | None => [] end)
    "source" JNull.

(** The point has an integer guide id or none. *)
Definition int_guide_id (p : PointRecord) : Prop :=
  rec_guide_id p = JNull \/ exists n, rec_guide_id p = JNum n.

(** Scrolling from [offset] returns the pages [pages], the last of them
    without a next offset. *)
Inductive scrolls_pages `{ScrollClient} (idx : index)
  : option string -> list (list PointRecord) -> Prop :=
| scrolls_last offset points :
    client_scroll idx offset = (points, None) ->
    scrolls_pages idx offset [points]
| scrolls_next offset points next pages :
    client_scroll idx offset = (points, Some next) ->
    scrolls_pages idx (Some next) pages ->
    scrolls_pages idx offset (points :: pages).

(** The integer key of an entry of [list_guides]. *)
Definition entry_key (e : GuideEntry) : Z :=
  match ge_guide_id e with JNum n => n | _ => 0 end.

(** The entry is taken from the first of [points] that has its guide
    id. *)
Definition first_seen (points : list PointRecord) (e : GuideEntry) : Prop :=
  exists before p after,
    points = before ++ p :: after /\
    rec_guide_id p = ge_guide_id e /\ rec_source p = ge_source e /\
    Forall (fun q => rec_guide_id q <> ge_guide_id e) before.

(** What the dict [guides] holds after the points [seen], when their guide
    ids are integers. *)
Definition guides_ok (guides : guide_dict) (seen : list PointRecord) : Prop :=
  NoDup (map fst guides) /\
  (forall k e, (k, e) ∈ guides ->
     exists n, k = HNum n /\ ge_guide_id e = JNum n /\ first_seen seen e) /\
  (forall p n, p ∈ seen -> rec_guide_id p = JNum n ->
     HNum n ∈ map fst guides).

(** From [st] to [st'] every new attempt was counted once, as processed or
    as failed; the counters did not decrease and no point was removed. *)
Definition accounted (st st' : LoopState) : Prop :=
  processed st' + Z.of_nat (length (errors st'))
    - Z.of_nat (length (attempts (log st')))
  = processed st + Z.of_nat (length (errors st))
    - Z.of_nat (length (attempts (log st))) /\
  processed st <= processed st' /\
  total_chunks st <= total_chunks st' /\
  dom (store st) ⊆ dom (store st').

(** The message [chat_endpoint] takes the question from: the last message
    of the conversation whose role is ["user"]. *)
Definition latest_user_message (messages : list ChatMessage)
  : option ChatMessage :=
  last (List.filter is_user messages).

(** The content source answers the request for guide [gid] with an
    object. *)
Definition fetches_object `{ContentSource} (token : string) (gid : json)
  : bool :=
  match fetch_guide gid token with
  | Ok (JDict _) => true
  | _ => false
  end.

(** A text without leading white space. *)
Definition starts_clean (l : list ascii) : Prop :=
  match l with
  | [] => True
  | c :: _ => isspace c = false
  end.

(** A lower-case hexadecimal digit. *)
Definition is_lower_hex (c : ascii) : bool :=
  let n := nat_of_ascii c in
  ((48 <=? n)%nat && (n <=? 57)%nat) || ((97 <=? n)%nat && (n <=? 102)%nat).

(** The form [str(uuid)] gives: 36 characters, hyphens at the positions 8,
    13, 18 and 23, lower-case hexadecimal digits elsewhere.  These are ids
    the service takes, and two of them name the same point only when they
    are the same string. *)
Definition canonical_uuid (s : string) : bool :=
  let l := list_ascii_of_string s in
  (length l =? 36)%nat &&
  forallb (fun ic : nat * ascii =>
             if bool_decide (fst ic ∈ [8; 13; 18; 23]%nat)
             then Ascii.eqb (snd ic) "-"%char
             else is_lower_hex (snd ic))
    (combine (seq 0 36) l).

Section Failures.
Context `{Runtime} `{Splitter} `{ContentSource} `{Embedder}.

(** The exception the ingestion step raises for the guide at index [i], if
    it raises one.  The step is run here against the empty index: whether
    it raises, and what, does not depend on the points already stored. *)
Definition step_failure (token site_id : string) (all_guides : list json)
    (i : Z) : option exn :=
  match summary_at all_guides i with
  | Some summary =>
      let guide_id := dict_get summary "guideid" JNull in
      if truthy guide_id then
        match process_single_guide guide_id token site_id ∅ with
        | Ok _ => None
        | Raise e => Some e
        end
      else None
  | None => None
  end.

(** The entry of [errors] the saga writes for the guide at index [i] when
    its ingestion step raises. *)
Definition failure_at (token site_id : string) (all_guides : list json)
    (i : Z) : option ErrorRec :=
  match summary_at all_guides i, step_failure token site_id all_guides i with
  | Some summary, Some e =>
      let guide_id := dict_get summary "guideid" JNull in
      Some {| err_guide_id := guide_id;
              err_title :=
                dict_get summary "title"
                  (JStr ("Guide " +:+ py_str guide_id));
              err_error := str_exn e |}
  | _, _ => None
  end.

End Failures.

End Observations.

Import Observations.

(** ** Sample collaborators

    Small instances of the interfaces, used to run the embedding on
    concrete inputs. *)

Module Samples.

Definition runtime : Runtime :=
  {| repr_container := fun _ => "[...]"; uuid5_url := fun name => name |}.

(** A splitter whose budget the text never exceeds: the stripped text comes
    back as one piece, and a blank text yields no piece. *)
Definition whole_text_splitter : Splitter :=
  {| split_text := fun s =>
       match strip s with
       | EmptyString => []
       | t => [t]
       end |}.

Definition image_item : json :=
  JDict [("standard", JStr "https://cdn.example/1.standard");
         ("original", JStr "https://cdn.example/1.original?sig=abc")].

Definition step1 : json :=
  JDict [("orderby", JNum 1); ("title", JStr "Remove the cover");
         ("lines", JList [JDict [("text_rendered", JStr "Unscrew it.")]]);
         ("media", JDict [("type", JStr "image");
                          ("data", JList [image_item])])].

Definition guide : json :=
  JDict [("title", JStr "Saw"); ("category", JStr "Tools");
         ("introduction_rendered", JStr "Read first.");
         ("steps", JList [step1]);
         ("url", JStr "https://hansaw.dozuki.com/Guide/Saw/1")].

(** A content source that serves [guide] under every id and a catalog in
    pages. *)
Definition source (catalog : list json) : ContentSource :=
  {| fetch_guide := fun _ _ => Ok guide;
     fetch_guide_list := fun _ offset limit =>
       Ok (take (Z.to_nat limit) (drop (Z.to_nat offset) catalog)) |}.


Definition embedder : Embedder :=
  {| invoke_model := fun _ => Ok [] |}.

(** A host on which the pause signal is seen at the polls listed. *)
Definition host (seen : list Z) : Host :=
  {| wait_for_pause := fun i => bool_decide (i ∈ seen) |}.

(** A catalog of [n] guide summaries with the ids [1 .. n]. *)
Definition catalog (n : nat) : list json :=
  map (fun k => JDict [("guideid", JNum (Z.of_nat (S k)));
                       ("title", JStr "Guide")])
    (seq 0 n).


(** A catalog whose second entry has no id. *)
Definition catalog_missing_id : list json :=
  [JDict [("guideid", JNum 1); ("title", JStr "Guide")];
   JDict [("title", JStr "Draft")];
   JDict [("guideid", JNum 3); ("title", JStr "Guide")]].

(** A text of 1001 characters. *)
Definition long_section : string :=
  string_of_list_ascii (repeat "a"%char 1001).

(** A guide whose introduction is [long_section], served under every id. *)
Definition long_guide : json :=
  JDict [("title", JStr "Saw"); ("introduction_rendered", JStr long_section)].

Definition long_source : ContentSource :=
  {| fetch_guide := fun _ _ => Ok long_guide;
     fetch_guide_list := fun _ _ _ => Ok [] |}.

(** An answer provider with a fixed, padded answer. *)
Definition answer_model : AnswerModel :=
  {| invoke_claude := fun _ => Ok "  It is a saw. " |}.

(** A validation that accepts string contexts and sources. *)
Definition as_strings (l : list json) : res (list string) :=
  list_comp (fun i => match nth i l JNull with
                      | JStr x => Ok x
                      | _ => Raise (Exception "validation error")
                      end)
    (range (length l)).

Definition schema : Schema :=
  {| validate_search_result := fun cs ss gs =>
       c ← as_strings cs;
       s ← as_strings ss;
       Ok {| rs_contexts := c; rs_sources := s; rs_guide_ids := gs |} |}.

(** A search client that returns the same points for every query. *)
Definition search_client (results : list ScoredPoint) : SearchClient :=
  {| client_search := fun _ _ _ _ => results |}.

(** A scroll client that serves the given pages; the offset of page [k] is
    its number in decimal. *)
Definition scroll_client (pages : list (list PointRecord)) : ScrollClient :=
  {| client_scroll := fun _ offset =>
       let k :=
         match offset with
         | None => O
         | Some o =>
             match list_find (fun j : nat => pretty j = o)
                     (seq 0 (length pages)) with
             | Some (i, _) => i
             | None => length pages
             end
         end in
       (nth k pages [],
        if (S k <? length pages)%nat then Some (pretty (S k)) else None) |}.

Definition point (guide_id : Z) (source : string) : PointRecord :=
  {| rec_id := source;
     rec_payload := Some [("guide_id", JNum guide_id);
                          ("source", JStr source)] |}.

End Samples.

(** * Properties *)

(** ** The error monad *)

Lemma bind_Ok {A B} (f : A -> res B) (a : A) : (Ok a ≫= f) = f a.
Proof. reflexivity. Qed.

Lemma bind_Raise {A B} (f : A -> res B) (e : exn) : (Raise e ≫= f) = Raise e.
Proof. reflexivity. Qed.

(** Runs the accessor calls whose receiver is known. *)
Ltac run_res :=
  repeat first
    [ rewrite bind_Ok
    | rewrite bind_Raise
    | progress cbn [py_get py_iter py_strip] ].

Ltac run_res_in H :=
  repeat first
    [ rewrite bind_Ok in H
    | rewrite bind_Raise in H
    | progress cbn [py_get py_iter py_strip] in H ].

Lemma opt_field_get (d : pydict) (k : string) (ok : json -> bool)
    (default : json) :
  opt_field d k ok = true -> ok default = true ->
  ok (dict_get d k default) = true.
Proof.
  unfold opt_field, dict_get. destruct (assoc k d); auto.
Qed.

(** ** The embedding on sample inputs *)

Example sample_guide_sections :
  @extract_guide_text Samples.runtime Samples.guide
  = Ok ["Guide: Saw" +:+ nl +:+ "Category: Tools" +:+ nl +:+ "Difficulty: "
        +:+ nl +:+ "Summary: ";
        "Introduction:" +:+ nl +:+ "Read first.";
        "Step 1: Remove the cover" +:+ nl +:+ "- Unscrew it." +:+ nl].
Proof. reflexivity. Qed.

(** A document without any member is a guide document, with the header as
    its only section. *)
Example empty_guide_document :
  wf_guide (JDict []) = true /\
  @extract_guide_text Samples.runtime (JDict [])
  = Ok ["Guide: " +:+ nl +:+ "Category: " +:+ nl +:+ "Difficulty: " +:+ nl
        +:+ "Summary: "] /\
  extract_guide_images (JDict []) = Ok [[]].
Proof. repeat split. Qed.

(** A null introduction has no [strip] method. *)
Example null_introduction_raises :
  @extract_guide_text Samples.runtime
    (JDict [("introduction_rendered", JNull)])
  = Raise AttributeError.
Proof. reflexivity. Qed.

(** Seven guides on a single page are all processed. *)
Example seven_guides_completed :
  option_map fst
    (@rag_ingest_site Samples.runtime Samples.whole_text_splitter
       (Samples.source (Samples.catalog 7)) Samples.embedder
       (Samples.host []) 2 "token" None None ∅)
  = Some (Completed 7 0 21 []).
Proof. vm_compute. reflexivity. Qed.

(** Of three scored points, the one without text contributes nothing. *)
Example three_points_two_contexts :
  option_map (fun r => (contexts r, sources r, guide_ids r))
    (match @search_aggregate Samples.runtime
             [{| sp_id := "a";
                 sp_payload := Some [("text", JStr "x");
                                     ("source", JStr "s");
                                     ("guide_id", JNum 7)] |};
              {| sp_id := "b";
                 sp_payload := Some [("text", JStr "");
                                     ("source", JStr "t")] |};
              {| sp_id := "c";
                 sp_payload := Some [("text", JStr "y");
                                     ("source", JStr "s");
                                     ("guide_id", JNum 7)] |}] with
     | Ok r => Some r
     | Raise _ => None
     end)
  = Some ([JStr "x"; JStr "y"], [JStr "s"], [JNum 7]).
Proof. vm_compute. reflexivity. Qed.

(** ** Chunk alignment (data_loader.py) *)

Section ChunkingFacts.
Context `{Runtime} `{Splitter} `{ContentSource}.

Lemma parts_loop_lengths parts images acc :
  length (fst acc) = length (snd acc) ->
  length (fst (parts_loop parts images acc))
  = length (snd (parts_loop parts images acc)).
Proof.
  revert acc. induction parts as [|part rest IH]; intros acc Hacc; [exact Hacc|].
  simpl. apply IH. simpl. rewrite !length_app. simpl. lia.
Qed.

Lemma media_chunk_loop_lengths text_sections idx image_sections acc :
  length (fst acc) = length (snd acc) ->
  length (fst (media_chunk_loop idx text_sections image_sections acc))
  = length (snd (media_chunk_loop idx text_sections image_sections acc)).
Proof.
  revert idx acc.
  induction text_sections as [|section rest IH]; intros idx acc Hacc;
    [exact Hacc|].
  simpl. apply IH. destruct (exceeds_chunk_size section).
  - now apply parts_loop_lengths.
  - simpl. rewrite !length_app. simpl. lia.
Qed.

Lemma step_lines_loop_total lines step_text :
  forallb isinstance_dict lines = true ->
  exists t, step_lines_loop lines step_text = Ok t.
Proof.
  revert step_text. induction lines as [|line rest IH]; intros step_text Hl.
  - simpl. eauto.
  - simpl in Hl. apply andb_prop in Hl as [Hd Hrest].
    destruct line; try discriminate. simpl. apply IH. exact Hrest.
Qed.

Lemma steps_text_loop_total steps text_chunks :
  forallb wf_step steps = true ->
  exists ts, steps_text_loop steps text_chunks = Ok ts.
Proof.
  revert text_chunks. induction steps as [|step rest IH]; intros acc Hs.
  - simpl. eauto.
  - simpl in Hs. apply andb_prop in Hs as [Hstep Hrest].
    destruct step as [| | | | |s]; try discriminate.
    simpl in Hstep. apply andb_prop in Hstep as [Hlines _].
    pose proof (opt_field_get s "lines" _ (JList []) Hlines eq_refl) as Hl.
    cbn [steps_text_loop py_get]. rewrite !bind_Ok.
    destruct (dict_get s "lines" (JList [])) as [| | | |lines|]; try discriminate.
    simpl in Hl. cbn [py_iter]. rewrite bind_Ok.
    destruct (step_lines_loop_total lines
      ("Step " +:+ py_str (dict_get s "orderby" (JStr "")) +:+ ": "
       +:+ py_str (dict_get s "title" (JStr "")) +:+ nl) Hl) as [t Ht].
    rewrite Ht, bind_Ok. apply IH. exact Hrest.
Qed.

Lemma bullet_loop_total items text :
  forallb isinstance_dict items = true ->
  exists t, bullet_loop items text = Ok t.
Proof.
  revert text. induction items as [|item rest IH]; intros text Hi.
  - simpl. eauto.
  - simpl in Hi. apply andb_prop in Hi as [Hd Hrest].
    destruct item; try discriminate. simpl. apply IH. exact Hrest.
Qed.

Lemma bullet_section_total title items text_chunks :
  list_of isinstance_dict items = true ->
  exists ts, bullet_section title items text_chunks = Ok ts.
Proof.
  intros Hi. destruct items as [| | | |l|]; try discriminate.
  unfold bullet_section. destruct (truthy (JList l)); [|eauto].
  cbn [py_iter]. rewrite bind_Ok.
  destruct (bullet_loop_total l (title +:+ nl) Hi) as [t Ht].
  rewrite Ht, bind_Ok. eauto.
Qed.

Lemma extract_guide_text_total doc :
  wf_guide doc = true -> exists ts, extract_guide_text doc = Ok ts.
Proof.
  destruct doc as [| | | | |d]; try discriminate.
  intros Hwf. simpl in Hwf.
  repeat (apply andb_prop in Hwf as [Hwf ?]).
  unfold extract_guide_text. run_res.
  pose proof (opt_field_get d "introduction_rendered" _ (JStr "") Hwf eq_refl)
    as Hintro.
  destruct (dict_get d "introduction_rendered" (JStr "")) as [| | |intro| |];
    try discriminate.
  run_res.
  pose proof (opt_field_get d "steps" _ (JList []) H4 eq_refl) as Hsteps.
  destruct (dict_get d "steps" (JList [])) as [| | | |steps|]; try discriminate.
  run_res. simpl in Hsteps.
  match goal with
  | |- exists ts, (steps_text_loop steps ?acc ≫= _) = _ =>
      destruct (steps_text_loop_total steps acc Hsteps) as [ts Hts]
  end.
  rewrite Hts. run_res.
  pose proof (opt_field_get d "conclusion_rendered" _ (JStr "") H5 eq_refl)
    as Hconc.
  destruct (dict_get d "conclusion_rendered" (JStr "")) as [| | |conc| |];
    try discriminate.
  run_res.
  pose proof (opt_field_get d "parts" _ (JList []) H3 eq_refl) as Hparts.
  pose proof (opt_field_get d "tools" _ (JList []) H2 eq_refl) as Htools.
  match goal with
  | |- exists ts, (bullet_section ?t ?i ?acc ≫= _) = _ =>
      destruct (bullet_section_total t i acc Hparts) as [ts' Hts']
  end.
  rewrite Hts'. run_res.
  now apply bullet_section_total.
Qed.

Lemma steps_images_loop_total steps sections_images :
  forallb wf_step steps = true ->
  exists r, steps_images_loop steps sections_images = Ok r.
Proof.
  revert sections_images. induction steps as [|step rest IH]; intros acc Hs.
  - simpl. eauto.
  - simpl in Hs. apply andb_prop in Hs as [Hstep Hrest].
    destruct step as [| | | | |s]; try discriminate.
    simpl in Hstep. apply andb_prop in Hstep as [_ Hmedia].
    pose proof (opt_field_get s "media" _ JNull Hmedia eq_refl) as Hm.
    cbn [steps_images_loop]. run_res.
    destruct (dict_get s "media" JNull) as [| | | | |m]; try discriminate;
      [cbn; apply IH, Hrest|].
    unfold py_or at 1. destruct (truthy (JDict m)).
    + destruct (eq_str (dict_get m "type" JNull) "image").
      * simpl in Hm.
        pose proof (opt_field_get m "data" _ JNull Hm eq_refl) as Hd.
        destruct (dict_get m "data" JNull) as [| | | |items|];
          try discriminate; unfold py_or; cbn [truthy].
        -- run_res. apply IH, Hrest.
        -- destruct items; run_res; apply IH, Hrest.
      * run_res. apply IH, Hrest.
    + cbn. apply IH, Hrest.
Qed.

Lemma extract_guide_images_total doc :
  wf_guide doc = true -> exists r, extract_guide_images doc = Ok r.
Proof.
  destruct doc as [| | | | |d]; try discriminate.
  intros Hwf. simpl in Hwf.
  repeat (apply andb_prop in Hwf as [Hwf ?]).
  unfold extract_guide_images. run_res.
  pose proof (opt_field_get d "introduction_rendered" _ (JStr "") Hwf eq_refl)
    as Hintro.
  destruct (dict_get d "introduction_rendered" (JStr "")) as [| | |intro| |];
    try discriminate.
  run_res.
  pose proof (opt_field_get d "steps" _ (JList []) H4 eq_refl) as Hsteps.
  destruct (dict_get d "steps" (JList [])) as [| | | |steps|]; try discriminate.
  run_res. simpl in Hsteps.
  match goal with
  | |- exists r, (steps_images_loop steps ?acc ≫= _) = _ =>
      destruct (steps_images_loop_total steps acc Hsteps) as [r Hr]
  end.
  rewrite Hr. run_res.
  pose proof (opt_field_get d "conclusion_rendered" _ (JStr "") H5 eq_refl)
    as Hconc.
  destruct (dict_get d "conclusion_rendered" (JStr "")) as [| | |conc| |];
    try discriminate.
  run_res. eauto.
Qed.

Lemma copy_images_eq images : copy_images images = images.
Proof. destruct images; reflexivity. Qed.

Lemma parts_loop_zip parts images acc :
  length (fst acc) = length (snd acc) ->
  zip (fst (parts_loop parts images acc)) (snd (parts_loop parts images acc))
  = zip (fst acc) (snd acc) ++ map (fun part => (part, images)) parts.
Proof.
  revert acc. induction parts as [|part rest IH]; intros acc Hacc.
  - simpl. now rewrite app_nil_r.
  - cbn [parts_loop]. rewrite IH.
    + cbn [fst snd map]. rewrite copy_images_eq.
      rewrite zip_with_app by exact Hacc.
      simpl. now rewrite <- app_assoc.
    + cbn [fst snd]. rewrite !length_app. simpl. lia.
Qed.

Lemma media_chunk_loop_zip text_sections :
  forall idx image_sections acc,
  length (fst acc) = length (snd acc) ->
  (idx + length text_sections <= length image_sections)%nat ->
  let r := media_chunk_loop idx text_sections image_sections acc in
  zip (fst r) (snd r)
  = zip (fst acc) (snd acc)
    ++ concat (zip_with section_chunks text_sections
                 (drop idx image_sections)).
Proof.
  induction text_sections as [|section rest IH];
    intros idx image_sections acc Hacc Hlen; cbn zeta.
  - simpl. now rewrite app_nil_r.
  - simpl in Hlen. cbn [media_chunk_loop].
    destruct (lookup_lt_is_Some_2 image_sections idx ltac:(lia))
      as [images Himages].
    rewrite (drop_S _ _ _ Himages).
    assert (Hnth : (if (idx <? length image_sections)%nat
                    then nth idx image_sections [] else []) = images).
    { destruct (Nat.ltb_spec idx (length image_sections)); [|lia].
      now apply nth_lookup_Some. }
    rewrite Hnth. cbn [zip_with concat]. rewrite app_assoc.
    unfold section_chunks.
    destruct (exceeds_chunk_size section).
    + rewrite (IH (S idx)).
      * now rewrite parts_loop_zip.
      * now apply parts_loop_lengths.
      * lia.
    + rewrite (IH (S idx)).
      * cbn [fst snd]. rewrite copy_images_eq.
        now rewrite zip_with_app by exact Hacc.
      * cbn [fst snd]. rewrite !length_app. simpl. lia.
      * lia.
Qed.

Lemma lstrip_chars_keeps l c :
  In c l -> isspace c = false -> lstrip_chars l <> [].
Proof.
  induction l as [|a l IH]; intros Hin Hc; [destruct Hin|].
  simpl. destruct (isspace a) eqn:Ha; [|discriminate].
  destruct Hin as [->|Hin]; [congruence | now apply IH].
Qed.

Lemma strip_nonblank c s : isspace c = false -> strip (String c s) <> "".
Proof.
  intros Hc. unfold strip. cbn [list_ascii_of_string lstrip_chars].
  rewrite Hc.
  pose proof (lstrip_chars_keeps (rev (c :: list_ascii_of_string s)) c) as Hk.
  destruct (lstrip_chars (rev (c :: list_ascii_of_string s))) as [|a l] eqn:E.
  - exfalso. apply Hk; [apply in_rev; rewrite rev_involutive; now left
                       | exact Hc | reflexivity].
  - destruct (rev (a :: l)) as [|b l'] eqn:Er; [|discriminate].
    apply (f_equal (@length ascii)) in Er. rewrite length_rev in Er.
    discriminate.
Qed.

Lemma step_lines_loop_prefix lines c s t :
  step_lines_loop lines (String c s) = Ok t -> exists s', t = String c s'.
Proof.
  revert s. induction lines as [|line rest IH]; intros s Ht.
  - simpl in Ht. injection Ht as <-. eauto.
  - cbn [step_lines_loop] in Ht.
    destruct (py_get line "text_rendered" (JStr "")) as [v|e];
      [rewrite bind_Ok in Ht | discriminate].
    destruct (truthy v); eapply IH; exact Ht.
Qed.

Lemma steps_text_loop_length steps text_chunks r :
  steps_text_loop steps text_chunks = Ok r ->
  length r = (length text_chunks + length steps)%nat.
Proof.
  revert text_chunks. induction steps as [|step rest IH]; intros acc Hr.
  - simpl in Hr. injection Hr as <-. simpl. lia.
  - cbn [steps_text_loop] in Hr.
    destruct step as [| | | | |st]; try discriminate.
    run_res_in Hr.
    destruct (py_iter (dict_get st "lines" (JList []))) as [lines|e];
      [rewrite bind_Ok in Hr | discriminate].
    match type of Hr with
    | (step_lines_loop lines ?t0 ≫= _) = _ =>
        destruct (step_lines_loop lines t0) as [t|e] eqn:Ht;
          [rewrite bind_Ok in Hr | discriminate]
    end.
    apply step_lines_loop_prefix in Ht as [s' ->].
    assert (Hn : truthy (JStr (strip (String "S" s'))) = true).
    { cbn [truthy]. pose proof (strip_nonblank "S" s' eq_refl) as Hne.
      destruct (String.eqb_spec (strip (String "S" s')) "");
        [congruence | reflexivity]. }
    rewrite Hn in Hr. apply IH in Hr. rewrite Hr, length_app. simpl. lia.
Qed.

Lemma steps_images_loop_length steps sections_images r :
  steps_images_loop steps sections_images = Ok r ->
  length r = (length sections_images + length steps)%nat.
Proof.
  revert sections_images. induction steps as [|step rest IH]; intros acc Hr.
  - simpl in Hr. injection Hr as <-. simpl. lia.
  - cbn [steps_images_loop] in Hr.
    destruct (py_get step "media" JNull) as [m|e];
      [rewrite bind_Ok in Hr | discriminate].
    match type of Hr with
    | (?c ≫= _) = _ =>
        destruct c as [imgs|e]; [rewrite bind_Ok in Hr | discriminate]
    end.
    apply IH in Hr. rewrite Hr, length_app. simpl. lia.
Qed.

Lemma bullet_section_length title items text_chunks r :
  bullet_section title items text_chunks = Ok r ->
  length r = length (if truthy items then text_chunks ++ [title]
                     else text_chunks).
Proof.
  unfold bullet_section. destruct (truthy items); [|now intros [= <-]].
  destruct (py_iter items) as [l|e]; [rewrite bind_Ok | discriminate].
  destruct (bullet_loop l (title +:+ nl)) as [t|e];
    [rewrite bind_Ok | discriminate].
  intros [= <-]. now rewrite !length_app.
Qed.

(** The two extraction paths produce index-aligned section lists. *)
Lemma sections_aligned doc ts imgs :
  extract_guide_text doc = Ok ts ->
  extract_guide_images doc = Ok imgs ->
  length ts = length imgs.
Proof.
  destruct doc as [| | | | |d]; try discriminate.
  unfold extract_guide_text, extract_guide_images. intros Ht Hi.
  run_res_in Ht. run_res_in Hi.
  destruct (py_strip (dict_get d "introduction_rendered" (JStr "")))
    as [intro|e]; [|discriminate].
  run_res_in Ht. run_res_in Hi.
  destruct (py_iter (dict_get d "steps" (JList []))) as [steps|e];
    [|discriminate].
  run_res_in Ht. run_res_in Hi.
  match type of Ht with
  | (steps_text_loop steps ?a ≫= _) = _ =>
      destruct (steps_text_loop steps a) as [ts1|e] eqn:Hts1; [|discriminate]
  end.
  match type of Hi with
  | (steps_images_loop steps ?a ≫= _) = _ =>
      destruct (steps_images_loop steps a) as [is1|e] eqn:His1; [|discriminate]
  end.
  run_res_in Ht. run_res_in Hi.
  apply steps_text_loop_length in Hts1.
  apply steps_images_loop_length in His1.
  destruct (py_strip (dict_get d "conclusion_rendered" (JStr "")))
    as [conc|e]; [|discriminate].
  run_res_in Ht. run_res_in Hi.
  match type of Ht with
  | (bullet_section ?t ?i ?a ≫= _) = _ =>
      destruct (bullet_section t i a) as [ts2|e] eqn:Hts2; [|discriminate]
  end.
  run_res_in Ht.
  apply bullet_section_length in Hts2.
  apply bullet_section_length in Ht.
  injection Hi as <-.
  rewrite Ht. clear Ht.
  cbn [truthy] in *.
  destruct (negb (String.eqb intro "")), (negb (String.eqb conc "")),
    (truthy (dict_get d "parts" (JList []))),
    (truthy (dict_get d "tools" (JList [])));
    repeat rewrite ?length_app in *; simpl in *; lia.
Qed.

(** C1.  Whenever [load_and_chunk_guide_with_media] returns, the chunk list
    and the per-chunk image list have the same length; and it returns for
    every guide document the content source delivers, whichever optional
    parts are missing or empty: it raises only when the fetch itself fails
    or the fetched value is not a guide document. *)
Theorem chunks_and_images_same_length guide_id token :
  match load_and_chunk_guide_with_media guide_id token with
  | Ok (chunks, chunk_images, _) => length chunks = length chunk_images
  | Raise e =>
      fetch_guide guide_id token = Raise e \/
      exists doc, fetch_guide guide_id token = Ok doc /\ wf_guide doc = false
  end.
Proof.
  unfold load_and_chunk_guide_with_media.
  destruct (fetch_guide guide_id token) as [doc|e]; [|left; reflexivity].
  run_res. destruct (wf_guide doc) eqn:Hwf.
  - destruct (extract_guide_text_total doc Hwf) as [ts ->].
    destruct (extract_guide_images_total doc Hwf) as [imgs ->].
    run_res.
    match goal with
    | |- context [media_chunk_loop ?i ?t ?s ?a] =>
        pose proof (media_chunk_loop_lengths t i s a eq_refl) as Hlen;
        destruct (media_chunk_loop i t s a) as [chunks chunk_images]
    end.
    exact Hlen.
  - destruct (extract_guide_text doc) as [ts|e]; run_res; [|eauto].
    destruct (extract_guide_images doc) as [imgs|e]; run_res; [|eauto].
    match goal with
    | |- context [media_chunk_loop ?i ?t ?s ?a] =>
        pose proof (media_chunk_loop_lengths t i s a eq_refl) as Hlen;
        destruct (media_chunk_loop i t s a) as [chunks chunk_images]
    end.
    exact Hlen.
Qed.

(** C8, as amended.  The chunks of a guide and their image lists are, section
    by section, what [section_chunks] prescribes: a section longer than 1000
    characters contributes the pieces the splitter returns for it, however
    many, each paired with the image list of the section; a section of at
    most 1000 characters contributes itself, once, with its image list.  No
    section is left out, since the text sections and the image sections are
    equally many. *)
Theorem sub_chunks_carry_section_images guide_id token doc ts imgs :
  fetch_guide guide_id token = Ok doc ->
  extract_guide_text doc = Ok ts ->
  extract_guide_images doc = Ok imgs ->
  length ts = length imgs /\
  exists chunks chunk_images meta,
    load_and_chunk_guide_with_media guide_id token
    = Ok (chunks, chunk_images, meta) /\
    length chunks = length chunk_images /\
    zip chunks chunk_images = concat (zip_with section_chunks ts imgs).
Proof.
  intros Hf Ht Hi. pose proof (sections_aligned doc ts imgs Ht Hi) as Hal.
  split; [exact Hal|].
  unfold load_and_chunk_guide_with_media. rewrite Hf, bind_Ok, Ht, bind_Ok.
  rewrite Hi, bind_Ok. rewrite <- Hal, Nat.min_id.
  rewrite (take_ge ts) by lia. rewrite (take_ge imgs) by lia.
  pose proof (media_chunk_loop_lengths ts 0%nat imgs ([], []) eq_refl) as Hlen.
  pose proof (media_chunk_loop_zip ts 0%nat imgs ([], []) eq_refl) as Hzip.
  cbn zeta in Hzip. specialize (Hzip ltac:(simpl; lia)).
  destruct (media_chunk_loop 0 ts imgs ([], [])) as [chunks chunk_images].
  eexists _, _, _. split; [reflexivity|]. split; [exact Hlen|].
  exact Hzip.
Qed.

End ChunkingFacts.

(** C8, witness: the sample guide, whose sections are all short. *)
Lemma sub_chunks_carry_section_images_witness :
  exists chunks chunk_images meta,
    @load_and_chunk_guide_with_media Samples.runtime
      Samples.whole_text_splitter (Samples.source []) (JNum 1) "token"
    = Ok (chunks, chunk_images, meta) /\
    length chunks = length chunk_images /\
    zip chunks chunk_images
    = concat (zip_with (@section_chunks Samples.whole_text_splitter)
        ["Guide: Saw" +:+ nl +:+ "Category: Tools" +:+ nl +:+ "Difficulty: "
         +:+ nl +:+ "Summary: ";
         "Introduction:" +:+ nl +:+ "Read first.";
         "Step 1: Remove the cover" +:+ nl +:+ "- Unscrew it." +:+ nl]
        [[]; []; [JStr "https://cdn.example/1.original?sig=abc"]]).
Proof.
  apply (@sub_chunks_carry_section_images Samples.runtime
           Samples.whole_text_splitter (Samples.source []) (JNum 1) "token"
           Samples.guide); reflexivity.
Defined.

(** C8, counterexample.  With a splitter that returns a text within its
    budget as one piece, the introduction of [long_guide] is a section of
    1015 characters and still becomes exactly one chunk: the guide has two
    sections and two chunks. *)
Lemma long_section_one_chunk :
  @extract_guide_text Samples.runtime Samples.long_guide
  = Ok ["Guide: Saw" +:+ nl +:+ "Category: " +:+ nl +:+ "Difficulty: "
        +:+ nl +:+ "Summary: ";
        "Introduction:" +:+ nl +:+ Samples.long_section] /\
  String.length ("Introduction:" +:+ nl +:+ Samples.long_section) = 1015%nat /\
  @load_and_chunk_guide_with_media Samples.runtime
    Samples.whole_text_splitter Samples.long_source (JNum 1) "token"
  = Ok (["Guide: Saw" +:+ nl +:+ "Category: " +:+ nl +:+ "Difficulty: "
         +:+ nl +:+ "Summary: ";
         "Introduction:" +:+ nl +:+ Samples.long_section],
        [[]; []],
        {| guide_title := Some "Saw"; guide_url := None |}).
Proof. repeat split; vm_compute; reflexivity. Qed.

(** ** Image extraction *)

Lemma media_items_loop_original items step_images :
  media_items_loop items step_images = step_images ++ omap original_url items.
Proof.
  revert step_images. induction items as [|item rest IH]; intros acc.
  - simpl. now rewrite app_nil_r.
  - cbn [media_items_loop]. rewrite IH.
    change (omap original_url (item :: rest))
      with (match original_url item with
            | Some url => url :: omap original_url rest
            | None => omap original_url rest
            end).
    destruct item as [| | | | |d]; try reflexivity.
    cbn [original_url]. destruct (truthy (dict_get d "original" JNull)).
    + now rewrite <- app_assoc.
    + reflexivity.
Qed.

(** C7.  The code reads the ["original"] member of every image entry and no
    other: an entry that carries both a fixed-size URL and a signed original
    URL contributes the original one. *)
Theorem step_images_are_original_urls :
  (forall items, media_items_loop items [] = omap original_url items) /\
  extract_guide_images Samples.guide
  = Ok [[]; []; [JStr "https://cdn.example/1.original?sig=abc"]].
Proof.
  split; [|reflexivity].
  intros items. now rewrite media_items_loop_original.
Qed.

(** ** The header section and the zero-chunk branch *)

Section HeaderFacts.
Context `{Runtime} `{Splitter} `{ContentSource} `{Embedder}.

Lemma steps_text_loop_extends steps text_chunks r :
  steps_text_loop steps text_chunks = Ok r ->
  exists more, r = text_chunks ++ more.
Proof.
  revert text_chunks. induction steps as [|step rest IH]; intros acc Hr.
  - simpl in Hr. injection Hr as <-. exists []. now rewrite app_nil_r.
  - cbn [steps_text_loop] in Hr.
    destruct (py_get step "title" (JStr "")) as [v1|e];
      [rewrite bind_Ok in Hr | discriminate].
    destruct (py_get step "lines" (JList [])) as [v2|e];
      [rewrite bind_Ok in Hr | discriminate].
    destruct (py_get step "orderby" (JStr "")) as [v3|e];
      [rewrite bind_Ok in Hr | discriminate].
    destruct (py_iter v2) as [lines|e];
      [rewrite bind_Ok in Hr | discriminate].
    match type of Hr with
    | (?c ≫= _) = _ =>
        destruct c as [t|e]; [rewrite bind_Ok in Hr | discriminate]
    end.
    apply IH in Hr as [more ->].
    destruct (truthy (JStr (strip t))).
    + exists ([t] ++ more). now rewrite app_assoc.
    + eauto.
Qed.

Lemma bullet_section_extends title items text_chunks r :
  bullet_section title items text_chunks = Ok r ->
  exists more, r = text_chunks ++ more.
Proof.
  unfold bullet_section. destruct (truthy items).
  - destruct (py_iter items) as [l|e]; [rewrite bind_Ok | discriminate].
    destruct (bullet_loop l (title +:+ nl)) as [t|e];
      [rewrite bind_Ok | discriminate].
    intros [= <-]. eauto.
  - intros [= <-]. exists []. now rewrite app_nil_r.
Qed.

Lemma extract_guide_text_header doc ts :
  extract_guide_text doc = Ok ts ->
  exists d rest,
    doc = JDict d /\
    ts = header_text (dict_get d "title" (JStr ""))
           (dict_get d "summary" (JStr ""))
           (dict_get d "difficulty" (JStr ""))
           (dict_get d "category" (JStr "")) :: rest.
Proof.
  destruct doc as [| | | | |d]; try discriminate.
  unfold extract_guide_text. intros Ht. run_res_in Ht.
  exists d.
  destruct (py_strip (dict_get d "introduction_rendered" (JStr "")))
    as [intro|e]; [|discriminate].
  run_res_in Ht.
  destruct (py_iter (dict_get d "steps" (JList []))) as [steps|e];
    [|discriminate].
  run_res_in Ht.
  match type of Ht with
  | (steps_text_loop steps ?a ≫= _) = _ =>
      destruct (steps_text_loop steps a) as [ts1|e] eqn:Hts1; [|discriminate]
  end.
  run_res_in Ht.
  destruct (py_strip (dict_get d "conclusion_rendered" (JStr "")))
    as [conc|e]; [|discriminate].
  run_res_in Ht.
  match type of Ht with
  | (bullet_section ?t ?i ?a ≫= _) = _ =>
      destruct (bullet_section t i a) as [ts2|e] eqn:Hts2; [|discriminate]
  end.
  run_res_in Ht.
  apply steps_text_loop_extends in Hts1 as [m1 ->].
  apply bullet_section_extends in Hts2 as [m2 ->].
  apply bullet_section_extends in Ht as [m3 ->].
  destruct (truthy (JStr intro)), (truthy (JStr conc));
    cbn [app]; repeat rewrite <- app_assoc; cbn [app]; eauto.
Qed.

Lemma chunk_loop_extends text_sections chunks :
  exists more, chunk_loop text_sections chunks = chunks ++ more.
Proof.
  revert chunks. induction text_sections as [|section rest IH]; intros acc.
  - exists []. simpl. now rewrite app_nil_r.
  - cbn [chunk_loop]. destruct (exceeds_chunk_size section).
    + destruct (IH (acc ++ split_text section)) as [more ->].
      rewrite <- app_assoc. eauto.
    + destruct (IH (acc ++ [section])) as [more ->].
      rewrite <- app_assoc. eauto.
Qed.

Lemma header_text_nonblank title summary difficulty category :
  strip (header_text title summary difficulty category) <> "".
Proof. unfold header_text. cbn [String.append]. now apply strip_nonblank. Qed.

(** C9.  Provided the splitter returns at least one piece for a text that
    is not blank: the section list of every guide starts with the
    synthesized header, [load_and_chunk_guide] never returns an empty chunk
    list, and [process_single_guide] never returns through its zero-chunk
    branch, the only place where it reports 0 chunks. *)
Theorem header_keeps_chunks_nonempty
    (split_text_nonblank : forall s, strip s <> "" -> split_text s <> []) :
  (forall doc ts,
     extract_guide_text doc = Ok ts ->
     exists d rest,
       doc = JDict d /\
       ts = header_text (dict_get d "title" (JStr ""))
              (dict_get d "summary" (JStr ""))
              (dict_get d "difficulty" (JStr ""))
              (dict_get d "category" (JStr "")) :: rest) /\
  (forall guide_id token, load_and_chunk_guide guide_id token <> Ok []) /\
  (forall guide_id token site_id idx idx',
     process_single_guide guide_id token site_id idx <> Ok (0, idx')).
Proof.
  assert (Hload : forall guide_id token,
            load_and_chunk_guide guide_id token <> Ok []).
  { intros guide_id token. unfold load_and_chunk_guide.
    destruct (fetch_guide guide_id token) as [doc|e]; [|discriminate].
    rewrite bind_Ok.
    destruct (extract_guide_text doc) as [ts|e] eqn:Hts; [|discriminate].
    rewrite bind_Ok.
    apply extract_guide_text_header in Hts as (d & rest & -> & ->).
    cbn [chunk_loop app].
    match goal with
    | |- Ok (chunk_loop rest ?acc) <> _ =>
        destruct (chunk_loop_extends rest acc) as [more ->];
        assert (Hacc : acc <> [])
    end.
    { destruct (exceeds_chunk_size _).
      - apply split_text_nonblank, header_text_nonblank.
      - discriminate. }
    intros [= Hnil]. apply app_eq_nil in Hnil as [Hnil _].
    now apply Hacc. }
  split; [exact extract_guide_text_header|]. split; [exact Hload|].
  intros guide_id token site_id idx idx'. unfold process_single_guide.
  destruct (process_single_guide_body guide_id token site_id idx)
    as [[n idx'']|e] eqn:Hbody; [|discriminate].
  unfold process_single_guide_body in Hbody.
  destruct (load_and_chunk_guide guide_id token) as [chunks|e] eqn:Hl;
    [|discriminate].
  rewrite bind_Ok in Hbody.
  destruct chunks as [|c chunks]; [now apply Hload in Hl|].
  destruct (embed_texts (c :: chunks)) as [vecs|e]; [|discriminate].
  rewrite bind_Ok in Hbody. cbn zeta in Hbody.
  match type of Hbody with
  | (?u ≫= _) = _ => destruct u as [i'|e]; [|discriminate]
  end.
  rewrite bind_Ok in Hbody. injection Hbody as <- <-.
  intros Heq.
  apply (f_equal (fun r => match r with Ok (n, _) => n | Raise _ => 0 end))
    in Heq.
  simpl in Heq. lia.
Qed.

End HeaderFacts.

Lemma whole_text_splitter_nonblank s :
  strip s <> "" -> @split_text Samples.whole_text_splitter s <> [].
Proof. simpl. destruct (strip s); [congruence | discriminate]. Qed.

(** C9, witness: the sample collaborators. *)
Lemma header_keeps_chunks_nonempty_witness :
  @load_and_chunk_guide Samples.runtime Samples.whole_text_splitter
    (Samples.source []) (JNum 1) "token" <> Ok [].
Proof.
  apply (@header_keeps_chunks_nonempty Samples.runtime
           Samples.whole_text_splitter (Samples.source []) Samples.embedder
           whole_text_splitter_nonblank).
Defined.

(** ** Retrieval aggregation (vector_db.py) *)

Lemma set_ok_empty : set_ok ∅.
Proof. intros k v Hk. now rewrite lookup_empty in Hk. Qed.

Lemma set_add_ok x s s' : set_ok s -> set_add x s = Ok s' -> set_ok s'.
Proof.
  intros Hs. unfold set_add.
  destruct (py_hash_key x) as [k|] eqn:Hk; [|discriminate].
  destruct (s !! k) eqn:Hsk; intros [= <-]; [exact Hs|].
  intros k' v. rewrite lookup_insert. case_decide as Hkk.
  - subst k'. now intros [= <-].
  - apply Hs.
Qed.

Lemma set_add_raise x s e :
  set_add x s = Raise e -> e = TypeError /\ py_hash_key x = None.
Proof.
  unfold set_add. destruct (py_hash_key x) as [k|]; [|now intros [= <-]].
  destruct (s !! k); discriminate.
Qed.

(** The elements of a set are pairwise different, also up to Python's
    equality. *)
Lemma set_to_list_keys_NoDup s :
  set_ok s -> NoDup (py_hash_key <$> set_to_list s).
Proof.
  intros Hs. unfold set_to_list.
  rewrite <- list_fmap_compose.
  apply NoDup_fmap_2_strong; [|apply NoDup_map_to_list].
  intros [k1 v1] [k2 v2] H1 H2. simpl.
  apply elem_of_map_to_list in H1. apply elem_of_map_to_list in H2.
  intros Hkey. pose proof (Hs _ _ H1) as E1. pose proof (Hs _ _ H2) as E2.
  assert (k1 = k2) as -> by congruence.
  f_equal. congruence.
Qed.

Lemma set_to_list_NoDup s : set_ok s -> NoDup (set_to_list s).
Proof.
  intros Hs. eapply NoDup_fmap_1, set_to_list_keys_NoDup, Hs.
Qed.

Section SearchFacts.
Context `{Runtime}.

Lemma search_step_ok r a a' :
  acc_ok a -> search_step r a = Ok a' -> acc_ok a'.
Proof.
  intros (Hc & Hi & Hs & Hg). unfold search_step. cbn zeta.
  destruct (truthy (dict_get _ "text" _)); [|now intros [= <-]].
  destruct (set_add _ (acc_sources a)) as [s'|e] eqn:Hs';
    [rewrite bind_Ok | discriminate].
  apply (set_add_ok _ _ _ Hs) in Hs'.
  match goal with
  | |- (?c ≫= _) = _ -> _ => destruct c as [g'|e] eqn:Hg'
  end; [rewrite bind_Ok | discriminate].
  assert (set_ok g') as Hg''.
  { destruct (truthy (dict_get _ "guide_id" _)).
    - now apply (set_add_ok _ _ _ Hg) in Hg'.
    - now injection Hg' as <-. }
  intros [= <-]. unfold acc_ok. cbn.
  rewrite !length_app. cbn. repeat split; try lia; assumption.
Qed.

Lemma search_step_raise r a e :
  search_step r a = Raise e -> e = TypeError /\ scalar_keys r = false.
Proof.
  unfold search_step, scalar_keys. cbn zeta.
  destruct (truthy (dict_get _ "text" _)); [|discriminate].
  destruct (set_add _ (acc_sources a)) as [s'|e'] eqn:Hs'.
  - rewrite bind_Ok.
    match goal with
    | |- (?c ≫= _) = _ -> _ => destruct c as [g'|e'] eqn:Hg'
    end; [discriminate|].
    rewrite bind_Raise. intros [= <-].
    destruct (truthy (dict_get _ "guide_id" _)); [|discriminate].
    apply set_add_raise in Hg' as [-> Hnone]. split; [reflexivity|].
    rewrite Hnone. apply andb_false_iff. right.
    apply bool_decide_eq_false. now intros [? [=]].
  - rewrite bind_Raise. intros [= <-].
    apply set_add_raise in Hs' as [-> Hnone]. split; [reflexivity|].
    rewrite Hnone. apply andb_false_iff. left.
    apply bool_decide_eq_false. now intros [? [=]].
Qed.

Lemma search_loop_ok results a :
  acc_ok a ->
  match search_loop results a with
  | Ok a' => acc_ok a'
  | Raise e => e = TypeError /\ exists r, r ∈ results /\ scalar_keys r = false
  end.
Proof.
  revert a. induction results as [|r rest IH]; intros a Ha; [exact Ha|].
  cbn [search_loop]. destruct (search_step r a) as [a'|e] eqn:Hstep.
  - rewrite bind_Ok. specialize (IH a' (search_step_ok _ _ _ Ha Hstep)).
    destruct (search_loop rest a') as [a''|e]; [exact IH|].
    destruct IH as (-> & r' & Hin & Hr'). split; [reflexivity|].
    exists r'. split; [now apply list_elem_of_further | exact Hr'].
  - rewrite bind_Raise. apply search_step_raise in Hstep as [-> Hr].
    split; [reflexivity|]. exists r. split; [apply list_elem_of_here | exact Hr].
Qed.

(** C4.  For every batch of scored points, the aggregation returns a result
    whose [contexts], [images_per_context] and [guide_info] have one length
    and whose [sources] and [guide_ids] hold no element twice (not even two
    that Python's [==] identifies).  The only batches for which it does not
    return are those with a [source] or [guide_id] that is a list or an
    object, which a Python set rejects with [TypeError]. *)
Theorem search_result_aligned_and_deduplicated results :
  match search_aggregate results with
  | Ok r =>
      length (contexts r) = length (images_per_context r) /\
      length (images_per_context r) = length (guide_info r) /\
      NoDup (sources r) /\ NoDup (guide_ids r) /\
      NoDup (py_hash_key <$> sources r) /\
      NoDup (py_hash_key <$> guide_ids r)
  | Raise e =>
      e = TypeError /\ exists p, p ∈ results /\ scalar_keys p = false
  end.
Proof.
  unfold search_aggregate.
  match goal with
  | |- context [search_loop results ?a0] =>
      assert (acc_ok a0) as H0
        by (repeat split; auto using set_ok_empty);
      pose proof (search_loop_ok results a0 H0) as Hloop;
      destruct (search_loop results a0) as [a|e]
  end.
  - rewrite bind_Ok. cbn. destruct Hloop as (Hc & Hi & Hs & Hg).
    auto 10 using set_to_list_NoDup, set_to_list_keys_NoDup.
  - rewrite bind_Raise. exact Hloop.
Qed.

End SearchFacts.

(** ** Point ids and re-ingestion (main.py) *)

Lemma string_app_inj (s a b : string) : s +:+ a = s +:+ b -> a = b.
Proof. induction s as [|c s IH]; simpl; [auto | intros [= E]; auto]. Qed.

Lemma point_name_inj source_id : Inj (=) (=) (point_name source_id).
Proof.
  intros i j Hij. unfold point_name in Hij.
  apply string_app_inj, string_app_inj in Hij.
  now apply (inj pretty) in Hij.
Qed.

Lemma map_nth_range {A} (l : list A) (d : A) :
  map (fun i => nth i l d) (range (length l)) = l.
Proof.
  unfold range. apply list_eq. intros i.
  change (map ?f ?k) with (f <$> k). rewrite list_lookup_fmap.
  destruct (decide (i < length l)%nat) as [Hlt|Hge].
  - rewrite lookup_seq_lt by exact Hlt. simpl.
    destruct (lookup_lt_is_Some_2 l i Hlt) as [x Hx].
    rewrite Hx. f_equal. now apply nth_lookup_Some.
  - rewrite lookup_seq_ge by lia. simpl. symmetry.
    apply lookup_ge_None. lia.
Qed.

Lemma list_comp_map {A} (f : nat -> res A) (g : nat -> A) indices :
  (forall i, i ∈ indices -> f i = Ok (g i)) ->
  list_comp f indices = Ok (map g indices).
Proof.
  induction indices as [|i rest IH]; intros Hf; [reflexivity|].
  cbn [list_comp map]. rewrite (Hf i) by apply list_elem_of_here.
  rewrite bind_Ok, IH, bind_Ok; [reflexivity|].
  intros j Hj. apply Hf. now apply list_elem_of_further.
Qed.

Lemma index_list_nth {A} (l : list A) (i : nat) (d : A) :
  (i < length l)%nat -> index_list l i = Ok (nth i l d).
Proof.
  intros Hlt. unfold index_list.
  destruct (lookup_lt_is_Some_2 l i Hlt) as [x Hx]. rewrite Hx.
  f_equal. symmetry. now apply nth_lookup_Some.
Qed.

Lemma client_upsert_dom points idx :
  dom (client_upsert idx points)
  = dom idx ∪ list_to_set (point_id <$> points).
Proof.
  unfold client_upsert. revert idx.
  induction points as [|p rest IH]; intros idx; simpl.
  - set_solver.
  - rewrite IH, dom_insert_L. set_solver.
Qed.

(** [QdrantStorage.upsert] writes one point under each id, provided there is
    a vector and a payload for every id. *)
Lemma upsert_dom ids vectors payloads idx :
  length vectors = length ids -> length payloads = length ids ->
  exists idx',
    upsert ids vectors payloads idx = Ok idx' /\
    dom idx' = dom idx ∪ list_to_set ids.
Proof.
  intros Hv Hp. unfold upsert.
  rewrite (list_comp_map _
    (fun i => {| point_id := nth i ids "";
                 point_vector := nth i vectors [];
                 point_payload := nth i payloads [] |})).
  - rewrite bind_Ok. eexists. split; [reflexivity|].
    rewrite client_upsert_dom. f_equal. f_equal.
    change (?f <$> ?k) with (map f k). rewrite map_map. cbn [point_id].
    apply map_nth_range.
  - intros i Hi. apply elem_of_seq in Hi.
    rewrite (index_list_nth ids i "") by lia.
    rewrite bind_Ok, (index_list_nth vectors i []) by lia.
    rewrite bind_Ok, (index_list_nth payloads i []) by lia.
    reflexivity.
Qed.

Lemma embed_loop_length `{Embedder} texts embeddings r :
  embed_loop texts embeddings = Ok r ->
  length r = (length embeddings + length texts)%nat.
Proof.
  revert embeddings. induction texts as [|t rest IH]; intros acc Hr.
  - injection Hr as <-. simpl. lia.
  - cbn [embed_loop] in Hr.
    destruct (invoke_model t) as [e|e]; [rewrite bind_Ok in Hr|discriminate].
    apply IH in Hr. rewrite Hr, length_app. simpl. lia.
Qed.

Section IdFacts.
Context `{Runtime}.

Lemma length_point_ids source_id chunks :
  length (point_ids source_id chunks) = length chunks.
Proof. unfold point_ids, range. now rewrite length_map, length_seq. Qed.

Lemma length_point_payloads source_id guide_id chunks :
  length (point_payloads source_id guide_id chunks) = length chunks.
Proof. unfold point_payloads, range. now rewrite length_map, length_seq. Qed.

(** Distinct chunk indices get distinct ids when the hash does not
    collide. *)
Lemma point_ids_NoDup source_id chunks :
  Inj (=) (=) uuid5_url -> NoDup (point_ids source_id chunks).
Proof.
  intros Hinj. unfold point_ids, range.
  assert (Inj (=) (=) (fun i => uuid5_url (point_name source_id i))) as Hf.
  { intros i j Hij. now apply Hinj, point_name_inj in Hij. }
  apply (NoDup_fmap_2 (fun i => uuid5_url (point_name source_id i))).
  apply NoDup_seq.
Qed.

(** The embed-and-upsert step adds exactly the ids of the chunks. *)
Lemma rag_ingest_guide_upsert_dom `{Splitter} `{ContentSource} `{Embedder}
    chunks source_id guide_id vecs idx :
  embed_texts chunks = Ok vecs ->
  exists idx',
    rag_ingest_guide_upsert (chunks, source_id) guide_id idx
    = Ok (Z.of_nat (length chunks), idx') /\
    dom idx' = dom idx ∪ list_to_set (point_ids source_id chunks).
Proof.
  intros Hvecs. unfold rag_ingest_guide_upsert. cbn [fst snd].
  rewrite Hvecs, bind_Ok.
  apply embed_loop_length in Hvecs. simpl in Hvecs.
  destruct (upsert_dom (point_ids source_id chunks) vecs
              (point_payloads source_id guide_id chunks) idx)
    as (idx' & -> & Hdom).
  - now rewrite length_point_ids.
  - now rewrite length_point_payloads, length_point_ids.
  - rewrite bind_Ok. eauto.
Qed.

Lemma process_single_guide_dom `{Splitter} `{ContentSource} `{Embedder}
    guide_id token site_id chunks vecs idx :
  load_and_chunk_guide guide_id token = Ok chunks ->
  embed_texts chunks = Ok vecs ->
  exists idx',
    process_single_guide guide_id token site_id idx
    = Ok (Z.of_nat (length chunks), idx') /\
    dom idx' = dom idx ∪
      list_to_set (point_ids (site_id +:+ "_guide_" +:+ py_str guide_id)
                     chunks).
Proof.
  intros Hload Hvecs. unfold process_single_guide, process_single_guide_body.
  rewrite Hload, bind_Ok. destruct chunks as [|c chunks].
  - exists idx. split; [reflexivity|]. cbn. set_solver.
  - rewrite Hvecs, bind_Ok. cbn zeta.
    apply embed_loop_length in Hvecs. simpl in Hvecs.
    set (source_id := site_id +:+ "_guide_" +:+ py_str guide_id).
    destruct (upsert_dom (point_ids source_id (c :: chunks)) vecs
                (point_payloads source_id guide_id (c :: chunks)) idx)
      as (idx' & -> & Hdom).
    + now rewrite length_point_ids.
    + now rewrite length_point_payloads, length_point_ids.
    + rewrite bind_Ok. eauto.
Qed.

Lemma size_point_ids source_id chunks :
  Inj (=) (=) uuid5_url ->
  size (list_to_set (point_ids source_id chunks) : gset string)
  = length chunks.
Proof.
  intros Hinj. rewrite size_list_to_set by now apply point_ids_NoDup.
  apply length_point_ids.
Qed.

(** C2.  The ids of a guide's points are a function of the source id and
    the chunk indices alone.  With a hash that does not collide, running the
    single-guide ingestion twice for the same source id and chunks, against
    an initially empty index, writes the same ids both times, whatever the
    embedding provider returns on each run, and leaves exactly
    [len(chunks)] points.  This holds for [process_single_guide] and for the
    embed-and-upsert step of [rag_ingest_guide]. *)
Theorem reingestion_overwrites `{Splitter} `{ContentSource}
    (E1 E2 : Embedder) guide_id token site_id source_id chunks vecs1 vecs2 :
  Inj (=) (=) uuid5_url ->
  load_and_chunk_guide guide_id token = Ok chunks ->
  @embed_texts E1 chunks = Ok vecs1 ->
  @embed_texts E2 chunks = Ok vecs2 ->
  let n := Z.of_nat (length chunks) in
  (exists idx1 idx2,
     @process_single_guide _ _ _ E1 guide_id token site_id ∅ = Ok (n, idx1) /\
     @process_single_guide _ _ _ E2 guide_id token site_id idx1
     = Ok (n, idx2) /\
     dom idx1 = list_to_set
       (point_ids (site_id +:+ "_guide_" +:+ py_str guide_id) chunks) /\
     dom idx2 = dom idx1 /\
     size idx1 = length chunks /\ size idx2 = length chunks) /\
  (exists idx1 idx2,
     @rag_ingest_guide_upsert _ E1 (chunks, source_id) guide_id ∅
     = Ok (n, idx1) /\
     @rag_ingest_guide_upsert _ E2 (chunks, source_id) guide_id idx1
     = Ok (n, idx2) /\
     dom idx1 = list_to_set (point_ids source_id chunks) /\
     dom idx2 = dom idx1 /\
     size idx1 = length chunks /\ size idx2 = length chunks).
Proof.
  intros Hinj Hload Hv1 Hv2 n. split.
  - destruct (@process_single_guide_dom _ _ E1 guide_id token site_id
                chunks vecs1 ∅ Hload Hv1) as (idx1 & Hr1 & Hd1).
    destruct (@process_single_guide_dom _ _ E2 guide_id token site_id
                chunks vecs2 idx1 Hload Hv2) as (idx2 & Hr2 & Hd2).
    exists idx1, idx2.
    assert (Hdom1 : dom idx1 = list_to_set
              (point_ids (site_id +:+ "_guide_" +:+ py_str guide_id) chunks))
      by (rewrite Hd1; set_solver).
    assert (Hdom2 : dom idx2 = dom idx1) by (rewrite Hd2, Hdom1; set_solver).
    repeat split; try assumption.
    + rewrite <- size_dom, Hdom1. now apply size_point_ids.
    + rewrite <- size_dom, Hdom2, Hdom1. now apply size_point_ids.
  - destruct (@rag_ingest_guide_upsert_dom _ _ E1 chunks source_id guide_id
                vecs1 ∅ Hv1) as (idx1 & Hr1 & Hd1).
    destruct (@rag_ingest_guide_upsert_dom _ _ E2 chunks source_id guide_id
                vecs2 idx1 Hv2) as (idx2 & Hr2 & Hd2).
    exists idx1, idx2.
    assert (Hdom1 : dom idx1 = list_to_set (point_ids source_id chunks))
      by (rewrite Hd1; set_solver).
    assert (Hdom2 : dom idx2 = dom idx1) by (rewrite Hd2, Hdom1; set_solver).
    repeat split; try assumption.
    + rewrite <- size_dom, Hdom1. now apply size_point_ids.
    + rewrite <- size_dom, Hdom2, Hdom1. now apply size_point_ids.
Qed.

End IdFacts.

(** ** The ingestion saga (main.py) *)

Lemma attempts_app l1 l2 : attempts (l1 ++ l2) = attempts l1 ++ attempts l2.
Proof.
  induction l1 as [|ev l1 IH]; [reflexivity|].
  destruct ev; simpl; now rewrite IH.
Qed.

Lemma polls_app l1 l2 : polls (l1 ++ l2) = polls l1 ++ polls l2.
Proof.
  induction l1 as [|ev l1 IH]; [reflexivity|].
  destruct ev; simpl; now rewrite IH.
Qed.

Lemma progress_events_app l1 l2 :
  progress_events (l1 ++ l2) = progress_events l1 + progress_events l2.
Proof.
  induction l1 as [|ev l1 IH]; [reflexivity|].
  destruct ev; simpl; rewrite IH; lia.
Qed.

(** Inside the loop the catalog is not empty. *)
Lemma py_index_nonempty {A} (l : list A) (i : Z) (x : A) :
  py_index l i = Ok x -> Z.of_nat (length l) <> 0.
Proof.
  unfold py_index.
  destruct ((0 <=? i) && (i <? Z.of_nat (length l))) eqn:E1.
  - intros _. apply andb_prop in E1 as [H1 H2]. lia.
  - destruct ((i <? 0) && (0 <=? Z.of_nat (length l) + i)) eqn:E2;
      [|discriminate].
    intros _. apply andb_prop in E2 as [H1 H2]. lia.
Qed.

Lemma percentage_total processed total_guides :
  total_guides <> 0 -> exists pct, percentage processed total_guides = Ok pct.
Proof.
  intros Ht. unfold percentage.
  destruct (Z.eqb_spec total_guides 0); [contradiction | eauto].
Qed.

(** 23 of 80 guides: the quotient 0.2875 becomes a double just below it,
    and so does its product with 100, which rounds to 28.7. *)
Example percentage_23_of_80 : percentage 23 80 = Ok (287 # 10)%Q.
Proof. vm_compute. reflexivity. Qed.

Section SagaFacts.
Context `{Runtime} `{Splitter} `{ContentSource} `{Embedder} `{Host}.

(** Whether the ingestion step raises, and what, does not depend on the
    contents of the index. *)
Lemma process_single_guide_store guide_id token site_id idx :
  match process_single_guide guide_id token site_id ∅ with
  | Raise e => process_single_guide guide_id token site_id idx = Raise e
  | Ok (n, _) =>
      exists idx', process_single_guide guide_id token site_id idx
                   = Ok (n, idx')
  end.
Proof.
  unfold process_single_guide, process_single_guide_body.
  destruct (load_and_chunk_guide guide_id token) as [chunks|e];
    [|reflexivity].
  rewrite !bind_Ok. destruct chunks as [|c chunks]; [eauto|].
  destruct (embed_texts (c :: chunks)) as [vecs|e]; [|reflexivity].
  rewrite !bind_Ok. cbn zeta. unfold upsert.
  match goal with
  | |- context [list_comp ?f ?l] => destruct (list_comp f l) as [pts|e]
  end; [|reflexivity].
  rewrite !bind_Ok. eauto.
Qed.

Lemma step_failure_message token site_id all_guides i e :
  step_failure token site_id all_guides i = Some e ->
  exists msg, str_exn e = "Failed to process guide " +:+ msg.
Proof.
  unfold step_failure. destruct (summary_at all_guides i) as [s|]; [|done].
  cbn zeta. destruct (truthy _); [|done].
  unfold process_single_guide.
  destruct (process_single_guide_body _ _ _ _) as [r|e']; [done|].
  intros [= <-]. simpl. eauto.
Qed.

(** One run of the [try] statement, for a non-empty catalog. *)
Lemma try_guide_spec token site_id total_guides i guide_id summary st :
  total_guides <> 0 ->
  let st' := try_guide token site_id total_guides i guide_id summary st in
  exists tail,
    log st' = log st ++ StepProcessGuide i guide_id :: tail /\
    attempts tail = [] /\ polls tail = [] /\
    match process_single_guide guide_id token site_id ∅ with
    | Raise e =>
        errors st' = errors st ++
          [{| err_guide_id := guide_id;
              err_title :=
                dict_get summary "title"
                  (JStr ("Guide " +:+ py_str guide_id));
              err_error := str_exn e |}] /\
        processed st' = processed st /\ progress_events tail = 0
    | Ok _ =>
        errors st' = errors st /\
        processed st' = processed st + 1 /\ progress_events tail = 1
    end.
Proof.
  intros Ht. cbn zeta. unfold try_guide.
  cbn [add_log store processed total_chunks errors log].
  pose proof (process_single_guide_store guide_id token site_id (store st))
    as Hind.
  destruct (process_single_guide guide_id token site_id ∅) as [[n i0]|e].
  - destruct Hind as [idx' ->].
    destruct (percentage_total (processed st + 1) total_guides Ht)
      as [pct ->].
    eexists. cbn [add_log log errors processed]. rewrite <- app_assoc.
    split; [reflexivity|]. repeat split.
  - rewrite Hind. unfold handle_failure.
    eexists. cbn [add_log log errors processed]. rewrite <- app_assoc.
    split; [reflexivity|]. repeat split.
Qed.

Lemma has_id_summary all_guides i summary :
  summary_at all_guides i = Some summary ->
  has_id all_guides i = truthy (dict_get summary "guideid" JNull).
Proof. unfold has_id. now intros ->. Qed.

Lemma summary_at_index all_guides i summary :
  summary_at all_guides i = Some summary ->
  py_index all_guides i = Ok (JDict summary).
Proof.
  unfold summary_at. destruct (py_index all_guides i) as [[]|]; try done.
  now intros [= ->].
Qed.

(** What the guide loop does over the indices it is given: it works
    through a prefix [visited] on which no pause was seen, runs the step for
    the guides with an id, records the failures, and either reaches the end
    or stops at the first poll that sees the pause signal. *)
Lemma guides_loop_spec token site_id all_guides indices :
  forall st,
  (forall i, i ∈ indices -> is_Some (summary_at all_guides i)) ->
  exists visited rest r st',
    guides_loop token site_id all_guides indices st = (r, st') /\
    indices = visited ++ rest /\
    no_pause_seen all_guides visited /\
    attempts (log st')
    = attempts (log st) ++ List.filter (has_id all_guides) visited /\
    errors st'
    = errors st ++ omap (failure_at token site_id all_guides) visited /\
    progress_events (log st') - progress_events (log st)
    = processed st' - processed st /\
    match r with
    | None =>
        rest = [] /\
        polls (log st')
        = polls (log st) ++ List.filter (polled all_guides) visited
    | Some (Paused p i t) =>
        (exists rest', rest = i :: rest') /\
        polled all_guides i = true /\ wait_for_pause i = true /\
        t = Z.of_nat (length all_guides) /\ p = processed st' /\
        polls (log st')
        = polls (log st) ++ List.filter (polled all_guides) visited ++ [i]
    | Some _ => False
    end.
Proof.
  unfold no_pause_seen.
  induction indices as [|i rest IH]; intros st Hsum.
  - exists [], [], None, st. cbn. rewrite !app_nil_r.
    repeat split; auto; lia.
  - destruct (Hsum i (list_elem_of_here _ _)) as [summary Hs].
    assert (Hrest : forall j, j ∈ rest -> is_Some (summary_at all_guides j)).
    { intros j Hj. apply Hsum. now apply list_elem_of_further. }
    pose proof (summary_at_index _ _ _ Hs) as Hidx.
    pose proof (py_index_nonempty _ _ _ Hidx) as Htotal.
    pose proof (has_id_summary _ _ _ Hs) as Hid.
    cbn [guides_loop]. rewrite Hidx. cbn zeta.
    assert (Hfail : failure_at token site_id all_guides i
                    = match step_failure token site_id all_guides i with
                      | Some e =>
                          Some {| err_guide_id := dict_get summary "guideid" JNull;
                                  err_title := dict_get summary "title"
                                    (JStr ("Guide " +:+
                                       py_str (dict_get summary "guideid" JNull)));
                                  err_error := str_exn e |}
                      | None => None
                      end).
    { unfold failure_at. now rewrite Hs. }
    assert (Hstep : step_failure token site_id all_guides i
                    = if truthy (dict_get summary "guideid" JNull)
                      then match process_single_guide
                                   (dict_get summary "guideid" JNull)
                                   token site_id ∅ with
                           | Ok _ => None
                           | Raise e => Some e
                           end
                      else None).
    { unfold step_failure. now rewrite Hs. }
    destruct (truthy (dict_get summary "guideid" JNull)) eqn:Hgid; cbn [negb].
    + (* the guide has an id *)
      assert (Hrun : forall st1,
        polls (log st1) = polls (log st)
          ++ (if polled all_guides i then [i] else []) ->
        attempts (log st1) = attempts (log st) ->
        errors st1 = errors st -> processed st1 = processed st ->
        progress_events (log st1) = progress_events (log st) ->
        (polled all_guides i = true -> wait_for_pause i = false) ->
        exists visited rest0 r st',
          guides_loop token site_id all_guides rest
            (try_guide token site_id (Z.of_nat (length all_guides)) i
               (dict_get summary "guideid" JNull) summary st1) = (r, st') /\
          i :: rest = visited ++ rest0 /\
          no_pause_seen all_guides visited /\
          attempts (log st')
          = attempts (log st) ++ List.filter (has_id all_guides) visited /\
          errors st'
          = errors st ++ omap (failure_at token site_id all_guides) visited /\
          progress_events (log st') - progress_events (log st)
          = processed st' - processed st /\
          match r with
          | None =>
              rest0 = [] /\
              polls (log st')
              = polls (log st) ++ List.filter (polled all_guides) visited
          | Some (Paused p i0 t) =>
              (exists rest', rest0 = i0 :: rest') /\
              polled all_guides i0 = true /\ wait_for_pause i0 = true /\
              t = Z.of_nat (length all_guides) /\ p = processed st' /\
              polls (log st')
              = polls (log st) ++ List.filter (polled all_guides) visited
                ++ [i0]
          | Some _ => False
          end).
      { intros st1 Hp1 Ha1 He1 Hpr1 Hpe1 Hnp.
        destruct (try_guide_spec token site_id (Z.of_nat (length all_guides))
                    i (dict_get summary "guideid" JNull) summary st1 Htotal)
          as (tail & Hlog & Hat & Hpt & Hcase).
        cbn zeta in Hlog, Hcase.
        set (st2 := try_guide token site_id (Z.of_nat (length all_guides)) i
                      (dict_get summary "guideid" JNull) summary st1) in *.
        destruct (IH st2 Hrest)
          as (visited & rest0 & r & st' & Hloop & Hsplit & Hnop & Hatt
              & Herr & Hprog & Hr).
        exists (i :: visited), rest0, r, st'.
        split; [exact Hloop|]. split; [now rewrite Hsplit|].
        split; [now constructor|].
        assert (Hlog2a : attempts (log st2) = attempts (log st) ++ [i]).
        { rewrite Hlog, attempts_app. cbn [attempts]. now rewrite Hat, Ha1. }
        assert (Hlog2p : polls (log st2) = polls (log st)
                           ++ (if polled all_guides i then [i] else [])).
        { rewrite Hlog, polls_app. cbn [polls]. now rewrite Hpt, app_nil_r. }
        assert (Hlog2e : progress_events (log st2) - progress_events (log st)
                         = processed st2 - processed st).
        { rewrite Hlog, progress_events_app. cbn [progress_events].
          destruct (process_single_guide _ token site_id ∅);
            destruct Hcase as (_ & -> & ->); lia. }
        assert (Herr2 : errors st2 = errors st
                        ++ match failure_at token site_id all_guides i with
                           | Some rec => [rec]
                           | None => []
                           end).
        { rewrite Hfail, Hstep.
          destruct (process_single_guide _ token site_id ∅);
            destruct Hcase as (-> & _ & _); rewrite He1;
            [now rewrite app_nil_r | reflexivity]. }
        split.
        { rewrite Hatt, Hlog2a. cbn [List.filter]. rewrite Hid.
          now rewrite <- app_assoc. }
        split.
        { rewrite Herr, Herr2.
          change (omap ?f (i :: visited))
            with (match f i with
                  | Some y => y :: omap f visited
                  | None => omap f visited
                  end).
          destruct (failure_at token site_id all_guides i);
            now rewrite <- app_assoc. }
        split; [lia|].
        destruct r as [[p f c errs|p i0 t|e]|].
        - exact Hr.
        - destruct Hr as (Hr0 & Hr1 & Hr2 & Hr3 & Hr4 & Hr5).
          repeat split; try assumption.
          rewrite Hr5, Hlog2p. cbn [List.filter].
          destruct (polled all_guides i); now rewrite <- !app_assoc.
        - exact Hr.
        - destruct Hr as (Hr0 & Hr5). split; [exact Hr0|].
          rewrite Hr5, Hlog2p. cbn [List.filter].
          destruct (polled all_guides i); now rewrite <- !app_assoc. }
      assert (Hpolled : polled all_guides i = (0 <? i) && (i mod 5 =? 0)).
      { unfold polled. now rewrite Hid. }
      destruct ((0 <? i) && (i mod 5 =? 0)) eqn:Hcond.
      * destruct (wait_for_pause i) eqn:Hwait.
        -- exists [], (i :: rest). eexists _, _. split; [reflexivity|].
           cbn [add_log log errors processed app List.filter omap].
           rewrite !polls_app, !attempts_app, !progress_events_app.
           cbn. rewrite !app_nil_r.
           repeat split; eauto; try lia.
        -- apply Hrun; cbn [add_log log errors processed];
             rewrite ?polls_app, ?attempts_app, ?progress_events_app,
               ?Hpolled;
             cbn; rewrite ?app_nil_r; auto; lia.
      * apply Hrun; rewrite ?Hpolled, ?app_nil_r; auto; discriminate.
    + (* no id: the guide is skipped *)
      destruct (IH st Hrest)
        as (visited & rest0 & r & st' & Hloop & Hsplit & Hnop & Hatt
            & Herr & Hprog & Hr).
      assert (Hnp : polled all_guides i = false).
      { unfold polled. now rewrite Hid. }
      exists (i :: visited), rest0, r, st'.
      split; [exact Hloop|]. split; [now rewrite Hsplit|].
      split; [constructor; [congruence | exact Hnop]|].
      split; [cbn [List.filter]; now rewrite Hid|].
      split.
      { change (omap ?f (i :: visited))
          with (match f i with
                | Some y => y :: omap f visited
                | None => omap f visited
                end).
        now rewrite Hfail, Hstep. }
      split; [exact Hprog|].
      cbn [List.filter]. rewrite Hnp. exact Hr.
Qed.

End SagaFacts.

(** *** Paging through the catalog *)

Lemma fetch_all_guides_paged `{ContentSource} token catalog :
  serves_catalog token catalog ->
  forall n offset,
  (length (drop offset catalog) <= n)%nat ->
  fetch_all_guides (S n) token (Z.of_nat offset) (take offset catalog)
  = Some (Ok catalog).
Proof.
  intros Hserve. induction n as [n IH] using lt_wf_ind. intros offset Hlen.
  cbn [fetch_all_guides]. change 200 with (Z.of_nat 200).
  rewrite Hserve.
  destruct (take 200 (drop offset catalog)) as [|g batch] eqn:Hbatch.
  - assert (drop offset catalog = []) as Hnil.
    { destruct (drop offset catalog); [reflexivity | discriminate]. }
    rewrite <- (take_drop offset catalog) at 2. rewrite Hnil.
    now rewrite app_nil_r.
  - rewrite <- Hbatch.
    destruct (Nat.ltb_spec (length (take 200 (drop offset catalog))) 200)
      as [Hshort|Hfull].
    + rewrite length_take in Hshort.
      rewrite (take_ge (drop offset catalog)) by lia. now rewrite take_drop.
    + rewrite length_take in Hfull.
      assert (take offset catalog ++ take 200 (drop offset catalog)
              = take (offset + 200) catalog) as ->.
      { apply take_take_drop. }
      replace (Z.of_nat offset + Z.of_nat 200) with (Z.of_nat (offset + 200))
        by lia.
      destruct n as [|n']; [lia|].
      apply IH; [lia|].
      rewrite length_drop in *. lia.
Qed.

(** With enough fuel the paging loop returns the whole catalog. *)
Lemma fetch_all_guides_catalog `{ContentSource} token catalog :
  serves_catalog token catalog ->
  fetch_all_guides (S (length catalog)) token 0 [] = Some (Ok catalog).
Proof.
  intros Hserve.
  apply (fetch_all_guides_paged token catalog Hserve (length catalog) 0%nat).
  rewrite length_drop. lia.
Qed.

(** *** A run over a catalog *)

Lemma summary_at_in_range all_guides i :
  summaries all_guides ->
  0 <= i < Z.of_nat (length all_guides) ->
  is_Some (summary_at all_guides i).
Proof.
  intros Hdict Hi. unfold summary_at, py_index.
  destruct (Z.leb_spec 0 i); [|lia].
  destruct (Z.ltb_spec i (Z.of_nat (length all_guides))); [|lia].
  cbn [andb]. unfold index_list.
  destruct (lookup_lt_is_Some_2 all_guides (Z.to_nat i) ltac:(lia))
    as [g Hg].
  rewrite Hg. unfold summaries in Hdict. rewrite Forall_lookup in Hdict.
  specialize (Hdict _ _ Hg). destruct g; try discriminate. eauto.
Qed.

Lemma seqZ_split m n visited i rest :
  seqZ m n = visited ++ i :: rest ->
  visited = seqZ m (i - m) /\ m <= i < m + n.
Proof.
  intros Hsplit.
  assert (Hlen : length (seqZ m n) = (length visited + S (length rest))%nat).
  { rewrite Hsplit, length_app. reflexivity. }
  rewrite length_seqZ in Hlen.
  assert (Hi : seqZ m n !! length visited = Some i).
  { rewrite Hsplit. apply list_lookup_middle. reflexivity. }
  apply lookup_seqZ in Hi as [-> Hlt].
  replace (m + Z.of_nat (length visited) - m) with (Z.of_nat (length visited))
    by lia.
  split; [|lia].
  replace n with (Z.of_nat (length visited) + (n - Z.of_nat (length visited)))
    in Hsplit by lia.
  rewrite seqZ_app in Hsplit by lia.
  apply app_inj_1 in Hsplit as [Hv _]; [now symmetry|].
  rewrite length_seqZ. lia.
Qed.

Section RunFacts.
Context `{Runtime} `{Splitter} `{ContentSource} `{Embedder} `{Host}.

(** A run with [0 <= resume_offset <= total] over a catalog of objects: it
    works through the indices from [resume_offset] up to [stop], which is
    the end of the catalog or the first poll that sees the pause signal. *)
Lemma ingest_catalog_spec token site_id resume_offset all_guides idx :
  summaries all_guides ->
  0 <= resume_offset <= Z.of_nat (length all_guides) ->
  let total := Z.of_nat (length all_guides) in
  exists r st stop,
    ingest_catalog token site_id resume_offset all_guides idx = (r, st) /\
    resume_offset <= stop <= total /\
    no_pause_seen all_guides (py_range resume_offset stop) /\
    attempts (log st)
    = List.filter (has_id all_guides) (py_range resume_offset stop) /\
    errors st
    = omap (failure_at token site_id all_guides)
        (py_range resume_offset stop) /\
    progress_events (log st) = processed st /\
    match r with
    | Completed p f c errs =>
        stop = total /\ p = processed st /\ errs = errors st /\
        f = Z.of_nat (length errs) /\
        polls (log st)
        = List.filter (polled all_guides) (py_range resume_offset stop)
    | Paused p i t =>
        stop = i /\ i < total /\ polled all_guides i = true /\
        wait_for_pause i = true /\ t = total /\ p = processed st /\
        polls (log st)
        = List.filter (polled all_guides) (py_range resume_offset stop)
          ++ [i]
    | Uncaught _ => False
    end.
Proof.
  intros Hdict HN total. unfold ingest_catalog. fold total.
  set (st0 := {| processed := 0; total_chunks := 0; errors := [];
                 store := idx; log := [SentFetching total] |}).
  destruct (guides_loop_spec token site_id all_guides
              (py_range resume_offset total) st0)
    as (visited & rest & r & st' & Hloop & Hsplit & Hnop & Hatt & Herr
        & Hprog & Hr).
  { intros i Hi. apply elem_of_seqZ in Hi.
    apply summary_at_in_range; [exact Hdict | fold total; lia]. }
  rewrite Hloop. cbn [st0 log errors processed attempts polls
                      progress_events app] in Hatt, Herr, Hprog, Hr.
  destruct r as [[p f c errs|p i t|e]|].
  - destruct Hr.
  - destruct Hr as ((rest' & ->) & Hpi & Hwi & -> & -> & Hpolls).
    unfold py_range in Hsplit. apply seqZ_split in Hsplit as [-> Hrange].
    exists (Paused (processed st') i (Z.of_nat (length all_guides))),
      st', i.
    unfold py_range. fold total.
    repeat split; try assumption; try lia.
  - destruct Hr.
  - destruct Hr as [-> Hpolls]. rewrite app_nil_r in Hsplit.
    rewrite <- Hsplit in *.
    eexists _, _, total. split; [reflexivity|].
    cbn [add_log log errors processed].
    rewrite attempts_app, polls_app, progress_events_app. cbn.
    rewrite !app_nil_r.
    repeat split; try assumption; try lia.
Qed.

(** With enough fuel for the paging, [rag_ingest_site] is the run over the
    catalog the content source serves. *)
Lemma rag_ingest_site_catalog token site_id N all_guides idx :
  serves_catalog token all_guides ->
  rag_ingest_site (S (length all_guides)) token site_id (Some N) idx
  = Some (ingest_catalog token (default "hansaw" site_id) N all_guides idx).
Proof.
  intros Hserve. unfold rag_ingest_site.
  now rewrite (fetch_all_guides_catalog token all_guides Hserve).
Qed.

End RunFacts.

(** *** The progress percentage *)

Section PercentageFacts.
Context `{Runtime} `{Splitter} `{ContentSource} `{Embedder} `{Host}.

Lemma process_single_guide_message guide_id token site_id idx e :
  process_single_guide guide_id token site_id idx = Raise e ->
  exists msg, str_exn e = "Failed to process guide " +:+ msg.
Proof.
  unfold process_single_guide.
  destruct (process_single_guide_body _ _ _ _) as [r|e']; [done|].
  intros [= <-]. simpl. eauto.
Qed.

(** The [try] statement of a non-empty catalog sends one progress event
    per processed guide and records only failures of the ingestion step. *)
Lemma try_guide_invariant token site_id total_guides i guide_id summary st :
  total_guides <> 0 ->
  let st' := try_guide token site_id total_guides i guide_id summary st in
  progress_events (log st') - progress_events (log st)
  = processed st' - processed st /\
  (Forall is_step_failure (errors st) -> Forall is_step_failure (errors st')).
Proof.
  intros Ht.
  destruct (try_guide_spec token site_id total_guides i guide_id summary st Ht)
    as (tail & Hlog & _ & _ & Hcase).
  cbn zeta in *. rewrite Hlog, progress_events_app. cbn [progress_events].
  destruct (process_single_guide guide_id token site_id ∅) as [ok|e] eqn:Hp.
  - destruct Hcase as (-> & -> & ->). split; [lia | auto].
  - destruct Hcase as (-> & -> & ->). split; [lia|].
    intros Herrs. apply Forall_app. split; [exact Herrs|].
    constructor; [|constructor].
    apply process_single_guide_message in Hp as [msg Hmsg].
    exists msg. exact Hmsg.
Qed.

Lemma guides_loop_invariant token site_id all_guides indices :
  forall st,
  let out := guides_loop token site_id all_guides indices st in
  progress_events (log (snd out)) - progress_events (log st)
  = processed (snd out) - processed st /\
  (Forall is_step_failure (errors st) ->
   Forall is_step_failure (errors (snd out))).
Proof.
  induction indices as [|i rest IH]; intros st; cbn zeta.
  - simpl. split; [lia | auto].
  - cbn [guides_loop].
    destruct (py_index all_guides i) as [g|e] eqn:Hidx;
      [|simpl; split; [lia | auto]].
    pose proof (py_index_nonempty _ _ _ Hidx) as Htotal.
    destruct g as [| | | | |summary]; try (simpl; split; [lia | auto]).
    cbn zeta.
    assert (Hgo : forall st1,
      progress_events (log st1) = progress_events (log st) ->
      processed st1 = processed st -> errors st1 = errors st ->
      let out := guides_loop token site_id all_guides rest
        (try_guide token site_id (Z.of_nat (length all_guides)) i
           (dict_get summary "guideid" JNull) summary st1) in
      progress_events (log (snd out)) - progress_events (log st)
      = processed (snd out) - processed st /\
      (Forall is_step_failure (errors st) ->
       Forall is_step_failure (errors (snd out)))).
    { intros st1 Hl Hp He. cbn zeta.
      destruct (try_guide_invariant token site_id
                  (Z.of_nat (length all_guides)) i
                  (dict_get summary "guideid" JNull) summary st1 Htotal)
        as [Hd Hf].
      cbn zeta in Hd, Hf. rewrite He in Hf.
      match goal with
      | |- context [guides_loop _ _ _ rest ?s] =>
          destruct (IH s) as [Hd' Hf']
      end.
      cbn zeta in Hd', Hf'. split; [lia | auto]. }
    destruct (truthy (dict_get summary "guideid" JNull)); cbn [negb].
    + destruct ((0 <? i) && (i mod 5 =? 0)).
      * destruct (wait_for_pause i).
        -- cbn [snd add_log log errors processed].
           rewrite !progress_events_app. cbn. split; [lia | auto].
        -- apply Hgo; cbn [add_log log errors processed]; auto.
           rewrite progress_events_app. cbn. lia.
      * now apply Hgo.
    + apply IH.
Qed.

(** C10.  Whenever the loop body has fetched [all_guides[i]], the catalog
    is not empty and the percentage is computed without error.  So in every
    run of the saga each processed guide has its progress event, and every
    entry of [errors] comes from a failed ingestion step, none from a
    division by zero. *)
Theorem percentage_never_divides_by_zero :
  (forall (all_guides : list json) (i : Z) (guide_summary : json)
          (processed : Z),
     py_index all_guides i = Ok guide_summary ->
     exists pct,
       percentage processed (Z.of_nat (length all_guides)) = Ok pct) /\
  (forall fuel token site_id resume_offset idx,
     match rag_ingest_site fuel token site_id resume_offset idx with
     | Some (r, st) =>
         progress_events (log st) = processed st /\
         Forall is_step_failure (errors st) /\
         Forall (fun rec => err_error rec <> str_exn ZeroDivisionError)
           (errors st)
     | None => True
     end).
Proof.
  split.
  - intros all_guides i g p Hidx.
    apply percentage_total. eapply py_index_nonempty, Hidx.
  - intros fuel token site_id resume_offset idx. unfold rag_ingest_site.
    destruct (fetch_all_guides fuel token 0 []) as [[all_guides|e]|];
      [| cbn; repeat split; constructor | exact I].
    assert (Hnz : forall errs, Forall is_step_failure errs ->
              Forall (fun rec => err_error rec <> str_exn ZeroDivisionError)
                errs).
    { intros errs Herrs. eapply Forall_impl; [exact Herrs|].
      intros rec [msg Hmsg]. rewrite Hmsg. discriminate. }
    unfold ingest_catalog.
    match goal with
    | |- context [guides_loop ?t ?s ?g ?ixs ?st0] =>
        pose proof (guides_loop_invariant t s g ixs st0) as [Hd Hf];
        destruct (guides_loop t s g ixs st0) as [[r|] st]
    end; cbn [snd log errors processed progress_events] in Hd, Hf.
    + specialize (Hf (List.Forall_nil _)). repeat split; auto; lia.
    + specialize (Hf (List.Forall_nil _)).
      cbn [add_log log errors processed].
      rewrite progress_events_app. cbn. repeat split; auto; lia.
Qed.

End PercentageFacts.

(** C10, witness: index 5 of a catalog of twelve guides. *)
Lemma percentage_never_divides_by_zero_witness :
  exists pct, percentage 6 (Z.of_nat (length (Samples.catalog 12))) = Ok pct.
Proof.
  apply (proj1 (@percentage_never_divides_by_zero Samples.runtime
                  Samples.whole_text_splitter
                  (Samples.source (Samples.catalog 12)) Samples.embedder
                  (Samples.host []))
           (Samples.catalog 12) 5
           (JDict [("guideid", JNum 6); ("title", JStr "Guide")]) 6).
  reflexivity.
Defined.

(** C2, witness: the sample guide, ingested twice. *)
Lemma reingestion_overwrites_witness :
  exists idx1 idx2 : index,
    @process_single_guide Samples.runtime Samples.whole_text_splitter
      (Samples.source []) Samples.embedder (JNum 1) "token" "hansaw" ∅
    = Ok (3, idx1) /\
    @process_single_guide Samples.runtime Samples.whole_text_splitter
      (Samples.source []) Samples.embedder (JNum 1) "token" "hansaw" idx1
    = Ok (3, idx2) /\
    dom idx1
    = list_to_set (@point_ids Samples.runtime "hansaw_guide_1"
                     ["Guide: Saw" +:+ nl +:+ "Category: Tools" +:+ nl
                      +:+ "Difficulty: " +:+ nl +:+ "Summary: ";
                      "Introduction:" +:+ nl +:+ "Read first.";
                      "Step 1: Remove the cover" +:+ nl +:+ "- Unscrew it."
                      +:+ nl]) /\
    dom idx2 = dom idx1 /\ size idx1 = 3%nat /\ size idx2 = 3%nat.
Proof.
  apply (proj1 (@reingestion_overwrites Samples.runtime
                  Samples.whole_text_splitter (Samples.source [])
                  Samples.embedder Samples.embedder (JNum 1) "token" "hansaw"
                  "guide_1"
                  ["Guide: Saw" +:+ nl +:+ "Category: Tools" +:+ nl
                   +:+ "Difficulty: " +:+ nl +:+ "Summary: ";
                   "Introduction:" +:+ nl +:+ "Read first.";
                   "Step 1: Remove the cover" +:+ nl +:+ "- Unscrew it."
                   +:+ nl]
                  [[]; []; []] [[]; []; []]
                  (fun x y E => E) eq_refl eq_refl eq_refl)).
Defined.

(** *** Resuming, failing guides and pausing *)

Lemma filter_range_bounds (f : Z -> bool) start stop :
  Forall (fun i => start <= i < stop) (List.filter f (py_range start stop)).
Proof.
  apply Forall_forall. intros i Hi. apply list_elem_of_In in Hi.
  apply List.filter_In in Hi as [Hin _].
  apply list_elem_of_In, elem_of_seqZ in Hin. lia.
Qed.

Lemma polled_fifth all_guides i :
  polled all_guides i = true -> 0 < i /\ i mod 5 = 0 /\ has_id all_guides i = true.
Proof.
  unfold polled. intros Hp.
  apply andb_prop in Hp as [Hp H5]. apply andb_prop in Hp as [Hid H0].
  repeat split; [lia | lia | exact Hid].
Qed.

Lemma filter_polled_fifth all_guides indices :
  Forall (fun i => 0 < i /\ i mod 5 = 0)
    (List.filter (polled all_guides) indices).
Proof.
  apply Forall_forall. intros i Hi. apply list_elem_of_In in Hi.
  apply List.filter_In in Hi as [_ Hp].
  apply polled_fifth in Hp. tauto.
Qed.

Section SagaClaims.
Context `{Runtime} `{Splitter} `{ContentSource} `{Embedder} `{Host}.

(** C3, as amended.  A run with [resume_offset = N], [0 <= N <= total], over
    a catalog of summaries runs the ingestion step for exactly the guides at
    the indices of [N, stop) that carry an id, in catalog order, and visits
    no index below [N].  Here [stop] is the catalog length when no poll sees
    the pause signal, and the index of the first poll that sees it
    otherwise: no poll below [stop] sees the signal, and a run that stops
    before the end stops at a poll that does. *)
Theorem resumed_run_starts_at_offset token site_id N all_guides idx :
  serves_catalog token all_guides ->
  summaries all_guides ->
  0 <= N <= Z.of_nat (length all_guides) ->
  let total := Z.of_nat (length all_guides) in
  exists r st stop,
    rag_ingest_site (S (length all_guides)) token site_id (Some N) idx
    = Some (r, st) /\
    N <= stop <= total /\
    attempts (log st) = List.filter (has_id all_guides) (py_range N stop) /\
    Forall (fun i => N <= i) (attempts (log st) ++ polls (log st)) /\
    match r with
    | Completed _ _ _ _ => stop = total
    | Paused _ i _ =>
        stop = i /\ polled all_guides i = true /\ wait_for_pause i = true
    | Uncaught _ => False
    end /\
    no_pause_seen all_guides (py_range N stop) /\
    (no_pause_seen all_guides (py_range N total) -> stop = total).
Proof.
  intros Hserve Hdict HN total.
  rewrite (rag_ingest_site_catalog token site_id N all_guides idx Hserve).
  destruct (ingest_catalog_spec token (default "hansaw" site_id) N all_guides
              idx Hdict HN)
    as (r & st & stop & Hrun & Hstop & Hnop & Hatt & Herr & Hprog & Hr).
  cbn zeta in Hstop, Hr. fold total in Hstop, Hr.
  exists r, st, stop. split; [now rewrite Hrun|].
  split; [exact Hstop|]. split; [exact Hatt|].
  assert (Hbound : Forall (fun i => N <= i)
                     (List.filter (has_id all_guides) (py_range N stop))).
  { eapply Forall_impl; [apply filter_range_bounds|]. intros i Hi. cbn beta in Hi. lia. }
  assert (Hboundp : Forall (fun i => N <= i)
                     (List.filter (polled all_guides) (py_range N stop))).
  { eapply Forall_impl; [apply filter_range_bounds|]. intros i Hi. cbn beta in Hi. lia. }
  destruct r as [p f c errs|p i t|e].
  - destruct Hr as (-> & _ & _ & _ & Hpolls).
    split; [|split; [reflexivity | split; [exact Hnop | reflexivity]]].
    rewrite Hatt, Hpolls. apply Forall_app. split; assumption.
  - destruct Hr as (-> & Hlt & Hpi & Hwi & _ & _ & Hpolls).
    split; [|split; [auto|split; [exact Hnop|]]].
    + rewrite Hatt, Hpolls. rewrite !Forall_app. repeat split; try assumption.
      constructor; [lia | constructor].
    + intros Hnone. unfold no_pause_seen in Hnone.
      rewrite Forall_forall in Hnone.
      assert (i ∈ py_range N total) as Hin
        by (apply elem_of_seqZ; lia).
      specialize (Hnone i Hin Hpi). congruence.
  - destruct Hr.
Qed.


End SagaClaims.

Lemma filter_all_true (f : Z -> bool) l :
  (forall i, i ∈ l -> f i = true) -> List.filter f l = l.
Proof.
  induction l as [|x l IH]; intros Hf; [reflexivity|].
  cbn [List.filter]. rewrite (Hf x) by apply list_elem_of_here.
  f_equal. apply IH. intros i Hi. apply Hf. now apply list_elem_of_further.
Qed.

(** C6.  The pause signal is polled only at indices that are positive
    multiples of 5.  When a poll sees it, the run returns [paused] with the
    current index as [resume_offset], the total of the catalog, and no step
    run for that index or a later one; and a signal seen at a poll always
    pauses the run, at that poll or an earlier one.  For a catalog of twelve
    guides: a signal seen at the poll of index 5 pauses the run at
    [resume_offset = 5] after the guides 0..4, and the run resumed at 5 that
    sees no signal attempts the guides 5..11 and no other. *)
Theorem pause_polled_every_fifth_guide
    `{Runtime} `{Splitter} `{ContentSource} `{Embedder} :
  (forall (host : Host) token site_id N all_guides idx,
     serves_catalog token all_guides ->
     summaries all_guides ->
     0 <= N <= Z.of_nat (length all_guides) ->
     exists r st,
       rag_ingest_site (S (length all_guides)) token site_id (Some N) idx
       = Some (r, st) /\
       Forall (fun i => 0 < i /\ i mod 5 = 0) (polls (log st)) /\
       match r with
       | Paused p i t =>
           wait_for_pause i = true /\
           t = Z.of_nat (length all_guides) /\
           last (polls (log st)) = Some i /\
           Forall (fun j => j < i) (attempts (log st))
       | _ => True
       end /\
       (forall i, N <= i < Z.of_nat (length all_guides) ->
          polled all_guides i = true -> wait_for_pause i = true ->
          exists p j, r = Paused p j (Z.of_nat (length all_guides)) /\
                      N <= j <= i)) /\
  (forall (host1 host2 : Host) token site_id all_guides idx,
     serves_catalog token all_guides ->
     summaries all_guides ->
     length all_guides = 12%nat ->
     (forall i, 0 <= i < 12 -> has_id all_guides i = true) ->
     @wait_for_pause host1 5 = true ->
     @wait_for_pause host2 5 = false ->
     @wait_for_pause host2 10 = false ->
     exists p st1 p2 f2 c2 errs2 st2,
       @rag_ingest_site _ _ _ _ host1 13 token site_id (Some 0) idx
       = Some (Paused p 5 12, st1) /\
       attempts (log st1) = [0; 1; 2; 3; 4] /\
       @rag_ingest_site _ _ _ _ host2 13 token site_id (Some 5) (store st1)
       = Some (Completed p2 f2 c2 errs2, st2) /\
       attempts (log st2) = [5; 6; 7; 8; 9; 10; 11]).
Proof.
  split.
  - intros host token site_id N all_guides idx Hserve Hdict HN.
    rewrite (rag_ingest_site_catalog token site_id N all_guides idx Hserve).
    destruct (ingest_catalog_spec token (default "hansaw" site_id) N
                all_guides idx Hdict HN)
      as (r & st & stop & Hrun & Hstop & Hnop & Hatt & Herr & Hprog & Hr).
    cbn zeta in Hstop, Hr.
    exists r, st. split; [now rewrite Hrun|].
    destruct r as [p f c errs|p i t|e].
    + destruct Hr as (-> & _ & _ & _ & Hpolls).
      split; [rewrite Hpolls; apply filter_polled_fifth|].
      split; [exact I|].
      intros i Hi Hpi Hwi. unfold no_pause_seen in Hnop.
      rewrite Forall_forall in Hnop.
      assert (i ∈ py_range N (Z.of_nat (length all_guides))) as Hin
        by (apply elem_of_seqZ; lia).
      specialize (Hnop i Hin Hpi). congruence.
    + destruct Hr as (-> & Hlt & Hpi & Hwi & -> & _ & Hpolls).
      split.
      { rewrite Hpolls. apply Forall_app. split;
          [apply filter_polled_fifth|].
        constructor; [|constructor]. apply polled_fifth in Hpi. tauto. }
      split.
      { repeat split; try assumption.
        - rewrite Hpolls. apply last_snoc.
        - rewrite Hatt. eapply Forall_impl; [apply filter_range_bounds|].
          intros j Hj. cbn beta in Hj. lia. }
      intros j Hj Hpj Hwj. exists p, i. split; [reflexivity|].
      split; [lia|].
      destruct (Z.le_gt_cases i j) as [Hle|Hgt]; [exact Hle|].
      unfold no_pause_seen in Hnop. rewrite Forall_forall in Hnop.
      assert (j ∈ py_range N i) as Hin by (apply elem_of_seqZ; lia).
      specialize (Hnop j Hin Hpj). congruence.
    + destruct Hr.
  - intros host1 host2 token site_id all_guides idx Hserve Hdict Hlen Hids
      Hw1 Hw2 Hw3.
    assert (Hp5 : polled all_guides 5 = true).
    { unfold polled. now rewrite Hids by lia. }
    assert (Hfifth : forall i, 0 <= i < 12 -> polled all_guides i = true ->
              i = 5 \/ i = 10).
    { intros i Hi Hp. apply polled_fifth in Hp as (Hpos & H5 & _).
      assert (i = 1 \/ i = 2 \/ i = 3 \/ i = 4 \/ i = 5 \/ i = 6 \/ i = 7 \/
              i = 8 \/ i = 9 \/ i = 10 \/ i = 11) as Hcases by lia.
      destruct Hcases as [->|[->|[->|[->|[->|[->|[->|[->|[->|[->| ->]]]]]]]]]];
        try discriminate H5; auto. }
    replace 13%nat with (S (length all_guides)) by (rewrite Hlen; reflexivity).
    (* the first run *)
    pose proof (@rag_ingest_site_catalog _ _ _ _ host1 token site_id 0
                  all_guides idx Hserve) as Hsite1.
    destruct (@ingest_catalog_spec _ _ _ _ host1 token
                (default "hansaw" site_id) 0 all_guides idx Hdict
                ltac:(rewrite Hlen; simpl; lia))
      as (r & st1 & stop & Hrun & Hstop & Hnop & Hatt & _ & _ & Hr).
    cbn zeta in Hstop, Hr. rewrite Hlen in Hstop, Hr.
    change (Z.of_nat 12) with 12 in Hstop, Hr.
    unfold no_pause_seen in Hnop. rewrite Forall_forall in Hnop.
    assert (Hstop5 : stop = 5 /\ exists p, r = Paused p 5 12).
    { destruct r as [p f c errs|p i t|e]; [| |destruct Hr].
      - destruct Hr as (-> & _).
        assert (5 ∈ py_range 0 12) as Hin by (apply elem_of_seqZ; lia).
        specialize (Hnop 5 Hin Hp5). congruence.
      - destruct Hr as (-> & Hlt & Hpi & Hwi & -> & _).
        destruct (Hfifth i ltac:(lia) Hpi) as [->| ->]; [eauto|].
        assert (5 ∈ py_range 0 10) as Hin by (apply elem_of_seqZ; lia).
        specialize (Hnop 5 Hin Hp5). congruence. }
    destruct Hstop5 as [-> [p ->]].
    (* the resumed run *)
    pose proof (@rag_ingest_site_catalog _ _ _ _ host2 token site_id 5
                  all_guides (store st1) Hserve) as Hsite2.
    destruct (@ingest_catalog_spec _ _ _ _ host2 token
                (default "hansaw" site_id) 5 all_guides (store st1) Hdict
                ltac:(rewrite Hlen; simpl; lia))
      as (r2 & st2 & stop2 & Hrun2 & Hstop2 & _ & Hatt2 & _ & _ & Hr2).
    cbn zeta in Hstop2, Hr2. rewrite Hlen in Hstop2, Hr2.
    change (Z.of_nat 12) with 12 in Hstop2, Hr2.
    assert (Hstop12 : stop2 = 12 /\
              exists p2 f2 c2 errs2, r2 = Completed p2 f2 c2 errs2).
    { destruct r2 as [p2 f2 c2 errs2|p2 i t|e]; [| |destruct Hr2].
      - destruct Hr2 as (-> & _). eauto 10.
      - destruct Hr2 as (-> & Hlt & Hpi & Hwi & _).
        destruct (Hfifth i ltac:(lia) Hpi) as [->| ->]; congruence. }
    destruct Hstop12 as [-> (p2 & f2 & c2 & errs2 & ->)].
    exists p, st1, p2, f2, c2, errs2, st2.
    split; [now rewrite Hsite1, Hrun|].
    split.
    { rewrite Hatt. change (py_range 0 5) with [0; 1; 2; 3; 4].
      apply filter_all_true. intros i Hi. apply Hids.
      apply list_elem_of_In in Hi. simpl in Hi. lia. }
    split; [now rewrite Hsite2, Hrun2|].
    rewrite Hatt2. change (py_range 5 12) with [5; 6; 7; 8; 9; 10; 11].
    apply filter_all_true. intros i Hi. apply Hids.
    apply list_elem_of_In in Hi. simpl in Hi. lia.
Qed.

(** *** The sample collaborators at work *)

Lemma sample_source_serves catalog token :
  @serves_catalog (Samples.source catalog) token catalog.
Proof. intros offset limit. simpl. now rewrite !Nat2Z.id. Qed.


Lemma sample_catalog_summaries n : summaries (Samples.catalog n).
Proof.
  unfold summaries, Samples.catalog. apply Forall_forall. intros g Hg.
  apply list_elem_of_In, in_map_iff in Hg as (k & <- & _). reflexivity.
Qed.

Lemma sample_catalog_12_ids i :
  0 <= i < 12 -> has_id (Samples.catalog 12) i = true.
Proof.
  intros Hi.
  assert (i = 0 \/ i = 1 \/ i = 2 \/ i = 3 \/ i = 4 \/ i = 5 \/ i = 6 \/
          i = 7 \/ i = 8 \/ i = 9 \/ i = 10 \/ i = 11) as Hcases by lia.
  destruct Hcases as [->|[->|[->|[->|[->|[->|[->|[->|[->|[->|[->| ->]]]]]]]]]]];
    reflexivity.
Qed.

(** C3, witness: a catalog of twelve guides resumed at index 5, on a host
    that shows the pause signal at the poll of index 10. *)
Lemma resumed_run_starts_at_offset_witness :
  exists r st stop,
    @rag_ingest_site Samples.runtime Samples.whole_text_splitter
      (Samples.source (Samples.catalog 12)) Samples.embedder
      (Samples.host [10]) 13 "token" None (Some 5) ∅ = Some (r, st) /\
    5 <= stop <= 12 /\
    attempts (log st)
    = List.filter (has_id (Samples.catalog 12)) (py_range 5 stop) /\
    @no_pause_seen (Samples.host [10]) (Samples.catalog 12) (py_range 5 stop).
Proof.
  destruct (@resumed_run_starts_at_offset Samples.runtime
              Samples.whole_text_splitter
              (Samples.source (Samples.catalog 12)) Samples.embedder
              (Samples.host [10]) "token" None 5 (Samples.catalog 12) ∅
              (sample_source_serves _ _) (sample_catalog_summaries 12)
              ltac:(simpl; lia))
    as (r & st & stop & Hrun & Hstop & Hatt & _ & _ & Hnop & _).
  exists r, st, stop.
  split; [exact Hrun|]. split; [exact Hstop|]. split; [exact Hatt | exact Hnop].
Defined.

(** C3, counterexample.  A guide without an id is not attempted: of the
    indices 0, 1, 2 the run from offset 0 attempts 0 and 2.  And a run that
    sees the pause signal at the poll of index 5 attempts the indices 0..4
    of a catalog of six guides, not index 5. *)
Lemma resumed_run_skips_and_pauses :
  option_map (fun out => (fst out, attempts (log (snd out))))
    (@rag_ingest_site Samples.runtime Samples.whole_text_splitter
       (Samples.source Samples.catalog_missing_id) Samples.embedder
       (Samples.host []) 4 "token" None (Some 0) ∅)
  = Some (Completed 2 0 6 [], [0; 2]) /\
  py_range 0 (Z.of_nat (length Samples.catalog_missing_id)) = [0; 1; 2] /\
  option_map (fun out => (fst out, attempts (log (snd out))))
    (@rag_ingest_site Samples.runtime Samples.whole_text_splitter
       (Samples.source (Samples.catalog 6)) Samples.embedder
       (Samples.host [5]) 7 "token" None (Some 0) ∅)
  = Some (Paused 5 5 6, [0; 1; 2; 3; 4]) /\
  py_range 0 (Z.of_nat (length (Samples.catalog 6))) = [0; 1; 2; 3; 4; 5].
Proof. repeat split; vm_compute; reflexivity. Qed.



(** C6, witness: twelve guides, the signal seen at the poll of index 5. *)
Lemma pause_polled_every_fifth_guide_witness :
  exists p st1 p2 f2 c2 errs2 st2,
    @rag_ingest_site Samples.runtime Samples.whole_text_splitter
      (Samples.source (Samples.catalog 12)) Samples.embedder
      (Samples.host [5]) 13 "token" None (Some 0) ∅
    = Some (Paused p 5 12, st1) /\
    attempts (log st1) = [0; 1; 2; 3; 4] /\
    @rag_ingest_site Samples.runtime Samples.whole_text_splitter
      (Samples.source (Samples.catalog 12)) Samples.embedder
      (Samples.host []) 13 "token" None (Some 5) (store st1)
    = Some (Completed p2 f2 c2 errs2, st2) /\
    attempts (log st2) = [5; 6; 7; 8; 9; 10; 11].
Proof.
  apply (proj2 (@pause_polled_every_fifth_guide Samples.runtime
                  Samples.whole_text_splitter
                  (Samples.source (Samples.catalog 12)) Samples.embedder)
           (Samples.host [5]) (Samples.host []) "token" None
           (Samples.catalog 12) ∅
           (sample_source_serves _ _) (sample_catalog_summaries 12)
           eq_refl sample_catalog_12_ids eq_refl eq_refl eq_refl).
Defined.

(** * Further properties of the code *)

(** ** Sections and chunks (data_loader.py) *)

Lemma chars_no_urls s : omap original_url (chars s) = [].
Proof.
  unfold chars. induction (list_ascii_of_string s) as [|c l IH];
    [reflexivity | exact IH].
Qed.

Lemma keys_no_urls (kv : pydict) :
  omap original_url (map (fun p => JStr (fst p)) kv) = [].
Proof. induction kv as [|p kv IH]; [reflexivity | exact IH]. Qed.

Lemma steps_images_loop_closed steps sections_images r :
  steps_images_loop steps sections_images = Ok r ->
  r = sections_images ++ map step_urls steps.
Proof.
  revert sections_images. induction steps as [|step rest IH]; intros acc Hr.
  - injection Hr as <-. simpl. now rewrite app_nil_r.
  - cbn [steps_images_loop] in Hr.
    destruct step as [| | | | |s]; try discriminate.
    run_res_in Hr. cbn [map].
    assert (Hstep : forall imgs,
              steps_images_loop rest (acc ++ [imgs]) = Ok r ->
              imgs = step_urls (JDict s) ->
              r = acc ++ step_urls (JDict s) :: map step_urls rest).
    { intros imgs Hloop ->. apply IH in Hloop. rewrite Hloop.
      now rewrite <- app_assoc. }
    destruct (dict_get s "media" JNull) as [|b|n|x|l|m] eqn:Hmedia.
    + cbn in Hr. apply (Hstep _ Hr). cbn [step_urls]. now rewrite Hmedia.
    + destruct b; cbn in Hr; apply (Hstep _ Hr); cbn [step_urls];
        now rewrite Hmedia.
    + unfold py_or in Hr. destruct (truthy (JNum n)); cbn in Hr;
        apply (Hstep _ Hr); cbn [step_urls]; now rewrite Hmedia.
    + unfold py_or in Hr. destruct (truthy (JStr x)); cbn in Hr;
        apply (Hstep _ Hr); cbn [step_urls]; now rewrite Hmedia.
    + unfold py_or in Hr. destruct (truthy (JList l)); cbn in Hr;
        apply (Hstep _ Hr); cbn [step_urls]; now rewrite Hmedia.
    + assert (Hor : py_or (JDict m) (JDict []) = JDict m)
        by (destruct m; reflexivity).
      rewrite Hor in Hr.
      destruct (eq_str (dict_get m "type" JNull) "image") eqn:Htype.
      2:{ rewrite bind_Ok in Hr. apply (Hstep _ Hr). cbn [step_urls].
          now rewrite Hmedia, Htype. }
      destruct (dict_get m "data" JNull) as [|b|n|x|items|kv] eqn:Hdata;
        unfold py_or in Hr; cbn [truthy] in Hr.
      * run_res_in Hr. apply (Hstep _ Hr). cbn [step_urls].
        now rewrite Hmedia, Htype, Hdata.
      * destruct b; [discriminate|].
        run_res_in Hr. apply (Hstep _ Hr). cbn [step_urls].
        now rewrite Hmedia, Htype, Hdata.
      * destruct (negb (n =? 0)); [discriminate|].
        run_res_in Hr. apply (Hstep _ Hr). cbn [step_urls].
        now rewrite Hmedia, Htype, Hdata.
      * destruct (negb (String.eqb x "")); run_res_in Hr;
          apply (Hstep _ Hr); cbn [step_urls];
          rewrite Hmedia, Htype, Hdata; [|reflexivity].
        rewrite media_items_loop_original. apply chars_no_urls.
      * destruct items as [|item items]; run_res_in Hr;
          apply (Hstep _ Hr); cbn [step_urls];
          rewrite Hmedia, Htype, Hdata; [reflexivity|].
        now rewrite media_items_loop_original.
      * destruct kv as [|p kv]; run_res_in Hr; apply (Hstep _ Hr);
          cbn [step_urls]; rewrite Hmedia, Htype, Hdata; [reflexivity|].
        rewrite media_items_loop_original.
        apply (keys_no_urls (p :: kv)).
Qed.

(** X1.  The image list of a guide follows the sections: an empty list for
    the header, the introduction, the conclusion, the parts and the tools,
    and for every step the original URLs of its image media. *)
Theorem only_steps_carry_images d imgs :
  extract_guide_images (JDict d) = Ok imgs ->
  exists intro steps conc,
    py_strip (dict_get d "introduction_rendered" (JStr "")) = Ok intro /\
    py_iter (dict_get d "steps" (JList [])) = Ok steps /\
    py_strip (dict_get d "conclusion_rendered" (JStr "")) = Ok conc /\
    imgs = [[]]
      ++ optional_section (truthy (JStr intro)) []
      ++ map step_urls steps
      ++ optional_section (truthy (JStr conc)) []
      ++ optional_section (truthy (dict_get d "parts" (JList []))) []
      ++ optional_section (truthy (dict_get d "tools" (JList []))) [].
Proof.
  unfold extract_guide_images. intros Hi. run_res_in Hi.
  destruct (py_strip (dict_get d "introduction_rendered" (JStr "")))
    as [intro|e]; [|discriminate].
  run_res_in Hi.
  destruct (py_iter (dict_get d "steps" (JList []))) as [steps|e];
    [|discriminate].
  run_res_in Hi.
  match type of Hi with
  | (steps_images_loop steps ?a ≫= _) = _ =>
      destruct (steps_images_loop steps a) as [is1|e] eqn:His1; [|discriminate]
  end.
  run_res_in Hi. apply steps_images_loop_closed in His1. subst is1.
  destruct (py_strip (dict_get d "conclusion_rendered" (JStr "")))
    as [conc|e]; [|discriminate].
  run_res_in Hi. injection Hi as <-.
  exists intro, steps, conc. repeat split.
  unfold optional_section. cbn [truthy].
  destruct (negb (String.eqb intro "")), (negb (String.eqb conc "")),
    (truthy (dict_get d "parts" (JList []))),
    (truthy (dict_get d "tools" (JList [])));
    cbn [app]; rewrite <- ?app_assoc, ?app_nil_r; cbn [app]; reflexivity.
Qed.

Lemma only_steps_carry_images_witness :
  exists intro steps conc,
    py_strip (dict_get
                [("steps", JList [Samples.step1]);
                 ("conclusion_rendered", JStr " Done. ")]
                "introduction_rendered" (JStr "")) = Ok intro /\
    py_iter (JList [Samples.step1]) = Ok steps /\
    py_strip (JStr " Done. ") = Ok conc /\
    [[]; [JStr "https://cdn.example/1.original?sig=abc"]; []]
    = [[]] ++ optional_section (truthy (JStr intro)) []
      ++ map step_urls steps
      ++ optional_section (truthy (JStr conc)) []
      ++ optional_section (truthy (JList [])) []
      ++ optional_section (truthy (JList [])) [].
Proof.
  apply (only_steps_carry_images
           [("steps", JList [Samples.step1]);
            ("conclusion_rendered", JStr " Done. ")]
           [[]; [JStr "https://cdn.example/1.original?sig=abc"]; []]).
  reflexivity.
Defined.

Section MoreChunkingFacts.
Context `{Runtime} `{Splitter} `{ContentSource}.

(** X2.  The text sections of a guide are the header, the introduction if
    it is not blank, one section for every step, whatever the step holds,
    the conclusion if it is not blank, and the parts and the tools if there
    are any; the image sections are equally many. *)
Theorem every_step_is_a_section d ts :
  extract_guide_text (JDict d) = Ok ts ->
  exists intro steps conc,
    py_strip (dict_get d "introduction_rendered" (JStr "")) = Ok intro /\
    py_iter (dict_get d "steps" (JList [])) = Ok steps /\
    py_strip (dict_get d "conclusion_rendered" (JStr "")) = Ok conc /\
    length ts
    = (1 + Nat.b2n (truthy (JStr intro)) + length steps
       + Nat.b2n (truthy (JStr conc))
       + Nat.b2n (truthy (dict_get d "parts" (JList [])))
       + Nat.b2n (truthy (dict_get d "tools" (JList []))))%nat /\
    forall imgs, extract_guide_images (JDict d) = Ok imgs ->
                 length imgs = length ts.
Proof.
  intros Ht.
  assert (Hal : forall imgs, extract_guide_images (JDict d) = Ok imgs ->
                  length imgs = length ts).
  { intros imgs Hi. symmetry. now apply (sections_aligned (JDict d)). }
  unfold extract_guide_text in Ht. run_res_in Ht.
  destruct (py_strip (dict_get d "introduction_rendered" (JStr "")))
    as [intro|e]; [|discriminate].
  run_res_in Ht.
  destruct (py_iter (dict_get d "steps" (JList []))) as [steps|e];
    [|discriminate].
  run_res_in Ht.
  match type of Ht with
  | (steps_text_loop steps ?a ≫= _) = _ =>
      destruct (steps_text_loop steps a) as [ts1|e] eqn:Hts1; [|discriminate]
  end.
  run_res_in Ht. apply steps_text_loop_length in Hts1.
  destruct (py_strip (dict_get d "conclusion_rendered" (JStr "")))
    as [conc|e]; [|discriminate].
  run_res_in Ht.
  match type of Ht with
  | (bullet_section ?t ?i ?a ≫= _) = _ =>
      destruct (bullet_section t i a) as [ts2|e] eqn:Hts2; [|discriminate]
  end.
  run_res_in Ht.
  apply bullet_section_length in Hts2. apply bullet_section_length in Ht.
  exists intro, steps, conc. repeat split; [|exact Hal].
  rewrite Ht. clear Ht Hal. cbn [truthy] in *.
  destruct (negb (String.eqb intro "")), (negb (String.eqb conc "")),
    (truthy (dict_get d "parts" (JList []))),
    (truthy (dict_get d "tools" (JList [])));
    repeat rewrite ?length_app in *; simpl in *; lia.
Qed.

Lemma parts_loop_fst parts images acc :
  fst (parts_loop parts images acc) = fst acc ++ parts.
Proof.
  revert acc. induction parts as [|part rest IH]; intros acc.
  - simpl. now rewrite app_nil_r.
  - cbn [parts_loop]. rewrite IH. cbn [fst]. now rewrite <- app_assoc.
Qed.

Lemma media_chunk_loop_fst text_sections idx image_sections acc :
  fst (media_chunk_loop idx text_sections image_sections acc)
  = chunk_loop text_sections (fst acc).
Proof.
  revert idx acc. induction text_sections as [|section rest IH];
    intros idx acc; [reflexivity|].
  cbn [media_chunk_loop chunk_loop]. rewrite IH.
  destruct (exceeds_chunk_size section); [|reflexivity].
  now rewrite parts_loop_fst.
Qed.

(** X3.  The chunk texts of [load_and_chunk_guide_with_media] are those of
    [load_and_chunk_guide]: pairing the chunks with images changes neither
    their number, their order nor their text. *)
Theorem media_chunks_are_the_plain_chunks guide_id token chunks imgs meta :
  load_and_chunk_guide_with_media guide_id token = Ok (chunks, imgs, meta) ->
  load_and_chunk_guide guide_id token = Ok chunks.
Proof.
  unfold load_and_chunk_guide_with_media, load_and_chunk_guide.
  destruct (fetch_guide guide_id token) as [doc|e]; [|discriminate].
  run_res. destruct (extract_guide_text doc) as [ts|e] eqn:Ht; [|discriminate].
  run_res.
  destruct (extract_guide_images doc) as [is1|e] eqn:Hi; [|discriminate].
  run_res. pose proof (sections_aligned doc ts is1 Ht Hi) as Hal.
  rewrite <- Hal, Nat.min_id.
  rewrite (take_ge ts) by lia. rewrite (take_ge is1) by lia.
  pose proof (media_chunk_loop_fst ts 0%nat is1 ([], [])) as Hfst.
  destruct (media_chunk_loop 0 ts is1 ([], [])) as [cs ci].
  intros [= <- <- <-]. cbn [fst] in Hfst. now rewrite Hfst.
Qed.

Lemma chunk_loop_short text_sections chunks :
  Forall (fun s => exceeds_chunk_size s = false) text_sections ->
  chunk_loop text_sections chunks = chunks ++ text_sections.
Proof.
  revert chunks. induction text_sections as [|section rest IH];
    intros acc Hs.
  - simpl. now rewrite app_nil_r.
  - apply Forall_cons in Hs as [Hsec Hrest]. cbn [chunk_loop].
    rewrite Hsec, IH by exact Hrest. now rewrite <- app_assoc.
Qed.

Lemma media_chunk_loop_short text_sections :
  forall idx image_sections acc,
  Forall (fun s => exceeds_chunk_size s = false) text_sections ->
  (idx + length text_sections <= length image_sections)%nat ->
  media_chunk_loop idx text_sections image_sections acc
  = (fst acc ++ text_sections,
     snd acc ++ take (length text_sections) (drop idx image_sections)).
Proof.
  induction text_sections as [|section rest IH];
    intros idx image_sections acc Hs Hlen.
  - simpl. rewrite !app_nil_r. now destruct acc.
  - apply Forall_cons in Hs as [Hsec Hrest]. simpl in Hlen.
    cbn [media_chunk_loop]. rewrite Hsec.
    destruct (lookup_lt_is_Some_2 image_sections idx ltac:(lia))
      as [images Himages].
    rewrite (drop_S _ _ _ Himages).
    assert (Hnth : (if (idx <? length image_sections)%nat
                    then nth idx image_sections [] else []) = images).
    { destruct (Nat.ltb_spec idx (length image_sections)); [|lia].
      now apply nth_lookup_Some. }
    rewrite Hnth, copy_images_eq, (IH (S idx)) by (assumption || lia).
    cbn [fst snd length take]. now rewrite <- !app_assoc.
Qed.

(** X4.  A guide none of whose sections exceeds 1000 characters is returned
    section by section, whatever the splitter would do: the chunks are the
    sections, unchanged and in order, and the image lists are those of the
    sections. *)
Theorem short_sections_are_kept_whole guide_id token doc ts imgs :
  fetch_guide guide_id token = Ok doc ->
  extract_guide_text doc = Ok ts ->
  extract_guide_images doc = Ok imgs ->
  Forall (fun s => (String.length s <= 1000)%nat) ts ->
  load_and_chunk_guide guide_id token = Ok ts /\
  exists meta,
    load_and_chunk_guide_with_media guide_id token = Ok (ts, imgs, meta).
Proof.
  intros Hf Ht Hi Hshort.
  assert (Hs : Forall (fun s => exceeds_chunk_size s = false) ts).
  { eapply Forall_impl; [exact Hshort|]. intros s Hsl. cbn beta in Hsl.
    unfold exceeds_chunk_size. apply Nat.ltb_ge. exact Hsl. }
  pose proof (sections_aligned doc ts imgs Ht Hi) as Hal.
  split.
  - unfold load_and_chunk_guide. rewrite Hf, bind_Ok, Ht, bind_Ok.
    now rewrite chunk_loop_short.
  - unfold load_and_chunk_guide_with_media.
    rewrite Hf, bind_Ok, Ht, bind_Ok, Hi, bind_Ok.
    rewrite <- Hal, Nat.min_id.
    rewrite (take_ge ts) by lia. rewrite (take_ge imgs) by lia.
    rewrite media_chunk_loop_short by (assumption || simpl; lia).
    cbn [fst snd app]. rewrite drop_0, (take_ge imgs) by lia. eauto.
Qed.

End MoreChunkingFacts.

Lemma every_step_is_a_section_witness :
  exists intro steps conc,
    py_strip (dict_get [("steps", JList [JDict []; JDict []])]
                "introduction_rendered" (JStr "")) = Ok intro /\
    py_iter (JList [JDict []; JDict []]) = Ok steps /\
    py_strip (JStr "") = Ok conc /\
    length ["Guide: " +:+ nl +:+ "Category: " +:+ nl +:+ "Difficulty: "
            +:+ nl +:+ "Summary: ";
            "Step : " +:+ nl; "Step : " +:+ nl]
    = (1 + Nat.b2n (truthy (JStr intro)) + length steps
       + Nat.b2n (truthy (JStr conc)) + 0 + 0)%nat /\
    forall imgs,
      extract_guide_images (JDict [("steps", JList [JDict []; JDict []])])
      = Ok imgs ->
      length imgs = 3%nat.
Proof.
  apply (@every_step_is_a_section Samples.runtime
           [("steps", JList [JDict []; JDict []])]
           ["Guide: " +:+ nl +:+ "Category: " +:+ nl +:+ "Difficulty: "
            +:+ nl +:+ "Summary: ";
            "Step : " +:+ nl; "Step : " +:+ nl]).
  reflexivity.
Defined.

Lemma media_chunks_are_the_plain_chunks_witness :
  @load_and_chunk_guide Samples.runtime Samples.whole_text_splitter
    Samples.long_source (JNum 1) "token"
  = Ok ["Guide: Saw" +:+ nl +:+ "Category: " +:+ nl +:+ "Difficulty: "
        +:+ nl +:+ "Summary: ";
        "Introduction:" +:+ nl +:+ Samples.long_section].
Proof.
  apply (@media_chunks_are_the_plain_chunks Samples.runtime
           Samples.whole_text_splitter Samples.long_source (JNum 1) "token"
           _ [[]; []] {| guide_title := Some "Saw"; guide_url := None |}).
  vm_compute. reflexivity.
Defined.

Lemma short_sections_are_kept_whole_witness :
  @load_and_chunk_guide Samples.runtime Samples.whole_text_splitter
    (Samples.source []) (JNum 1) "token"
  = Ok ["Guide: Saw" +:+ nl +:+ "Category: Tools" +:+ nl +:+ "Difficulty: "
        +:+ nl +:+ "Summary: ";
        "Introduction:" +:+ nl +:+ "Read first.";
        "Step 1: Remove the cover" +:+ nl +:+ "- Unscrew it." +:+ nl].
Proof.
  apply (@short_sections_are_kept_whole Samples.runtime
           Samples.whole_text_splitter (Samples.source []) (JNum 1) "token"
           Samples.guide _
           [[]; []; [JStr "https://cdn.example/1.original?sig=abc"]]
           eq_refl eq_refl eq_refl).
  repeat constructor; vm_compute; discriminate.
Defined.

(** ** Embedding and the vector index (data_loader.py, vector_db.py) *)

Lemma embed_loop_spec `{Embedder} texts embeddings :
  match embed_loop texts embeddings with
  | Ok r =>
      exists vecs, r = embeddings ++ vecs /\
                   Forall2 (fun t v => invoke_model t = Ok v) texts vecs
  | Raise e =>
      exists before t after,
        texts = before ++ t :: after /\
        Forall (fun t' => exists v, invoke_model t' = Ok v) before /\
        invoke_model t = Raise e
  end.
Proof.
  revert embeddings. induction texts as [|t rest IH]; intros acc.
  - simpl. exists []. split; [now rewrite app_nil_r | constructor].
  - cbn [embed_loop]. destruct (invoke_model t) as [v|e] eqn:Ht.
    + rewrite bind_Ok. specialize (IH (acc ++ [v])).
      destruct (embed_loop rest (acc ++ [v])) as [r|e].
      * destruct IH as (vecs & -> & Hall). exists (v :: vecs).
        split; [now rewrite <- app_assoc | now constructor].
      * destruct IH as (before & t' & after & -> & Hb & Ht').
        exists (t :: before), t', after.
        split; [reflexivity|]. split; [constructor; eauto | exact Ht'].
    + rewrite bind_Raise. exists [], t, rest.
      split; [reflexivity|]. split; [constructor | exact Ht].
Qed.

(** X5.  [embed_texts] returns one vector per text, in order: when it
    returns, the i-th vector is the provider's answer for the i-th text;
    when it raises, it raises the error of the first text the provider
    fails on, after the provider answered all texts before it. *)
Theorem embed_texts_one_vector_per_text `{Embedder} texts :
  match embed_texts texts with
  | Ok vecs => Forall2 (fun t v => invoke_model t = Ok v) texts vecs
  | Raise e =>
      exists before t after,
        texts = before ++ t :: after /\
        Forall (fun t' => exists v, invoke_model t' = Ok v) before /\
        invoke_model t = Raise e
  end.
Proof.
  unfold embed_texts. pose proof (embed_loop_spec texts []) as Hs.
  destruct (embed_loop texts []) as [r|e]; [|exact Hs].
  destruct Hs as (vecs & -> & Hall). exact Hall.
Qed.

Lemma client_upsert_other points idx k :
  k ∉ point_id <$> points -> client_upsert idx points !! k = idx !! k.
Proof.
  unfold client_upsert. revert idx.
  induction points as [|p rest IH]; intros idx Hk; [reflexivity|].
  cbn [foldl]. rewrite IH by (intros Hin; apply Hk; now right).
  apply lookup_insert_ne. intros Heq. apply Hk. rewrite <- Heq. now left.
Qed.

Lemma client_upsert_written points idx p :
  NoDup (point_id <$> points) -> p ∈ points ->
  client_upsert idx points !! point_id p
  = Some (point_vector p, point_payload p).
Proof.
  revert idx. induction points as [|q rest IH]; intros idx Hnd Hp;
    [inversion Hp|].
  cbn [fmap list_fmap] in Hnd. apply NoDup_cons in Hnd as [Hq Hnd].
  change (client_upsert idx (q :: rest))
    with (client_upsert
            (<[point_id q := (point_vector q, point_payload q)]> idx) rest).
  apply elem_of_cons in Hp as [->|Hp].
  - rewrite client_upsert_other by exact Hq. apply lookup_insert_eq.
  - now apply IH.
Qed.

Lemma upsert_points ids vectors payloads idx :
  (length ids <= length vectors)%nat ->
  (length ids <= length payloads)%nat ->
  upsert ids vectors payloads idx
  = Ok (client_upsert idx
          (map (fun i => {| point_id := nth i ids "";
                            point_vector := nth i vectors [];
                            point_payload := nth i payloads [] |})
             (range (length ids)))).
Proof.
  intros Hv Hp. unfold upsert.
  rewrite (list_comp_map _
    (fun i => {| point_id := nth i ids "";
                 point_vector := nth i vectors [];
                 point_payload := nth i payloads [] |})); [reflexivity|].
  intros i Hi. apply elem_of_seq in Hi.
  rewrite (index_list_nth ids i "") by lia.
  rewrite bind_Ok, (index_list_nth vectors i []) by lia.
  rewrite bind_Ok, (index_list_nth payloads i []) by lia.
  reflexivity.
Qed.

Lemma list_comp_raise {A} (f : nat -> res A) e indices :
  (exists i, i ∈ indices /\ f i = Raise e) ->
  (forall i e', i ∈ indices -> f i = Raise e' -> e' = e) ->
  list_comp f indices = Raise e.
Proof.
  induction indices as [|i rest IH]; intros (j & Hj & Hfj) Hall.
  - inversion Hj.
  - cbn [list_comp]. destruct (f i) as [x|e'] eqn:Hfi.
    + rewrite bind_Ok, IH; [reflexivity | |].
      * apply elem_of_cons in Hj as [->|Hj]; [congruence | eauto].
      * intros k e' Hk. apply Hall. now right.
    + rewrite bind_Raise. f_equal. eapply Hall; [now left | exact Hfi].
Qed.

(** The comprehension of [upsert] raises [IndexError], and nothing else,
    exactly when one of the two lists is shorter than the list of ids. *)
Lemma upsert_cases ids vectors payloads idx :
  match upsert ids vectors payloads idx with
  | Ok _ =>
      (length ids <= length vectors)%nat /\
      (length ids <= length payloads)%nat
  | Raise e =>
      e = IndexError /\
      ((length vectors < length ids)%nat \/
       (length payloads < length ids)%nat)
  end.
Proof.
  destruct (le_lt_dec (length ids) (length vectors)) as [Hv|Hv];
    [destruct (le_lt_dec (length ids) (length payloads)) as [Hp|Hp]|].
  - rewrite upsert_points by assumption. split; assumption.
  - unfold upsert. rewrite (list_comp_raise _ IndexError).
    + rewrite bind_Raise. auto.
    + exists (length payloads). split; [apply elem_of_seq; lia|].
      rewrite (index_list_nth ids _ "") by lia.
      rewrite bind_Ok, (index_list_nth vectors _ []) by lia.
      rewrite bind_Ok. unfold index_list.
      now rewrite (lookup_ge_None_2 payloads) by lia.
    + intros i e' _. unfold index_list.
      destruct (ids !! i); [rewrite bind_Ok | now intros [= <-]].
      destruct (vectors !! i); [rewrite bind_Ok | now intros [= <-]].
      destruct (payloads !! i); [discriminate | now intros [= <-]].
  - unfold upsert. rewrite (list_comp_raise _ IndexError).
    + rewrite bind_Raise. auto.
    + exists (length vectors). split; [apply elem_of_seq; lia|].
      rewrite (index_list_nth ids _ "") by lia.
      rewrite bind_Ok. unfold index_list.
      now rewrite (lookup_ge_None_2 vectors) by lia.
    + intros i e' _. unfold index_list.
      destruct (ids !! i); [rewrite bind_Ok | now intros [= <-]].
      destruct (vectors !! i); [rewrite bind_Ok | now intros [= <-]].
      destruct (payloads !! i); [discriminate | now intros [= <-]].
Qed.

(** X6.  Writing and reading back.  After a successful [upsert] of
    pairwise different ids of the form [str(uuid)] gives, the index holds
    under the i-th id the i-th vector and the i-th payload, and every point
    with another such id is as before. *)
Theorem upsert_then_lookup ids vectors payloads idx idx' :
  upsert ids vectors payloads idx = Ok idx' ->
  Forall (fun id => canonical_uuid id = true) ids ->
  NoDup ids ->
  (forall i id, ids !! i = Some id ->
     exists v p, vectors !! i = Some v /\ payloads !! i = Some p /\
                 idx' !! id = Some (v, p)) /\
  (forall k, canonical_uuid k = true -> k ∉ ids -> idx' !! k = idx !! k).
Proof.
  intros Hup _ Hnd.
  pose proof (upsert_cases ids vectors payloads idx) as Hcases.
  rewrite Hup in Hcases. destruct Hcases as [Hv Hp].
  rewrite upsert_points in Hup by assumption. injection Hup as <-.
  set (mk := fun i => {| point_id := nth i ids "";
                         point_vector := nth i vectors [];
                         point_payload := nth i payloads [] |}).
  assert (Hids : point_id <$> map mk (range (length ids)) = ids).
  { change (?f <$> ?k) with (map f k). rewrite map_map. cbn [mk point_id].
    apply map_nth_range. }
  split.
  - intros i id Hi.
    pose proof (lookup_lt_Some _ _ _ Hi) as Hlt.
    destruct (lookup_lt_is_Some_2 vectors i ltac:(lia)) as [v Hvi].
    destruct (lookup_lt_is_Some_2 payloads i ltac:(lia)) as [p Hpi].
    exists v, p. split; [exact Hvi|]. split; [exact Hpi|].
    assert (Hin : mk i ∈ map mk (range (length ids))).
    { apply list_elem_of_In, in_map, list_elem_of_In, elem_of_seq. lia. }
    pose proof (client_upsert_written _ idx (mk i)
                  ltac:(rewrite Hids; exact Hnd) Hin) as Hw.
    cbn [mk point_id point_vector point_payload] in Hw.
    rewrite (nth_lookup_Some _ _ "" _ Hi) in Hw.
    rewrite Hw. f_equal. f_equal; now apply nth_lookup_Some.
  - intros k _ Hk. apply client_upsert_other. now rewrite Hids.
Qed.

Lemma upsert_then_lookup_witness :
  exists idx' : index,
    upsert ["6ba7b810-9dad-11d1-80b4-00c04fd430c8";
            "6ba7b811-9dad-11d1-80b4-00c04fd430c8"]
      [[1%Q]; [2%Q]] [[("text", JStr "x")]; []] ∅ = Ok idx' /\
    idx' !! "6ba7b811-9dad-11d1-80b4-00c04fd430c8" = Some ([2%Q], []).
Proof.
  destruct (upsert ["6ba7b810-9dad-11d1-80b4-00c04fd430c8";
                    "6ba7b811-9dad-11d1-80b4-00c04fd430c8"]
              [[1%Q]; [2%Q]] [[("text", JStr "x")]; []] ∅)
    as [idx'|e] eqn:Hup; [|discriminate Hup].
  destruct (upsert_then_lookup _ _ _ _ idx' Hup
              ltac:(repeat constructor)
              ltac:(repeat constructor; set_solver))
    as [Hget _].
  exists idx'. split; [reflexivity|].
  destruct (Hget 1%nat _ eq_refl) as (v & p & Hv & Hp & Hidx).
  injection Hv as <-. injection Hp as <-. exact Hidx.
Defined.

(** X7.  [upsert] needs a vector and a payload for every id.  For ids of
    the form [str(uuid)] gives, a list of vectors or of payloads that is
    shorter than the list of ids makes the comprehension raise [IndexError],
    before anything is sent to the service; so an [upsert] that succeeds had
    a vector and a payload for every id. *)
Theorem upsert_needs_vector_and_payload ids vectors payloads idx :
  Forall (fun id => canonical_uuid id = true) ids ->
  ((length vectors < length ids)%nat \/ (length payloads < length ids)%nat ->
   upsert ids vectors payloads idx = Raise IndexError) /\
  (forall idx', upsert ids vectors payloads idx = Ok idx' ->
     (length ids <= length vectors)%nat /\
     (length ids <= length payloads)%nat).
Proof.
  intros _.
  pose proof (upsert_cases ids vectors payloads idx) as Hcases.
  destruct (upsert ids vectors payloads idx) as [idx1|e].
  - split; [lia|]. intros idx' _. exact Hcases.
  - destruct Hcases as [-> _]. split; [reflexivity | discriminate].
Qed.

Lemma upsert_needs_vector_and_payload_witness :
  upsert ["6ba7b810-9dad-11d1-80b4-00c04fd430c8";
          "6ba7b811-9dad-11d1-80b4-00c04fd430c8"]
    [[1%Q]] [[]; []] ∅ = Raise IndexError.
Proof.
  apply (proj1 (upsert_needs_vector_and_payload
                  ["6ba7b810-9dad-11d1-80b4-00c04fd430c8";
                   "6ba7b811-9dad-11d1-80b4-00c04fd430c8"]
                  [[1%Q]] [[]; []] ∅ ltac:(repeat constructor))).
  left. simpl. lia.
Defined.




(** ** Retrieval (vector_db.py) *)

Section MoreSearchFacts.
Context `{Runtime}.

Lemma search_step_without_text r a :
  has_text r = false -> search_step r a = Ok a.
Proof.
  unfold has_text, payload_of, search_step. cbn zeta. now intros ->.
Qed.

Lemma search_step_with_text r a a' :
  has_text r = true -> search_step r a = Ok a' ->
  acc_contexts a' = acc_contexts a ++ [point_text r] /\
  map gi_source (acc_guide_info a')
  = map gi_source (acc_guide_info a) ++ [point_source r] /\
  map gi_guide_id (acc_guide_info a')
  = map gi_guide_id (acc_guide_info a) ++ [point_guide_id r] /\
  set_add (point_source r) (acc_sources a) = Ok (acc_sources a') /\
  (if truthy (point_guide_id r)
   then set_add (point_guide_id r) (acc_guide_ids a)
   else Ok (acc_guide_ids a)) = Ok (acc_guide_ids a').
Proof.
  unfold has_text, point_text, point_source, point_guide_id, payload_of,
    search_step.
  cbn zeta. intros ->.
  destruct (set_add _ (acc_sources a)) as [s'|e]; [|discriminate].
  rewrite bind_Ok.
  match goal with
  | |- (?c ≫= _) = _ -> _ => destruct c as [g'|e]
  end; [|discriminate].
  rewrite bind_Ok. intros [= <-]. cbn. rewrite !map_app. cbn. auto.
Qed.

Lemma search_loop_filter results a :
  search_loop (List.filter has_text results) a = search_loop results a.
Proof.
  revert a. induction results as [|r rest IH]; intros a; [reflexivity|].
  cbn [List.filter search_loop]. destruct (has_text r) eqn:Hr.
  - cbn [search_loop]. destruct (search_step r a); [|reflexivity].
    rewrite !bind_Ok. apply IH.
  - rewrite (search_step_without_text r a Hr), bind_Ok. apply IH.
Qed.

Lemma set_add_holds x s s' xs :
  set_holds s xs -> set_add x s = Ok s' -> set_holds s' (xs ++ [x]).
Proof.
  intros [Hin Hall]. unfold set_add.
  destruct (py_hash_key x) as [k|] eqn:Hk; [|discriminate].
  destruct (s !! k) as [v|] eqn:Hsk; intros [= <-]; split.
  - intros k' v' Hv'. destruct (Hin _ _ Hv') as [Hm Hkey].
    split; [apply elem_of_app; now left | exact Hkey].
  - intros y Hy. apply elem_of_app in Hy as [Hy|Hy]; [now apply Hall|].
    apply list_elem_of_singleton in Hy as ->. exists k. eauto.
  - intros k' v'. rewrite lookup_insert. case_decide as Hkk.
    + subst k'. intros [= <-]. split; [|exact Hk].
      apply elem_of_app. right. now apply list_elem_of_singleton.
    + intros Hv'. destruct (Hin _ _ Hv') as [Hm Hkey].
      split; [apply elem_of_app; now left | exact Hkey].
  - intros y Hy. apply elem_of_app in Hy as [Hy|Hy].
    + destruct (Hall y Hy) as (k' & Hk' & Hsome). exists k'.
      split; [exact Hk'|]. rewrite lookup_insert. case_decide; eauto.
    + apply list_elem_of_singleton in Hy as ->. exists k.
      split; [exact Hk|]. rewrite lookup_insert_eq. eauto.
Qed.

Lemma search_loop_closed results :
  forall a a' xs gs,
  search_loop results a = Ok a' ->
  set_holds (acc_sources a) xs -> set_holds (acc_guide_ids a) gs ->
  let kept := List.filter has_text results in
  acc_contexts a' = acc_contexts a ++ map point_text kept /\
  map gi_source (acc_guide_info a')
  = map gi_source (acc_guide_info a) ++ map point_source kept /\
  map gi_guide_id (acc_guide_info a')
  = map gi_guide_id (acc_guide_info a) ++ map point_guide_id kept /\
  set_holds (acc_sources a') (xs ++ map point_source kept) /\
  set_holds (acc_guide_ids a')
    (gs ++ List.filter truthy (map point_guide_id kept)).
Proof.
  induction results as [|r rest IH]; intros a a' xs gs Hloop Hs Hg; cbn zeta.
  - injection Hloop as <-. cbn. rewrite !app_nil_r. auto.
  - cbn [search_loop] in Hloop.
    destruct (search_step r a) as [a1|e] eqn:Hstep; [|discriminate].
    rewrite bind_Ok in Hloop. cbn [List.filter].
    destruct (has_text r) eqn:Hr.
    + destruct (search_step_with_text r a a1 Hr Hstep)
        as (Hc & Hgs & Hgi & Hadd & Haddg).
      pose proof (set_add_holds _ _ _ _ Hs Hadd) as Hs1.
      assert (Hg1 : set_holds (acc_guide_ids a1)
                      (gs ++ List.filter truthy [point_guide_id r])).
      { cbn [List.filter]. destruct (truthy (point_guide_id r)).
        - now apply (set_add_holds _ _ _ _ Hg).
        - injection Haddg as <-. now rewrite app_nil_r. }
      destruct (IH a1 a' _ _ Hloop Hs1 Hg1) as (H1 & H2 & H3 & H4 & H5).
      cbn zeta in *. cbn [map].
      rewrite H1, H2, H3, Hc, Hgs, Hgi. rewrite <- !app_assoc.
      split; [reflexivity|]. split; [reflexivity|].
      split; [reflexivity|]. split.
      * now rewrite <- app_assoc in H4.
      * rewrite <- app_assoc in H5. cbn [List.filter app] in *.
        destruct (truthy (point_guide_id r)); exact H5.
    + rewrite (search_step_without_text r a Hr) in Hstep.
      injection Hstep as <-. now apply IH.
Qed.

Lemma set_holds_empty : set_holds ∅ [].
Proof.
  split; [intros k v Hk; now rewrite lookup_empty in Hk|].
  intros x Hx. inversion Hx.
Qed.

Lemma elem_of_set_to_list s x :
  x ∈ set_to_list s <-> exists k, s !! k = Some x.
Proof.
  unfold set_to_list. rewrite list_elem_of_fmap. split.
  - intros ([k v] & -> & Hin). apply elem_of_map_to_list in Hin. eauto.
  - intros [k Hk]. exists (k, x). split; [reflexivity|].
    now apply elem_of_map_to_list.
Qed.

(** X9.  The aggregation keeps exactly the points that have a text, in the
    order of the batch: [contexts] are their texts, and [guide_info] names,
    entry by entry, their sources and guide ids.  A point without text
    leaves no trace: removing it from the batch changes nothing. *)
Theorem search_keeps_points_with_text results :
  search_aggregate (List.filter has_text results) = search_aggregate results /\
  forall r, search_aggregate results = Ok r ->
    let kept := List.filter has_text results in
    contexts r = map point_text kept /\
    map gi_source (guide_info r) = map point_source kept /\
    map gi_guide_id (guide_info r) = map point_guide_id kept /\
    Forall (fun c => truthy c = true) (contexts r).
Proof.
  split.
  - unfold search_aggregate. now rewrite search_loop_filter.
  - intros r Hr. cbn zeta. unfold search_aggregate in Hr.
    match type of Hr with
    | (search_loop results ?a0 ≫= _) = _ =>
        destruct (search_loop results a0) as [a|e] eqn:Hloop; [|discriminate];
        destruct (search_loop_closed results a0 a [] [] Hloop
                    set_holds_empty set_holds_empty)
          as (Hc & Hs & Hg & _)
    end.
    rewrite bind_Ok in Hr. injection Hr as <-.
    cbn in *. rewrite Hc, Hs, Hg. repeat split.
    apply Forall_forall. intros c Hin.
    apply list_elem_of_In, in_map_iff in Hin as (p & <- & Hp).
    apply List.filter_In in Hp as [_ Hp]. exact Hp.
Qed.

(** X10.  [sources] holds the sources of the points kept, up to Python's
    equality, and nothing else; [guide_ids] holds in the same way the guide
    ids of the points kept that are truthy, so never [None], [0] or an
    empty string. *)
Theorem search_sets_cover_the_kept_points results r :
  search_aggregate results = Ok r ->
  (forall x, x ∈ sources r ->
     exists p, p ∈ results /\ has_text p = true /\ point_source p = x) /\
  (forall p, p ∈ results -> has_text p = true ->
     exists x, x ∈ sources r /\
               py_hash_key x = py_hash_key (point_source p)) /\
  (forall g, g ∈ guide_ids r ->
     truthy g = true /\
     exists p, p ∈ results /\ has_text p = true /\ point_guide_id p = g) /\
  (forall p, p ∈ results -> has_text p = true ->
     truthy (point_guide_id p) = true ->
     exists g, g ∈ guide_ids r /\
               py_hash_key g = py_hash_key (point_guide_id p)).
Proof.
  intros Hr. unfold search_aggregate in Hr.
  match type of Hr with
  | (search_loop results ?a0 ≫= _) = _ =>
      destruct (search_loop results a0) as [a|e] eqn:Hloop; [|discriminate];
      destruct (search_loop_closed results a0 a [] [] Hloop
                  set_holds_empty set_holds_empty)
        as (_ & _ & _ & [Hs1 Hs2] & [Hg1 Hg2])
  end.
  rewrite bind_Ok in Hr. injection Hr as <-. cbn in *.
  assert (Hkept : forall p, p ∈ List.filter has_text results <->
                    p ∈ results /\ has_text p = true).
  { intros p. rewrite !list_elem_of_In. apply List.filter_In. }
  repeat split.
  - intros x Hx. apply elem_of_set_to_list in Hx as [k Hk].
    destruct (Hs1 _ _ Hk) as [Hin _].
    apply list_elem_of_In, in_map_iff in Hin as (p & <- & Hp).
    apply list_elem_of_In, Hkept in Hp as [Hp Ht]. eauto.
  - intros p Hp Ht.
    destruct (Hs2 (point_source p)) as (k & Hk & [v Hv]).
    { apply list_elem_of_In, in_map, list_elem_of_In, Hkept. auto. }
    exists v. split; [apply elem_of_set_to_list; eauto|].
    destruct (Hs1 _ _ Hv) as [_ Hkey]. congruence.
  - apply elem_of_set_to_list in H0 as [k Hk].
    destruct (Hg1 _ _ Hk) as [Hin _].
    apply list_elem_of_In, List.filter_In in Hin as [_ Ht]. exact Ht.
  - apply elem_of_set_to_list in H0 as [k Hk].
    destruct (Hg1 _ _ Hk) as [Hin _].
    apply list_elem_of_In, List.filter_In in Hin as [Hin _].
    apply in_map_iff in Hin as (p & <- & Hp).
    apply list_elem_of_In, Hkept in Hp as [Hp Ht]. eauto.
  - intros p Hp Ht Hg.
    destruct (Hg2 (point_guide_id p)) as (k & Hk & [v Hv]).
    { apply list_elem_of_In, List.filter_In. split; [|exact Hg].
      apply in_map, list_elem_of_In, Hkept. auto. }
    exists v. split; [apply elem_of_set_to_list; eauto|].
    destruct (Hg1 _ _ Hv) as [_ Hkey]. congruence.
Qed.

End MoreSearchFacts.

Lemma search_keeps_points_with_text_witness :
  contexts
    {| contexts := [JStr "x"]; sources := [JStr "s"]; guide_ids := [JNum 7];
       images_per_context := [[]];
       guide_info := [{| gi_guide_id := JNum 7; gi_title := JNull;
                         gi_url := JNull; gi_source := JStr "s" |}] |}
  = map point_text
      (List.filter has_text
         [{| sp_id := "a";
             sp_payload := Some [("text", JStr "x"); ("source", JStr "s");
                                 ("guide_id", JNum 7)] |};
          {| sp_id := "b"; sp_payload := None |}]).
Proof.
  apply (proj2 (@search_keeps_points_with_text Samples.runtime
                  [{| sp_id := "a";
                      sp_payload := Some [("text", JStr "x");
                                          ("source", JStr "s");
                                          ("guide_id", JNum 7)] |};
                   {| sp_id := "b"; sp_payload := None |}])).
  vm_compute. reflexivity.
Defined.

Lemma search_sets_cover_the_kept_points_witness :
  truthy (JNum 7) = true /\
  exists p,
    p ∈ [{| sp_id := "a";
            sp_payload := Some [("text", JStr "x"); ("source", JStr "s");
                                ("guide_id", JNum 7)] |};
         {| sp_id := "b";
            sp_payload := Some [("text", JStr "y");
                                ("guide_id", JNum 0)] |}] /\
    has_text p = true /\ point_guide_id p = JNum 7.
Proof.
  apply (proj1 (proj2 (proj2
           (@search_sets_cover_the_kept_points Samples.runtime
              [{| sp_id := "a";
                  sp_payload := Some [("text", JStr "x");
                                      ("source", JStr "s");
                                      ("guide_id", JNum 7)] |};
               {| sp_id := "b";
                  sp_payload := Some [("text", JStr "y");
                                      ("guide_id", JNum 0)] |}]
              {| contexts := [JStr "x"; JStr "y"];
                 sources := [JStr "s"; JStr ""];
                 guide_ids := [JNum 7];
                 images_per_context := [[]; []];
                 guide_info :=
                   [{| gi_guide_id := JNum 7; gi_title := JNull;
                       gi_url := JNull; gi_source := JStr "s" |};
                    {| gi_guide_id := JNum 0; gi_title := JNull;
                       gi_url := JNull; gi_source := JStr "" |}] |}
              ltac:(vm_compute; reflexivity)))) (JNum 7)).
  cbn [guide_ids]. apply list_elem_of_here.
Defined.

(** ** Listing the guides of the index (vector_db.py) *)

Lemma has_key_spec k (guides : guide_dict) :
  has_key k guides = true <-> k ∈ map fst guides.
Proof.
  unfold has_key. rewrite existsb_exists, list_elem_of_In, in_map_iff.
  split.
  - intros (kv & Hin & Hk). apply bool_decide_eq_true in Hk. eauto.
  - intros (kv & Hk & Hin). exists kv. split; [exact Hin|].
    now apply bool_decide_eq_true.
Qed.

Lemma first_seen_more seen p e : first_seen seen e -> first_seen (seen ++ [p]) e.
Proof.
  intros (before & q & after & -> & Hg & Hs & Hb).
  exists before, q, (after ++ [p]). rewrite <- app_assoc. auto.
Qed.

Lemma list_guides_step_ok p guides seen :
  guides_ok guides seen -> int_guide_id p ->
  exists guides',
    list_guides_step p guides = Ok guides' /\ guides_ok guides' (seen ++ [p]).
Proof.
  intros (Hnd & Hent & Hall) Hint. unfold list_guides_step. cbn zeta.
  fold (rec_guide_id p). fold (rec_source p).
  destruct Hint as [Hnone|[n Hn]].
  - rewrite Hnone. exists guides. split; [reflexivity|].
    split; [exact Hnd|]. split.
    + intros k e Hke. destruct (Hent k e Hke) as (m & -> & Hm & Hf).
      exists m. auto using first_seen_more.
    + intros q m Hq Hm. apply elem_of_app in Hq as [Hq|Hq]; [eauto|].
      apply list_elem_of_singleton in Hq as ->. congruence.
  - rewrite Hn. cbn [py_hash_key].
    destruct (has_key (HNum n) guides) eqn:Hk.
    + exists guides. split; [reflexivity|]. split; [exact Hnd|]. split.
      * intros k e Hke. destruct (Hent k e Hke) as (m & -> & Hm & Hf).
        exists m. auto using first_seen_more.
      * intros q m Hq Hm. apply elem_of_app in Hq as [Hq|Hq]; [eauto|].
        apply list_elem_of_singleton in Hq as ->.
        rewrite Hn in Hm. injection Hm as <-. now apply has_key_spec.
    + assert (Hfresh : HNum n ∉ map fst guides).
      { intros Hin. apply has_key_spec in Hin. congruence. }
      eexists. split; [reflexivity|]. split; [|split].
      * rewrite map_app. cbn. apply NoDup_app. split; [exact Hnd|].
        split; [|apply NoDup_singleton].
        intros k Hin Hk'. apply list_elem_of_singleton in Hk' as ->.
        contradiction.
      * intros k e Hke. apply elem_of_app in Hke as [Hke|Hke].
        -- destruct (Hent k e Hke) as (m & -> & Hm & Hf).
           exists m. auto using first_seen_more.
        -- apply list_elem_of_singleton in Hke. injection Hke as -> ->.
           exists n. split; [reflexivity|]. split; [reflexivity|].
           exists seen, p, []. cbn. repeat split; try assumption.
           apply Forall_forall. intros q Hq Hgq. apply Hfresh.
           now apply (Hall q n).
      * intros q m Hq Hm. rewrite map_app. apply elem_of_app.
        apply elem_of_app in Hq as [Hq|Hq]; [left; eauto|].
        apply list_elem_of_singleton in Hq as ->.
        rewrite Hn in Hm. injection Hm as <-. right. cbn.
        now apply list_elem_of_singleton.
Qed.

Lemma list_guides_points_ok points :
  forall guides seen,
  guides_ok guides seen -> Forall int_guide_id points ->
  exists guides',
    list_guides_points points guides = Ok guides' /\
    guides_ok guides' (seen ++ points).
Proof.
  induction points as [|p rest IH]; intros guides seen Hok Hint.
  - exists guides. rewrite app_nil_r. auto.
  - apply Forall_cons in Hint as [Hp Hrest].
    destruct (list_guides_step_ok p guides seen Hok Hp) as (g1 & Hstep & Hok1).
    destruct (IH g1 (seen ++ [p]) Hok1 Hrest) as (g2 & Hloop & Hok2).
    exists g2. cbn [list_guides_points]. rewrite Hstep, bind_Ok.
    split; [exact Hloop|]. now rewrite <- app_assoc in Hok2.
Qed.

Lemma list_guides_points_app points1 points2 guides :
  list_guides_points (points1 ++ points2) guides
  = list_guides_points points1 guides ≫= list_guides_points points2.
Proof.
  revert guides. induction points1 as [|p rest IH]; intros guides;
    [reflexivity|].
  cbn [app list_guides_points].
  destruct (list_guides_step p guides); [|reflexivity].
  rewrite !bind_Ok. apply IH.
Qed.

Lemma scroll_loop_pages `{ScrollClient} idx offset pages :
  scrolls_pages idx offset pages ->
  forall guides,
  scroll_loop (length pages) idx offset guides
  = Some (list_guides_points (concat pages) guides).
Proof.
  induction 1 as [offset points Hs|offset points next pages Hs _ IH];
    intros guides.
  - cbn [length scroll_loop concat]. rewrite Hs, app_nil_r.
    now destruct (list_guides_points points guides).
  - cbn [length scroll_loop concat]. rewrite Hs, list_guides_points_app.
    destruct (list_guides_points points guides) as [g|e]; [|reflexivity].
    rewrite bind_Ok. apply IH.
Qed.

Lemma insert_by_guide_id_ok x sorted :
  ge_guide_id x = JNum (entry_key x) ->
  Forall (fun e => ge_guide_id e = JNum (entry_key e)) sorted ->
  StronglySorted (fun a b => entry_key a < entry_key b) sorted ->
  entry_key x ∉ map entry_key sorted ->
  exists r,
    insert_by_guide_id x sorted = Ok r /\ r ≡ₚ x :: sorted /\
    StronglySorted (fun a b => entry_key a < entry_key b) r.
Proof.
  intros Hx. induction sorted as [|y rest IH]; intros Hnum Hsorted Hfresh.
  - exists [x]. repeat split; [reflexivity | repeat constructor].
  - apply Forall_cons in Hnum as [Hy Hnum].
    apply StronglySorted_inv in Hsorted as [Hrest Hlt].
    cbn [insert_by_guide_id]. unfold py_lt. rewrite Hx, Hy. cbn [num_of].
    rewrite bind_Ok.
    destruct (Z.ltb_spec (entry_key x) (entry_key y)) as [Hxy|Hyx].
    + exists (x :: y :: rest). repeat split; [reflexivity|].
      constructor; [now constructor|].
      constructor; [exact Hxy|].
      eapply Forall_impl; [exact Hlt|]. intros z Hz. cbn beta in Hz. lia.
    + assert (Hne : entry_key x <> entry_key y).
      { intros Heq. apply Hfresh. cbn. rewrite Heq. now left. }
      destruct IH as (r & Hr & Hperm & Hs); [exact Hnum | exact Hrest | |].
      { intros Hin. apply Hfresh. cbn. now right. }
      rewrite Hr, bind_Ok. exists (y :: r). repeat split.
      * rewrite Hperm. apply perm_swap.
      * constructor; [exact Hs|]. rewrite Hperm.
        constructor; [lia | exact Hlt].
Qed.

Lemma sorted_by_guide_id_ok items :
  forall sorted,
  Forall (fun e => ge_guide_id e = JNum (entry_key e)) (items ++ sorted) ->
  NoDup (map entry_key (items ++ sorted)) ->
  StronglySorted (fun a b => entry_key a < entry_key b) sorted ->
  exists r,
    sorted_by_guide_id items sorted = Ok r /\ r ≡ₚ items ++ sorted /\
    StronglySorted (fun a b => entry_key a < entry_key b) r.
Proof.
  induction items as [|x rest IH]; intros sorted Hnum Hnd Hs.
  - exists sorted. auto.
  - cbn [app] in Hnum, Hnd. apply Forall_cons in Hnum as [Hx Hnum].
    cbn [map] in Hnd. apply NoDup_cons in Hnd as [Hfresh Hnd].
    rewrite map_app in Hfresh, Hnd.
    apply Forall_app in Hnum as [Hrest Hsorted].
    destruct (insert_by_guide_id_ok x sorted Hx Hsorted Hs)
      as (s1 & Hins & Hperm1 & Hs1).
    { intros Hin. apply Hfresh, elem_of_app. now right. }
    destruct (IH s1) as (r & Hr & Hperm & Hsr).
    + apply Forall_app. split; [exact Hrest|]. rewrite Hperm1.
      now constructor.
    + rewrite map_app. change (map entry_key s1) with (entry_key <$> s1).
      rewrite Hperm1. cbn [fmap list_fmap].
      change (list_fmap _ _ entry_key sorted) with (map entry_key sorted).
      eapply (NoDup_Permutation_proper _ _); [|constructor; [exact Hfresh | exact Hnd]].
      rewrite Permutation_middle. reflexivity.
    + exact Hs1.
    + exists r. cbn [sorted_by_guide_id]. rewrite Hins, bind_Ok.
      split; [exact Hr|]. split; [|exact Hsr].
      rewrite Hperm, Hperm1. cbn [app]. symmetry. apply Permutation_middle.
Qed.

(** X11 ([QdrantStorage.list_guides]).  When the scroll of the index ends
    after the pages [pages] and the guide ids of the stored points are
    integers (or missing), [list_guides] returns one entry per guide id:
    the entries are in strictly ascending order of their ids, hence without
    duplicates; every entry carries the id and the source of the first
    scrolled point with that id; and every id of a scrolled point has its
    entry. *)
Theorem list_guides_sorted_one_entry_per_guide `{ScrollClient} idx pages :
  scrolls_pages idx None pages ->
  Forall int_guide_id (concat pages) ->
  exists entries,
    list_guides (length pages) idx = Some (Ok entries) /\
    StronglySorted (fun a b => entry_key a < entry_key b) entries /\
    (forall e, e ∈ entries ->
       ge_guide_id e = JNum (entry_key e) /\ first_seen (concat pages) e) /\
    (forall p n, p ∈ concat pages -> rec_guide_id p = JNum n ->
       exists e, e ∈ entries /\ ge_guide_id e = JNum n).
Proof.
  intros Hpages Hint. unfold list_guides.
  rewrite (scroll_loop_pages idx None pages Hpages).
  destruct (list_guides_points_ok (concat pages) [] [])
    as (guides & Hloop & Hnd & Hent & Hall); [|exact Hint|].
  { split; [constructor|]. split.
    - intros k e Hke. now apply elem_of_nil in Hke.
    - intros p n Hp. now apply elem_of_nil in Hp. }
  cbn [app] in Hloop, Hent, Hall. rewrite Hloop.
  assert (Hnum : Forall (fun e => ge_guide_id e = JNum (entry_key e))
                   (map snd guides)).
  { apply Forall_forall. intros e He.
    apply list_elem_of_In, in_map_iff in He as ([k e'] & <- & Hin).
    apply list_elem_of_In in Hin.
    destruct (Hent k e' Hin) as (n & _ & Hn & _).
    cbn [snd]. unfold entry_key. now rewrite Hn. }
  assert (Hkeys : map fst guides = map (fun e => HNum (entry_key e))
                                     (map snd guides)).
  { rewrite map_map. apply map_ext_in. intros [k e] Hin.
    apply list_elem_of_In in Hin.
    destruct (Hent k e Hin) as (n & -> & Hn & _).
    cbn [fst snd]. unfold entry_key. now rewrite Hn. }
  assert (Hnd' : NoDup (map entry_key (map snd guides))).
  { rewrite Hkeys, <- (map_map entry_key HNum) in Hnd.
    revert Hnd. generalize (map entry_key (map snd guides)).
    induction l as [|z l IH]; intros Hnd; [constructor|].
    cbn [map] in Hnd. apply NoDup_cons in Hnd as [Hz Hnd].
    constructor; [|now apply IH].
    intros Hin. apply Hz. apply list_elem_of_In, in_map, list_elem_of_In.
    exact Hin. }
  destruct (sorted_by_guide_id_ok (map snd guides) [])
    as (entries & Hsort & Hperm & Hsorted).
  { now rewrite app_nil_r. }
  { now rewrite app_nil_r. }
  { constructor. }
  rewrite app_nil_r in Hperm.
  exists entries. split; [now rewrite Hsort|]. split; [exact Hsorted|]. split.
  - intros e He. rewrite Hperm in He.
    split; [now apply (proj1 (Forall_forall _ _) Hnum)|].
    apply list_elem_of_In, in_map_iff in He as ([k e'] & <- & Hin).
    apply list_elem_of_In in Hin.
    now destruct (Hent k e' Hin) as (n & _ & _ & Hf).
  - intros p n Hp Hn. specialize (Hall p n Hp Hn).
    apply list_elem_of_In, in_map_iff in Hall as ([k e] & Hk & Hin).
    cbn [fst] in Hk. subst k. exists e. split.
    + rewrite Hperm. apply list_elem_of_In, in_map_iff.
      exists (HNum n, e). auto.
    + apply list_elem_of_In in Hin.
      destruct (Hent _ e Hin) as (m & Hm & Hg & _). congruence.
Qed.

Lemma list_guides_sorted_one_entry_per_guide_witness :
  let pages := [[Samples.point 2 "b"; Samples.point 1 "a"];
                [Samples.point 2 "c"]] in
  exists entries,
    @list_guides (Samples.scroll_client pages) (length pages) ∅
      = Some (Ok entries) /\
    StronglySorted (fun a b => entry_key a < entry_key b) entries /\
    (forall e, e ∈ entries ->
       ge_guide_id e = JNum (entry_key e) /\ first_seen (concat pages) e) /\
    (forall p n, p ∈ concat pages -> rec_guide_id p = JNum n ->
       exists e, e ∈ entries /\ ge_guide_id e = JNum n).
Proof.
  intros pages.
  apply (@list_guides_sorted_one_entry_per_guide
           (Samples.scroll_client pages) ∅ pages).
  - eapply (@scrolls_next (Samples.scroll_client pages) ∅ None _ "1").
    + vm_compute. reflexivity.
    + apply (@scrolls_last (Samples.scroll_client pages)).
      vm_compute. reflexivity.
  - cbn [concat pages app].
    repeat (apply List.Forall_cons; [right; eexists; reflexivity|]).
    apply List.Forall_nil.
Defined.

(** ** The two ingestion paths (main.py) *)

Section IngestionPaths.
Context `{Runtime} `{Splitter} `{ContentSource} `{Embedder}.

(** X12.  The event ["rag/ingest_guide"] with the source id the site saga
    builds, [f"{site_id}_guide_{guide_id}"], and the saga's
    [process_single_guide] do the same: the same chunk count and the same
    index, or the same exception, which [process_single_guide] re-raises
    with its prefix.  The early return of [process_single_guide] for a
    guide without chunks makes no difference. *)
Theorem ingest_paths_agree guide_id token site_id idx :
  process_single_guide guide_id token site_id idx
  = match rag_ingest_guide guide_id token
            (Some (site_id +:+ "_guide_" +:+ py_str guide_id)) idx with
    | Ok r => Ok r
    | Raise e =>
        Raise (Exception ("Failed to process guide " +:+ py_str guide_id
                          +:+ ": " +:+ str_exn e))
    end.
Proof.
  unfold process_single_guide, process_single_guide_body, rag_ingest_guide,
    rag_ingest_guide_load, rag_ingest_guide_upsert.
  destruct (load_and_chunk_guide guide_id token) as [chunks|e];
    [|reflexivity].
  rewrite !bind_Ok. cbn [fst snd]. destruct chunks as [|c chunks];
    [reflexivity|].
  destruct (embed_texts (c :: chunks)) as [vecs|e]; [|reflexivity].
  rewrite !bind_Ok. cbn zeta.
  now destruct (upsert _ vecs _ idx).
Qed.

(** X13.  What a successful [process_single_guide] leaves in the index,
    when the hash does not collide: the count it returns is the number of
    chunks of the guide; chunk [i] is stored under the id of
    ["{site_id}_guide_{guide_id}:{i}"] with its embedding and a payload of
    exactly the source id, the chunk text and the guide id; every other
    point of the index is as before. *)
Theorem stored_points_carry_the_chunks guide_id token site_id idx n idx' :
  Inj (=) (=) uuid5_url ->
  process_single_guide guide_id token site_id idx = Ok (n, idx') ->
  let source_id := site_id +:+ "_guide_" +:+ py_str guide_id in
  exists chunks vecs,
    load_and_chunk_guide guide_id token = Ok chunks /\
    embed_texts chunks = Ok vecs /\
    n = Z.of_nat (length chunks) /\
    (forall i c, chunks !! i = Some c ->
       exists v, vecs !! i = Some v /\
         idx' !! uuid5_url (point_name source_id i)
         = Some (v, [("source", JStr source_id); ("text", JStr c);
                     ("guide_id", guide_id)])) /\
    (forall k, k ∉ point_ids source_id chunks -> idx' !! k = idx !! k).
Proof.
  intros Hinj Hp source_id. unfold process_single_guide in Hp.
  destruct (process_single_guide_body guide_id token site_id idx)
    as [r|e] eqn:Hbody; [|discriminate].
  injection Hp as ->. unfold process_single_guide_body in Hbody.
  destruct (load_and_chunk_guide guide_id token) as [chunks|e];
    [|discriminate].
  rewrite bind_Ok in Hbody. destruct chunks as [|c0 chunks0] eqn:Hc.
  { injection Hbody as <- <-. exists [], []. repeat split; auto.
    intros i c Hi. discriminate. }
  rewrite <- Hc in Hbody |- *. clear Hc.
  destruct (embed_texts chunks) as [vecs|e] eqn:Hvecs; [|discriminate].
  rewrite bind_Ok in Hbody. cbn zeta in Hbody. fold source_id in Hbody.
  pose proof (embed_loop_length _ _ _ Hvecs) as Hlen. cbn [length] in Hlen.
  rewrite Nat.add_0_l in Hlen.
  rewrite upsert_points in Hbody
    by (rewrite ?length_point_ids, ?length_point_payloads; lia).
  rewrite bind_Ok in Hbody.
  set (ids := point_ids source_id chunks) in *.
  set (payloads := point_payloads source_id guide_id chunks) in *.
  set (mk := fun i => {| point_id := nth i ids "";
                         point_vector := nth i vecs [];
                         point_payload := nth i payloads [] |}) in *.
  set (idx1 := client_upsert idx _) in Hbody.
  assert (n = Z.of_nat (length chunks) /\ idx' = idx1) as [-> ->]
    by (split; congruence).
  subst idx1.
  exists chunks, vecs. split; [reflexivity|]. split; [exact Hvecs|].
  split; [reflexivity|].
  assert (Hids : point_id <$> map mk (range (length ids)) = ids).
  { change (?f <$> ?k) with (map f k). rewrite map_map. cbn [mk point_id].
    apply map_nth_range. }
  split.
  - intros i c Hi. pose proof (lookup_lt_Some _ _ _ Hi) as Hlt.
    destruct (lookup_lt_is_Some_2 vecs i ltac:(lia)) as [v Hv].
    exists v. split; [exact Hv|].
    assert (Hin : mk i ∈ map mk (range (length ids))).
    { apply list_elem_of_In, in_map, list_elem_of_In, elem_of_seq.
      unfold ids. rewrite length_point_ids. lia. }
    pose proof (client_upsert_written _ idx (mk i)
                  ltac:(rewrite Hids; now apply point_ids_NoDup) Hin) as Hw.
    cbn [mk point_id point_vector point_payload] in Hw.
    assert (Hid : nth i ids "" = uuid5_url (point_name source_id i)).
    { unfold ids, point_ids, range.
      rewrite (nth_indep _ "" (uuid5_url (point_name source_id 0)))
        by (rewrite length_map, length_seq; lia).
      rewrite (map_nth (fun j => uuid5_url (point_name source_id j))).
      now rewrite seq_nth by lia. }
    assert (Hpl : nth i payloads []
                  = [("source", JStr source_id); ("text", JStr c);
                     ("guide_id", guide_id)]).
    { unfold payloads, point_payloads, range.
      set (f := fun j => [("source", JStr source_id);
                          ("text", JStr (nth j chunks ""));
                          ("guide_id", guide_id)]).
      rewrite (nth_indep _ [] (f 0%nat))
        by (rewrite length_map, length_seq; lia).
      rewrite (map_nth f), seq_nth by lia. cbn [Nat.add]. unfold f.
      now rewrite (nth_lookup_Some _ _ "" _ Hi). }
    rewrite Hid, Hpl in Hw. rewrite Hw. f_equal. f_equal.
    now apply nth_lookup_Some.
  - intros k Hk. apply client_upsert_other. now rewrite Hids.
Qed.

End IngestionPaths.

Lemma stored_points_carry_the_chunks_witness :
  exists idx' : index,
    @process_single_guide Samples.runtime Samples.whole_text_splitter
      (Samples.source []) Samples.embedder (JNum 1) "token" "hansaw" ∅
    = Ok (3, idx') /\
    idx' !! "hansaw_guide_1:1"
    = Some ([], [("source", JStr "hansaw_guide_1");
                 ("text", JStr ("Introduction:" +:+ nl +:+ "Read first."));
                 ("guide_id", JNum 1)]).
Proof.
  destruct (@process_single_guide Samples.runtime Samples.whole_text_splitter
              (Samples.source []) Samples.embedder (JNum 1) "token" "hansaw" ∅)
    as [[n idx']|e] eqn:Hp; [|discriminate Hp].
  destruct (@stored_points_carry_the_chunks Samples.runtime
              Samples.whole_text_splitter (Samples.source [])
              Samples.embedder (JNum 1) "token" "hansaw" ∅ n idx'
              (fun x y E => E) Hp)
    as (chunks & vecs & Hload & Hvecs & Hn & Hget & _).
  vm_compute in Hload. injection Hload as <-.
  vm_compute in Hvecs. injection Hvecs as <-.
  exists idx'. split; [now rewrite Hn|].
  destruct (Hget 1%nat _ eq_refl) as (v & Hv & Hidx).
  injection Hv as <-. exact Hidx.
Defined.

(** ** Counting in the site saga (main.py) *)

Section SagaAccounting.
Context `{Runtime} `{Splitter} `{ContentSource} `{Embedder} `{Host}.

Lemma process_single_guide_keeps guide_id token site_id idx n idx' :
  process_single_guide guide_id token site_id idx = Ok (n, idx') ->
  0 <= n /\ dom idx ⊆ dom idx'.
Proof.
  unfold process_single_guide.
  destruct (process_single_guide_body guide_id token site_id idx)
    as [r|e] eqn:Hbody; [|discriminate].
  intros [= ->]. unfold process_single_guide_body in Hbody.
  destruct (load_and_chunk_guide guide_id token) as [chunks|e];
    [|discriminate].
  rewrite bind_Ok in Hbody. destruct chunks as [|c chunks].
  { injection Hbody as <- <-. split; [lia | reflexivity]. }
  destruct (embed_texts (c :: chunks)) as [vecs|e]; [|discriminate].
  rewrite bind_Ok in Hbody. cbn zeta in Hbody. unfold upsert in Hbody.
  match type of Hbody with
  | context [list_comp ?f ?l] => destruct (list_comp f l) as [pts|e]
  end; [|discriminate].
  rewrite !bind_Ok in Hbody. injection Hbody as <- <-.
  split; [lia|]. rewrite client_upsert_dom. set_solver.
Qed.

Lemma accounted_refl st : accounted st st.
Proof. unfold accounted. split; [lia|]. split; [lia|]. split; [lia|]. reflexivity. Qed.

Lemma accounted_trans st1 st2 st3 :
  accounted st1 st2 -> accounted st2 st3 -> accounted st1 st3.
Proof.
  unfold accounted. intros (?&?&?&?) (?&?&?&?).
  repeat split; try lia. set_solver.
Qed.

Lemma accounted_add_log ev st :
  attempts [ev] = [] -> accounted st (add_log ev st).
Proof.
  intros Hev. unfold accounted. cbn [add_log processed errors log store
                                     total_chunks].
  rewrite attempts_app, Hev, app_nil_r.
  split; [lia|]. split; [lia|]. split; [lia|]. reflexivity.
Qed.

Lemma try_guide_accounted token site_id total_guides i guide_id summary st :
  total_guides <> 0 ->
  accounted st (try_guide token site_id total_guides i guide_id summary st).
Proof.
  intros Ht. unfold try_guide, accounted.
  cbn [add_log store processed total_chunks errors log].
  destruct (process_single_guide guide_id token site_id (store st))
    as [[n store']|e] eqn:Hp.
  - apply process_single_guide_keeps in Hp as [Hn Hdom].
    destruct (percentage_total (processed st + 1) total_guides Ht)
      as [pct ->].
    cbn [add_log store processed total_chunks errors log].
    rewrite !attempts_app. cbn [attempts]. rewrite app_nil_r, length_app.
    cbn [length]. repeat split; try lia. exact Hdom.
  - unfold handle_failure.
    cbn [add_log store processed total_chunks errors log].
    rewrite !attempts_app. cbn [attempts].
    rewrite app_nil_r, !length_app. cbn [length].
    split; [lia|]. split; [lia|]. split; [lia|]. reflexivity.
Qed.

Lemma guides_loop_accounted token site_id all_guides indices :
  forall st,
  accounted st (snd (guides_loop token site_id all_guides indices st)).
Proof.
  induction indices as [|i rest IH]; intros st; [apply accounted_refl|].
  cbn [guides_loop].
  destruct (py_index all_guides i) as [g|e] eqn:Hidx;
    [|apply accounted_refl].
  pose proof (py_index_nonempty _ _ _ Hidx) as Htotal.
  destruct g as [| | | | |summary]; try apply accounted_refl.
  cbn zeta.
  destruct (truthy (dict_get summary "guideid" JNull)); cbn [negb];
    [|apply IH].
  destruct ((0 <? i) && (i mod 5 =? 0)).
  - destruct (wait_for_pause i); cbn [snd].
    + eapply accounted_trans;
        [apply (accounted_add_log (StepPauseCheck i)); reflexivity|].
      apply accounted_add_log. reflexivity.
    + eapply accounted_trans;
        [apply (accounted_add_log (StepPauseCheck i)); reflexivity|].
      eapply accounted_trans; [|apply IH].
      now apply try_guide_accounted.
  - eapply accounted_trans; [|apply IH]. now apply try_guide_accounted.
Qed.

Lemma guides_loop_result token site_id all_guides indices :
  forall st,
  match guides_loop token site_id all_guides indices st with
  | (Some (Paused p i t), st') => p = processed st'
  | (Some (Completed _ _ _ _), _) => False
  | _ => True
  end.
Proof.
  induction indices as [|i rest IH]; intros st; [exact I|].
  cbn [guides_loop].
  destruct (py_index all_guides i) as [g|e]; [|exact I].
  destruct g as [| | | | |summary]; try exact I.
  cbn zeta.
  destruct (truthy (dict_get summary "guideid" JNull)); cbn [negb];
    [|apply IH].
  destruct ((0 <? i) && (i mod 5 =? 0)); [|apply IH].
  destruct (wait_for_pause i); [reflexivity | apply IH].
Qed.

(** X14.  In every run of the site saga each guide for which the ingestion
    step was run is counted exactly once, as processed or as failed, and
    the chunk total is not negative.  In particular the numbers of the
    ["completed"] report add up to the number of steps run. *)
Theorem saga_counts_every_attempt fuel token site_id resume_offset idx :
  match rag_ingest_site fuel token site_id resume_offset idx with
  | Some (r, st) =>
      processed st + Z.of_nat (length (errors st))
      = Z.of_nat (length (attempts (log st))) /\
      0 <= processed st /\ 0 <= total_chunks st /\
      match r with
      | Completed p f c errs =>
          p + f = Z.of_nat (length (attempts (log st))) /\
          f = Z.of_nat (length errs) /\ 0 <= c
      | Paused p i t => 0 <= p <= Z.of_nat (length (attempts (log st)))
      | Uncaught _ => True
      end
  | None => True
  end.
Proof.
  unfold rag_ingest_site.
  destruct (fetch_all_guides fuel token 0 []) as [[all_guides|e]|];
    [| cbn; repeat split; lia | exact I].
  unfold ingest_catalog.
  match goal with
  | |- context [guides_loop ?t ?s ?g ?ixs ?st0] =>
      pose proof (guides_loop_accounted t s g ixs st0) as Hacc;
      pose proof (guides_loop_result t s g ixs st0) as Hres;
      destruct (guides_loop t s g ixs st0) as [[r|] st]
  end; unfold accounted in Hacc;
    cbn [snd fst log errors processed total_chunks store attempts length]
      in Hacc, Hres;
    destruct Hacc as (Hcount & Hp & Hc & _).
  - repeat split; try lia.
    destruct r as [p f c errs|p i t|e]; [destruct Hres| |exact I].
    subst p. lia.
  - cbn [add_log log errors processed total_chunks].
    rewrite attempts_app. cbn [attempts]. rewrite app_nil_r.
    repeat split; lia.
Qed.

(** X15.  The site saga never removes a point: whatever the run does,
    every id stored before it is still stored after it. *)
Theorem saga_never_removes_points fuel token site_id resume_offset idx :
  match rag_ingest_site fuel token site_id resume_offset idx with
  | Some (_, st) => forall k, is_Some (idx !! k) -> is_Some (store st !! k)
  | None => True
  end.
Proof.
  unfold rag_ingest_site.
  destruct (fetch_all_guides fuel token 0 []) as [[all_guides|e]|];
    [| cbn; auto | exact I].
  unfold ingest_catalog.
  match goal with
  | |- context [guides_loop ?t ?s ?g ?ixs ?st0] =>
      pose proof (guides_loop_accounted t s g ixs st0) as Hacc;
      destruct (guides_loop t s g ixs st0) as [[r|] st]
  end; unfold accounted in Hacc; cbn [snd store] in Hacc;
    destruct Hacc as (_ & _ & _ & Hdom);
    cbn [add_log store]; intros k Hk;
    apply elem_of_dom, Hdom, elem_of_dom, Hk.
Qed.

End SagaAccounting.

(** ** Resume offsets outside the catalog (main.py) *)

Lemma summary_at_negative all_guides i :
  - Z.of_nat (length all_guides) <= i < 0 ->
  summary_at all_guides i
  = summary_at all_guides (Z.of_nat (length all_guides) + i).
Proof.
  intros Hi. unfold summary_at, py_index.
  destruct (Z.leb_spec 0 i); [lia|]. cbn [andb].
  destruct (Z.ltb_spec i 0); [|lia].
  destruct (Z.leb_spec 0 (Z.of_nat (length all_guides) + i)); [|lia].
  cbn [andb].
  destruct (Z.ltb_spec (Z.of_nat (length all_guides) + i)
              (Z.of_nat (length all_guides))); [|lia].
  reflexivity.
Qed.

Section ResumeOffsets.
Context `{Runtime} `{Splitter} `{ContentSource} `{Embedder} `{Host}.

(** X16.  A resume offset at or beyond the end of the catalog makes the
    saga report completion at once, with all counters zero, no step run and
    the index untouched.  A resume offset below [-len(all_guides)] makes the
    first [all_guides[i]] raise [IndexError], which nothing catches: the run
    fails before any step, with the index untouched. *)
Theorem resume_offset_outside_catalog token site_id N all_guides idx :
  serves_catalog token all_guides ->
  let total := Z.of_nat (length all_guides) in
  (total <= N ->
   rag_ingest_site (S (length all_guides)) token site_id (Some N) idx
   = Some (Completed 0 0 0 [],
           {| processed := 0; total_chunks := 0; errors := []; store := idx;
              log := [SentFetching total; SentCompleted 0 0 0] |})) /\
  (N < - total ->
   rag_ingest_site (S (length all_guides)) token site_id (Some N) idx
   = Some (Uncaught IndexError,
           {| processed := 0; total_chunks := 0; errors := []; store := idx;
              log := [SentFetching total] |})).
Proof.
  intros Hserve total.
  rewrite (rag_ingest_site_catalog token site_id N all_guides idx Hserve).
  unfold ingest_catalog, py_range. fold total. split; intros HN.
  - rewrite seqZ_nil by lia. reflexivity.
  - rewrite seqZ_cons by lia. cbn [guides_loop]. unfold py_index.
    fold total.
    destruct (Z.leb_spec 0 N); [lia|]. cbn [andb].
    destruct (Z.leb_spec 0 (total + N)); [lia|].
    rewrite andb_false_r. reflexivity.
Qed.

(** X17.  A negative resume offset [-k] within the catalog is an index from
    the end of the list: the saga first works through the last [k] guides,
    where no pause can stop it, and then through the catalog from its
    first guide, so that those [k] guides are attempted twice. *)
Theorem negative_resume_offset_wraps_around token site_id N all_guides idx :
  serves_catalog token all_guides ->
  summaries all_guides ->
  let total := Z.of_nat (length all_guides) in
  - total <= N < 0 ->
  (forall i, N <= i < 0 ->
     summary_at all_guides i = summary_at all_guides (total + i)) /\
  exists r st stop,
    rag_ingest_site (S (length all_guides)) token site_id (Some N) idx
    = Some (r, st) /\
    0 <= stop <= total /\
    attempts (log st)
    = List.filter (has_id all_guides) (py_range N 0)
      ++ List.filter (has_id all_guides) (py_range 0 stop) /\
    match r with
    | Completed _ _ _ _ => stop = total
    | Paused _ i _ => stop = i /\ 0 < i
    | Uncaught _ => False
    end.
Proof.
  intros Hserve Hdict total HN. split.
  { intros i Hi. apply summary_at_negative. fold total. lia. }
  rewrite (rag_ingest_site_catalog token site_id N all_guides idx Hserve).
  unfold ingest_catalog. fold total.
  set (st0 := {| processed := 0; total_chunks := 0; errors := [];
                 store := idx; log := [SentFetching total] |}).
  destruct (guides_loop_spec token (default "hansaw" site_id) all_guides
              (py_range N total) st0)
    as (visited & rest & r & st' & Hloop & Hsplit & Hnop & Hatt & _ & _ & Hr).
  { intros i Hi. apply elem_of_seqZ in Hi.
    destruct (Z.lt_ge_cases i 0).
    - rewrite summary_at_negative by (fold total; lia).
      apply summary_at_in_range; [exact Hdict | fold total; lia].
    - apply summary_at_in_range; [exact Hdict | fold total; lia]. }
  rewrite Hloop. cbn [st0 log attempts app] in Hatt.
  assert (Hranges : forall stop, 0 <= stop ->
            seqZ N (stop - N) = py_range N 0 ++ py_range 0 stop).
  { intros stop Hstop. unfold py_range.
    replace (stop - N) with ((0 - N) + (stop - 0)) by lia.
    rewrite seqZ_app by lia. do 2 f_equal. lia. }
  destruct r as [[p f c errs|p i t|e]|]; [destruct Hr| |destruct Hr|].
  - destruct Hr as ((rest' & ->) & Hpi & _).
    unfold py_range in Hsplit. apply seqZ_split in Hsplit as [-> Hrange].
    assert (0 < i) as Hpos.
    { unfold polled in Hpi. apply andb_prop in Hpi as [Hpi _].
      apply andb_prop in Hpi as [_ Hpi]. lia. }
    exists (Paused p i t), st', i. split; [reflexivity|].
    split; [lia|]. split; [|auto].
    rewrite Hatt, Hranges by lia. apply List.filter_app.
  - destruct Hr as [-> _]. rewrite app_nil_r in Hsplit. subst visited.
    eexists _, _, total. split; [reflexivity|]. split; [lia|].
    split; [|reflexivity].
    cbn [add_log log]. rewrite attempts_app. cbn [attempts].
    rewrite app_nil_r, Hatt. unfold py_range at 1.
    rewrite Hranges by lia. apply List.filter_app.
Qed.

End ResumeOffsets.

Lemma resume_offset_outside_catalog_witness :
  @rag_ingest_site Samples.runtime Samples.whole_text_splitter
    (Samples.source (Samples.catalog 3)) Samples.embedder
    (Samples.host []) 4 "token" None (Some 3) ∅
  = Some (Completed 0 0 0 [],
          {| processed := 0; total_chunks := 0; errors := []; store := ∅;
             log := [SentFetching 3; SentCompleted 0 0 0] |}) /\
  @rag_ingest_site Samples.runtime Samples.whole_text_splitter
    (Samples.source (Samples.catalog 3)) Samples.embedder
    (Samples.host []) 4 "token" None (Some (-4)) ∅
  = Some (Uncaught IndexError,
          {| processed := 0; total_chunks := 0; errors := []; store := ∅;
             log := [SentFetching 3] |}).
Proof.
  split.
  - apply (proj1 (@resume_offset_outside_catalog Samples.runtime
                    Samples.whole_text_splitter
                    (Samples.source (Samples.catalog 3)) Samples.embedder
                    (Samples.host []) "token" None 3 (Samples.catalog 3) ∅
                    (sample_source_serves _ _))).
    simpl. lia.
  - apply (proj2 (@resume_offset_outside_catalog Samples.runtime
                    Samples.whole_text_splitter
                    (Samples.source (Samples.catalog 3)) Samples.embedder
                    (Samples.host []) "token" None (-4) (Samples.catalog 3) ∅
                    (sample_source_serves _ _))).
    simpl. lia.
Defined.

Lemma negative_resume_offset_wraps_around_witness :
  exists r st stop,
    @rag_ingest_site Samples.runtime Samples.whole_text_splitter
      (Samples.source (Samples.catalog 3)) Samples.embedder
      (Samples.host []) 4 "token" None (Some (-1)) ∅ = Some (r, st) /\
    0 <= stop <= 3 /\
    attempts (log st)
    = List.filter (has_id (Samples.catalog 3)) (py_range (-1) 0)
      ++ List.filter (has_id (Samples.catalog 3)) (py_range 0 stop).
Proof.
  destruct (@negative_resume_offset_wraps_around Samples.runtime
              Samples.whole_text_splitter
              (Samples.source (Samples.catalog 3)) Samples.embedder
              (Samples.host []) "token" None (-1) (Samples.catalog 3) ∅
              (sample_source_serves _ _) (sample_catalog_summaries 3)
              ltac:(simpl; lia))
    as (_ & r & st & stop & Hrun & Hstop & Hatt & _).
  exists r, st, stop. split; [exact Hrun|]. split; [exact Hstop | exact Hatt].
Defined.

(** ** Pausing and resuming (main.py) *)

Section PauseResume.
Context `{Runtime} `{Splitter} `{ContentSource} `{Embedder}.

Lemma ingest_catalog_counts `{Host} token site_id N all_guides idx :
  let out := ingest_catalog token site_id N all_guides idx in
  processed (snd out) + Z.of_nat (length (errors (snd out)))
  = Z.of_nat (length (attempts (log (snd out)))).
Proof.
  cbn zeta. unfold ingest_catalog.
  match goal with
  | |- context [guides_loop ?t ?s ?g ?ixs ?st0] =>
      pose proof (guides_loop_accounted t s g ixs st0) as Hacc;
      destruct (guides_loop t s g ixs st0) as [[r|] st]
  end; unfold accounted in Hacc;
    cbn [snd log errors processed attempts length] in Hacc;
    destruct Hacc as (Hcount & _); cbn [snd]; [lia|].
  cbn [add_log log errors processed]. rewrite attempts_app.
  cbn [attempts]. rewrite app_nil_r. lia.
Qed.

(** X18.  Pausing loses nothing and repeats nothing.  When a run from
    offset [N] is paused at index [i], and a second run, started with the
    reported [resume_offset = i] on the index the first run left, completes,
    the two runs together have attempted every guide with an id from [N] to
    the end of the catalog exactly once and in order, and their failures
    together are the failures of those guides.  The report of the second
    run counts only its own guides: the processed and failed counts of both
    runs add up to the number of attempts. *)
Theorem pause_then_resume_attempts_each_guide_once (host1 host2 : Host)
    token site_id N all_guides idx p i t st1 p2 f2 c2 errs2 st2 :
  serves_catalog token all_guides ->
  summaries all_guides ->
  let total := Z.of_nat (length all_guides) in
  0 <= N <= total ->
  @rag_ingest_site _ _ _ _ host1 (S (length all_guides)) token site_id
    (Some N) idx = Some (Paused p i t, st1) ->
  @rag_ingest_site _ _ _ _ host2 (S (length all_guides)) token site_id
    (Some i) (store st1) = Some (Completed p2 f2 c2 errs2, st2) ->
  N <= i < total /\
  attempts (log st1) ++ attempts (log st2)
  = List.filter (has_id all_guides) (py_range N total) /\
  errors st1 ++ errs2
  = omap (failure_at token (default "hansaw" site_id) all_guides)
      (py_range N total) /\
  p + Z.of_nat (length (errors st1)) + p2 + f2
  = Z.of_nat (length (List.filter (has_id all_guides) (py_range N total))).
Proof.
  intros Hserve Hdict total HN Hrun1 Hrun2.
  rewrite (@rag_ingest_site_catalog _ _ _ _ host1 token site_id N all_guides
             idx Hserve) in Hrun1.
  rewrite (@rag_ingest_site_catalog _ _ _ _ host2 token site_id i all_guides
             (store st1) Hserve) in Hrun2.
  injection Hrun1 as Hrun1. injection Hrun2 as Hrun2.
  destruct (@ingest_catalog_spec _ _ _ _ host1 token
              (default "hansaw" site_id) N all_guides idx Hdict HN)
    as (r1 & st1' & stop1 & Hr1 & Hstop1 & _ & Hatt1 & Herr1 & _ & Hcase1).
  rewrite Hrun1 in Hr1. injection Hr1 as <- <-.
  cbn zeta in Hstop1, Hcase1. fold total in Hstop1, Hcase1.
  destruct Hcase1 as (-> & Hlt & _ & _ & _ & Hp1 & _).
  destruct (@ingest_catalog_spec _ _ _ _ host2 token
              (default "hansaw" site_id) i all_guides (store st1) Hdict
              ltac:(fold total; lia))
    as (r2 & st2' & stop2 & Hr2 & Hstop2 & _ & Hatt2 & Herr2 & _ & Hcase2).
  rewrite Hrun2 in Hr2. injection Hr2 as <- <-.
  cbn zeta in Hstop2, Hcase2. fold total in Hstop2, Hcase2.
  destruct Hcase2 as (-> & Hp2 & He2 & Hf2 & _).
  assert (Hsplit : py_range N total = py_range N i ++ py_range i total).
  { unfold py_range. replace (total - N) with ((i - N) + (total - i)) by lia.
    rewrite seqZ_app by lia. do 2 f_equal. lia. }
  pose proof (@ingest_catalog_counts host1 token (default "hansaw" site_id)
                N all_guides idx) as Hc1.
  pose proof (@ingest_catalog_counts host2 token (default "hansaw" site_id)
                i all_guides (store st1)) as Hc2.
  cbn zeta in Hc1, Hc2. rewrite Hrun1 in Hc1. rewrite Hrun2 in Hc2.
  cbn [snd] in Hc1, Hc2.
  split; [lia|]. split; [|split].
  - rewrite Hatt1, Hatt2, Hsplit. symmetry. apply List.filter_app.
  - rewrite He2, Herr1, Herr2, Hsplit. symmetry. apply omap_app.
  - rewrite Hsplit, List.filter_app, length_app, <- Hatt1, <- Hatt2.
    subst p p2 f2 errs2. lia.
Qed.

End PauseResume.

Lemma pause_then_resume_attempts_each_guide_once_witness :
  exists p i t st1 p2 f2 c2 errs2 st2,
    @rag_ingest_site Samples.runtime Samples.whole_text_splitter
      (Samples.source (Samples.catalog 6)) Samples.embedder
      (Samples.host [5]) 7 "token" None (Some 4) ∅
    = Some (Paused p i t, st1) /\
    @rag_ingest_site Samples.runtime Samples.whole_text_splitter
      (Samples.source (Samples.catalog 6)) Samples.embedder
      (Samples.host []) 7 "token" None (Some i) (store st1)
    = Some (Completed p2 f2 c2 errs2, st2) /\
    attempts (log st1) ++ attempts (log st2)
    = List.filter (has_id (Samples.catalog 6)) (py_range 4 6).
Proof.
  match eval vm_compute in
    (@rag_ingest_site Samples.runtime Samples.whole_text_splitter
       (Samples.source (Samples.catalog 6)) Samples.embedder
       (Samples.host [5]) 7 "token" None (Some 4) ∅) with
  | Some (Paused ?p ?i ?t, ?st1) =>
      match eval vm_compute in
        (@rag_ingest_site Samples.runtime Samples.whole_text_splitter
           (Samples.source (Samples.catalog 6)) Samples.embedder
           (Samples.host []) 7 "token" None (Some i) (store st1)) with
      | Some (Completed ?p2 ?f2 ?c2 ?errs2, ?st2) =>
          exists p, i, t, st1, p2, f2, c2, errs2, st2;
          assert (Hrun1 :
            @rag_ingest_site Samples.runtime Samples.whole_text_splitter
              (Samples.source (Samples.catalog 6)) Samples.embedder
              (Samples.host [5]) 7 "token" None (Some 4) ∅
            = Some (Paused p i t, st1)) by (vm_compute; reflexivity);
          assert (Hrun2 :
            @rag_ingest_site Samples.runtime Samples.whole_text_splitter
              (Samples.source (Samples.catalog 6)) Samples.embedder
              (Samples.host []) 7 "token" None (Some i) (store st1)
            = Some (Completed p2 f2 c2 errs2, st2))
            by (vm_compute; reflexivity);
          split; [exact Hrun1|]; split; [exact Hrun2|];
          exact (proj1 (proj2
            (@pause_then_resume_attempts_each_guide_once Samples.runtime
               Samples.whole_text_splitter
               (Samples.source (Samples.catalog 6)) Samples.embedder
               (Samples.host [5]) (Samples.host []) "token" None 4
               (Samples.catalog 6) ∅ p i t st1 p2 f2 c2 errs2 st2
               (sample_source_serves _ _) (sample_catalog_summaries 6)
               ltac:(simpl; lia) Hrun1 Hrun2)))
      end
  end.
Defined.

(** ** The number of page requests (main.py) *)

Lemma div_200_step a : (200 <= a)%nat -> (a / 200 = S ((a - 200) / 200))%nat.
Proof.
  intros Ha. replace a with (1 * 200 + (a - 200))%nat at 1 by lia.
  rewrite Nat.div_add_l by lia. reflexivity.
Qed.

Lemma fetch_all_guides_requests `{ContentSource} token catalog :
  serves_catalog token catalog ->
  forall fuel offset,
  fetch_all_guides fuel token (Z.of_nat offset) (take offset catalog)
  = if (fuel <=? length (drop offset catalog) / 200)%nat then None
    else Some (Ok catalog).
Proof.
  intros Hserve. induction fuel as [|fuel IH]; intros offset; [reflexivity|].
  cbn [fetch_all_guides]. change 200 with (Z.of_nat 200).
  rewrite Hserve.
  destruct (take 200 (drop offset catalog)) as [|g batch] eqn:Hbatch.
  - assert (drop offset catalog = []) as Hnil.
    { destruct (drop offset catalog); [reflexivity | discriminate]. }
    rewrite Hnil. cbn [length]. rewrite Nat.Div0.div_0_l.
    cbn [Nat.leb]. rewrite <- (take_drop offset catalog) at 2.
    now rewrite Hnil, app_nil_r.
  - rewrite <- Hbatch.
    destruct (Nat.ltb_spec (length (take 200 (drop offset catalog))) 200)
      as [Hshort|Hfull].
    + rewrite length_take in Hshort.
      rewrite Nat.div_small by lia. cbn [Nat.leb].
      rewrite (take_ge (drop offset catalog)) by lia. now rewrite take_drop.
    + rewrite length_take in Hfull.
      assert (take offset catalog ++ take 200 (drop offset catalog)
              = take (offset + 200) catalog) as ->.
      { apply take_take_drop. }
      replace (Z.of_nat offset + Z.of_nat 200) with (Z.of_nat (offset + 200))
        by lia.
      rewrite IH. rewrite (div_200_step (length (drop offset catalog)))
        by lia.
      rewrite !length_drop.
      replace (length catalog - (offset + 200))%nat
        with (length catalog - offset - 200)%nat by lia.
      reflexivity.
Qed.

(** X19.  Paging through the catalog.  When the content source serves
    [catalog] in pages, the loop over [fetch_guide_list] returns the whole
    catalog, in order, after exactly [len(catalog) // 200 + 1] page
    requests, and not before.  So a catalog whose length is a multiple of 200 costs one more
    request, which is answered with the empty page. *)
Theorem catalog_is_fetched_in_pages `{ContentSource} token catalog fuel :
  serves_catalog token catalog ->
  fetch_all_guides fuel token 0 []
  = if (fuel <=? length catalog / 200)%nat then None else Some (Ok catalog).
Proof.
  intros Hserve.
  apply (fetch_all_guides_requests token catalog Hserve fuel 0%nat).
Qed.

Lemma catalog_is_fetched_in_pages_witness :
  @fetch_all_guides (Samples.source (Samples.catalog 400)) 2 "token" 0 []
  = None /\
  @fetch_all_guides (Samples.source (Samples.catalog 400)) 3 "token" 0 []
  = Some (Ok (Samples.catalog 400)).
Proof.
  split.
  - apply (@catalog_is_fetched_in_pages (Samples.source (Samples.catalog 400))
             "token" (Samples.catalog 400) 2 (sample_source_serves _ _)).
  - apply (@catalog_is_fetched_in_pages (Samples.source (Samples.catalog 400))
             "token" (Samples.catalog 400) 3 (sample_source_serves _ _)).
Defined.

(** ** Stripping white space *)

Lemma lstrip_chars_clean l : starts_clean (lstrip_chars l).
Proof.
  induction l as [|c l IH]; [exact I|]. cbn [lstrip_chars].
  destruct (isspace c) eqn:Hc; [exact IH | exact Hc].
Qed.

Lemma lstrip_chars_fixed l : starts_clean l -> lstrip_chars l = l.
Proof. destruct l as [|c l]; [reflexivity|]. cbn. now intros ->. Qed.

Lemma lstrip_chars_suffix l : exists pre, l = pre ++ lstrip_chars l.
Proof.
  induction l as [|c l [pre IH]]; [now exists []|]. cbn [lstrip_chars].
  destruct (isspace c).
  - exists (c :: pre). cbn. now f_equal.
  - now exists [].
Qed.

Lemma rstrip_keeps_clean l :
  starts_clean l -> starts_clean (rev (lstrip_chars (rev l))).
Proof.
  intros Hl. destruct (lstrip_chars_suffix (rev l)) as [pre Hpre].
  apply (f_equal (@rev ascii)) in Hpre.
  rewrite rev_involutive, rev_app_distr in Hpre.
  destruct (rev (lstrip_chars (rev l))) as [|c m]; [exact I|].
  rewrite Hpre in Hl. exact Hl.
Qed.

Lemma strip_idempotent s : strip (strip s) = strip s.
Proof.
  unfold strip. rewrite list_ascii_of_string_of_list_ascii. f_equal.
  set (l1 := lstrip_chars (list_ascii_of_string s)).
  rewrite (lstrip_chars_fixed (rev (lstrip_chars (rev l1))))
    by (apply rstrip_keeps_clean, lstrip_chars_clean).
  rewrite rev_involutive.
  now rewrite (lstrip_chars_fixed (lstrip_chars (rev l1)))
    by apply lstrip_chars_clean.
Qed.

(** ** Source guides of an answer (main.py) *)

Section SourceGuides.
Context `{Runtime} `{ContentSource}.

Lemma collect_loop_omap guide_ids token acc :
  collect_loop guide_ids token acc
  = acc ++ omap (fun gid => match source_guide_entry gid token with
                            | Ok entry => Some entry
                            | Raise _ => None
                            end) guide_ids.
Proof.
  revert acc. induction guide_ids as [|gid rest IH]; intros acc.
  - cbn. now rewrite app_nil_r.
  - cbn [collect_loop omap list_omap]. rewrite IH.
    destruct (source_guide_entry gid token); [|reflexivity].
    now rewrite <- app_assoc.
Qed.

Lemma source_guide_entry_ok gid token entry :
  source_guide_entry gid token = Ok entry ->
  sg_guide_id entry = gid /\
  exists d, fetch_guide gid token = Ok (JDict d) /\
            sg_title entry
            = dict_get d "title" (JStr ("Guide " +:+ py_str gid)) /\
            sg_url entry = dict_get d "url" (JStr "").
Proof.
  unfold source_guide_entry.
  destruct (fetch_guide gid token) as [g|e]; [|discriminate].
  rewrite bind_Ok. destruct g as [| | | | |d]; try discriminate.
  cbn [py_get]. rewrite !bind_Ok. intros [= <-]. cbn. eauto.
Qed.

Lemma source_guide_entry_fetches gid token :
  fetches_object token gid
  = match source_guide_entry gid token with Ok _ => true | Raise _ => false end.
Proof.
  unfold fetches_object, source_guide_entry.
  destruct (fetch_guide gid token) as [g|e]; [|reflexivity].
  now destruct g.
Qed.

(** X20.  The source guides of an answer.  Without a token, or with an
    empty one, there are none.  Otherwise [_collect_source_guides] never
    raises: it returns, in the order of [guide_ids], one entry for each
    guide id whose fetch returned an object, and leaves out the ids whose
    fetch failed; an entry carries the title and the URL of the fetched
    guide, or ["Guide {gid}"] and the empty string where the guide has
    none. *)
Theorem source_guides_leave_out_failed_fetches guide_ids token :
  match token with
  | None => _collect_source_guides guide_ids token = []
  | Some t =>
      if String.eqb t "" then _collect_source_guides guide_ids token = []
      else
        map sg_guide_id (_collect_source_guides guide_ids token)
        = List.filter (fetches_object t) guide_ids /\
        Forall (fun entry =>
                  exists d,
                    fetch_guide (sg_guide_id entry) t = Ok (JDict d) /\
                    sg_title entry
                    = dict_get d "title"
                        (JStr ("Guide " +:+ py_str (sg_guide_id entry))) /\
                    sg_url entry = dict_get d "url" (JStr ""))
          (_collect_source_guides guide_ids token)
  end.
Proof.
  unfold _collect_source_guides.
  destruct token as [t|]; [|now destruct guide_ids].
  cbn [truthy]. destruct (String.eqb t "") eqn:Ht; cbn [negb];
    [now destruct guide_ids|].
  assert (Hloop : match guide_ids with
                  | [] => []
                  | _ :: _ => collect_loop guide_ids t []
                  end = collect_loop guide_ids t []) by now destruct guide_ids.
  rewrite Hloop, collect_loop_omap. cbn [app]. clear Hloop.
  induction guide_ids as [|gid rest [IH1 IH2]]; [split; [reflexivity|constructor]|].
  cbn [omap list_omap List.filter].
  rewrite source_guide_entry_fetches.
  destruct (source_guide_entry gid t) as [entry|e] eqn:Hentry.
  - apply source_guide_entry_ok in Hentry as (Hid & d & Hd & Ht1 & Hu).
    split.
    + cbn [map]. rewrite Hid. f_equal. exact IH1.
    + constructor; [|exact IH2]. exists d. now rewrite Hid.
  - split; [exact IH1 | exact IH2].
Qed.

End SourceGuides.

(** ** The chat endpoint (main.py) *)

Lemma find_rev_last {A} (f : A -> bool) (l : list A) :
  List.find f (rev l) = last (List.filter f l).
Proof.
  induction l as [|a l IH]; [reflexivity|].
  cbn [rev List.filter].
  assert (Hfind : forall m, List.find f (m ++ [a])
                  = match List.find f m with
                    | Some x => Some x
                    | None => if f a then Some a else None
                    end).
  { induction m as [|b m IHm]; [reflexivity|].
    cbn [app List.find]. destruct (f b); [reflexivity | exact IHm]. }
  rewrite Hfind, IH. destruct (f a).
  - rewrite last_cons. now destruct (last (List.filter f l)).
  - now destruct (last (List.filter f l)).
Qed.

Section Chat.
Context `{Runtime} `{ContentSource} `{Embedder} `{SearchClient}
        `{AnswerModel} `{Schema}.

(** X21.  What the chat endpoint answers.  The question is the content,
    stripped, of the last message with the role ["user"]; earlier user
    messages do not count.  Without such a message, or when it is blank,
    the answer is 400.  When the retrieval raises it is 500; when the
    answer provider raises it is 502.
    Otherwise the result carries the provider's text without surrounding
    white space, the sources and the number of contexts of the retrieval,
    and the source guides of its guide ids. *)
Theorem chat_endpoint_answers_the_last_user_message request idx :
  match latest_user_message (req_messages request) with
  | None =>
      chat_endpoint request idx
      = HTTPException 400 "At least one user message is required."
  | Some m =>
      let question := strip (msg_content m) in
      if String.eqb question "" then
        chat_endpoint request idx
        = HTTPException 400 "User message content cannot be empty."
      else
        match _retrieve_context question (req_top_k request) idx with
        | Raise _ =>
            chat_endpoint request idx
            = HTTPException 500 "Failed to search knowledge base."
        | Ok found =>
            match chat_endpoint request idx with
            | Answered r =>
                strip (answer r) = answer r /\
                result_sources r = rs_sources found /\
                num_contexts r = Z.of_nat (length (rs_contexts found)) /\
                source_guides r
                = _collect_source_guides (rs_guide_ids found)
                    (req_token request)
            | HTTPException code detail =>
                code = 502 /\ detail = "Failed to generate an answer."
            end
        end
  end.
Proof.
  unfold chat_endpoint, latest_user_message.
  rewrite find_rev_last.
  destruct (last (List.filter is_user (req_messages request))) as [m|];
    [|reflexivity].
  cbn zeta. cbn [truthy].
  destruct (String.eqb (strip (msg_content m)) ""); cbn [negb];
    [reflexivity|].
  destruct (_retrieve_context (strip (msg_content m)) (req_top_k request) idx)
    as [found|e]; [|reflexivity].
  unfold _invoke_claude_with_context.
  destruct (invoke_claude _) as [text|e]; [|split; reflexivity].
  rewrite bind_Ok. cbn [answer result_sources num_contexts source_guides].
  split; [apply strip_idempotent|]. repeat split.
Qed.

(** X22.  A conversation of a single user message is answered by the chat
    endpoint as the event ["rag/query_guide_ai"] answers its question: the
    same answer, sources, context count and source guides.  Where the
    event's function raises, the endpoint answers 500 or 502. *)
Theorem single_question_is_answered_as_by_the_event q top_k token idx :
  strip q <> "" ->
  chat_endpoint
    {| req_messages := [{| msg_role := User; msg_content := q |}];
       req_top_k := top_k; req_token := token |} idx
  = match rag_query_guide_ai (strip q) top_k token idx with
    | Ok r => Answered r
    | Raise _ =>
        match _retrieve_context (strip q) top_k idx with
        | Raise _ => HTTPException 500 "Failed to search knowledge base."
        | Ok _ => HTTPException 502 "Failed to generate an answer."
        end
    end.
Proof.
  intros Hq. unfold chat_endpoint, rag_query_guide_ai.
  cbn [req_messages req_top_k req_token rev app List.find is_user msg_role
       msg_content conversation_history removelast List.filter map truthy].
  destruct (String.eqb_spec (strip q) ""); [contradiction|]. cbn [negb].
  destruct (_retrieve_context (strip q) top_k idx) as [found|e];
    [|reflexivity].
  rewrite bind_Ok.
  destruct (_invoke_claude_with_context (strip q) (rs_contexts found) None)
    as [text|e]; [|reflexivity].
  rewrite bind_Ok. do 2 f_equal.
  unfold _collect_source_guides.
  destruct (rs_guide_ids found) as [|gid rest]; [reflexivity|].
  destruct token as [t|]; [|reflexivity].
  cbn [truthy]. now destruct (negb (String.eqb t "")).
Qed.

End Chat.

Lemma single_question_is_answered_as_by_the_event_witness :
  @chat_endpoint Samples.runtime (Samples.source []) Samples.embedder
    (Samples.search_client []) Samples.answer_model Samples.schema
    {| req_messages := [{| msg_role := User; msg_content := " What is it? " |}];
       req_top_k := 5; req_token := None |} ∅
  = Answered {| answer := "It is a saw."; result_sources := [];
                num_contexts := 0; source_guides := [] |}.
Proof.
  rewrite (@single_question_is_answered_as_by_the_event Samples.runtime
             (Samples.source []) Samples.embedder (Samples.search_client [])
             Samples.answer_model Samples.schema " What is it? " 5 None ∅)
    by (vm_compute; discriminate).
  vm_compute. reflexivity.
Defined.

(** ** The allowed origins (main.py) *)

(** X23.  The allowed origins.  Whatever [CHAT_ALLOWED_ORIGINS] holds,
    no entry of [cors_origins] is empty or has surrounding white space, and
    every entry is ["*"] or a stripped piece of the variable's value
    between commas. *)
Theorem cors_origins_are_stripped_pieces env :
  Forall (fun origin => origin <> "" /\ strip origin = origin)
    (cors_origins env) /\
  (forall origin, origin ∈ cors_origins env ->
     origin = "*" \/
     exists piece, piece ∈ split (default "*" env) /\ origin = strip piece).
Proof.
  unfold cors_origins. cbn zeta.
  destruct (String.eqb (strip (default "*" env)) "*"
            || negb (truthy (JStr (strip (default "*" env))))).
  - split.
    + constructor; [|constructor]. split; [discriminate | reflexivity].
    + intros origin Ho. apply list_elem_of_singleton in Ho. now left.
  - split.
    + apply Forall_forall. intros origin Ho.
      apply list_elem_of_In, in_map_iff in Ho as (piece & <- & Hin).
      apply filter_In in Hin as [_ Ht]. cbn [truthy] in Ht.
      split; [|apply strip_idempotent].
      intros Heq. rewrite Heq in Ht. discriminate.
    + intros origin Ho.
      apply list_elem_of_In, in_map_iff in Ho as (piece & <- & Hin).
      apply filter_In in Hin as [Hin _]. right. exists piece.
      split; [now apply list_elem_of_In | reflexivity].
Qed.

(** ** The prompt (main.py) *)

Lemma append_assoc (a b c : string) : (a +:+ b) +:+ c = a +:+ (b +:+ c).
Proof.
  induction a as [|x a IH]; [reflexivity|].
  change (String x ((a +:+ b) +:+ c) = String x (a +:+ (b +:+ c))).
  now rewrite IH.
Qed.

Lemma join_snoc sep parts last_part :
  join sep (parts ++ [last_part])
  = match parts with
    | [] => last_part
    | _ :: _ => join sep parts +:+ sep +:+ last_part
    end.
Proof.
  induction parts as [|a parts IH]; [reflexivity|].
  destruct parts as [|b parts].
  - cbn. reflexivity.
  - change (join sep ((a :: b :: parts) ++ [last_part]))
      with (a +:+ sep +:+ join sep ((b :: parts) ++ [last_part])).
    rewrite IH.
    change (join sep (a :: b :: parts))
      with (a +:+ sep +:+ join sep (b :: parts)).
    now rewrite !append_assoc.
Qed.

Lemma join_bullets_nonempty sep c contexts :
  join sep (map (fun c => "- " +:+ c) (c :: contexts)) <> "".
Proof. destruct contexts; discriminate. Qed.

(** X24.  The prompt sent to the answer provider always ends with the line
    ["User question: {question}"].  Nothing precedes that line exactly when
    there are no contexts and no conversation history, an empty history
    counting as none. *)
Theorem prompt_ends_with_the_question question contexts history :
  exists prefix,
    user_content question contexts history
    = prefix +:+ "User question: " +:+ question /\
    (prefix = "" <->
     contexts = [] /\ (history = None \/ history = Some [])).
Proof.
  unfold user_content. cbn zeta.
  set (sep := nl +:+ nl).
  set (block := join sep (map (fun c => "- " +:+ c) contexts)).
  set (hist := match history with
               | Some (h :: hs) =>
                   [] ++ ["Conversation so far:" +:+ nl +:+ join nl (h :: hs)]
               | _ => []
               end).
  set (sections := if truthy (JStr block)
                   then hist ++ ["Relevant information from documentation:"
                                 +:+ nl +:+ block]
                   else hist).
  rewrite join_snoc.
  assert (Hsections : sections = [] <->
            contexts = [] /\ (history = None \/ history = Some [])).
  { unfold sections, hist, block. destruct contexts as [|c contexts].
    - cbn [map join truthy String.eqb negb].
      destruct history as [[|h hs]|]; cbn; split; intros Hx;
        try discriminate; auto.
      + destruct Hx as [_ [Hx|Hx]]; discriminate.
    - cbn [truthy].
      destruct (String.eqb_spec
                  (join sep (map (fun c => "- " +:+ c) (c :: contexts))) "")
        as [Heq|_]; [now apply join_bullets_nonempty in Heq|].
      cbn [negb]. split.
      + intros Hx. now apply app_eq_nil in Hx as [_ Hx].
      + intros [Hx _]. discriminate. }
  destruct sections as [|s sections'] eqn:Hs.
  - exists "". split; [reflexivity|]. split; [intros _; now apply Hsections|].
    reflexivity.
  - exists (join sep (s :: sections') +:+ sep).
    split; [symmetry; apply append_assoc|].
    split.
    + intros Hprefix. exfalso.
      destruct (join sep (s :: sections')); discriminate Hprefix.
    + intros Hx. apply Hsections in Hx. discriminate.
Qed.

(** ** White space beyond the ASCII range *)

(** The no-break space U+00A0 and the next-line control U+0085 are
    stripped like the space. *)
Example strip_removes_no_break_space :
  strip (String (ascii_of_nat 160) (String (ascii_of_nat 133) " x "))
  = "x".
Proof. vm_compute. reflexivity. Qed.

(** A guide whose introduction is a single no-break space has the header as
    its only section, with the one empty image list. *)
Example no_break_space_introduction :
  option_map (@length string)
    (match @extract_guide_text Samples.runtime
             (JDict [("title", JStr "Saw");
                     ("introduction_rendered",
                      JStr (String (ascii_of_nat 160) ""))]) with
     | Ok ts => Some ts
     | Raise _ => None
     end) = Some 1%nat /\
  extract_guide_images
    (JDict [("title", JStr "Saw");
            ("introduction_rendered", JStr (String (ascii_of_nat 160) ""))])
  = Ok [[]].
Proof. split; vm_compute; reflexivity. Qed.

(** A last user message of a single no-break space is answered with 400,
    and an origin list that starts with one loses it. *)
Example no_break_space_question_and_origin :
  @chat_endpoint Samples.runtime (Samples.source []) Samples.embedder
    (Samples.search_client []) Samples.answer_model Samples.schema
    {| req_messages :=
         [{| msg_role := User;
             msg_content := String (ascii_of_nat 160) "" |}];
       req_top_k := 5; req_token := None |} ∅
  = HTTPException 400 "User message content cannot be empty." /\
  cors_origins (Some (String (ascii_of_nat 160) "https://a.com"))
  = ["https://a.com"] /\
  cors_origins (Some (String (ascii_of_nat 160) "")) = ["*"].
Proof. repeat split; vm_compute; reflexivity. Qed.
